(** * PICOSplat: shader kernels and PLY importer, embedded in Rocq

    The development follows the layout of the repository:

    - [Unpacking]  : [unpacking.hlsl], the bit-level codec on 32-bit words;
    - [Shaders]    : [constants.hlsl], the covariance-projection kernel, the
                     distance kernel, [render_splat.vs.hlsl] and
                     [render_splat.ps.hlsl];
    - [Ply]        : [import/splat_parsing.h], [import/ply/splat_ply_parsing]
                     and [import/ply/splat_ply_conversion.cpp];
    - [Conversion] : the value conversions of [import/splat_parsing.h] and
                     [convert_splat] of [import/ply/splat_ply_conversion.h];
    - [Logging]    : [import/splat_logging.cpp].

    Conventions.  A [uint] is a [Z] kept in [0, 2^32) by [u32]; shifts use the
    low five bits of the shift count, as HLSL does.  Shader [half]/[float]
    arithmetic is idealised as arithmetic on real numbers ([R]): rounding,
    infinities and NaN are outside that model.  HLSL intrinsics and the
    functions the shaders require from the host ([f16tof32], [world_to_clip],
    [get_render_resolution]) are parameters, collected in the record [host].
    A [size_t] is a [Z] kept in [0, 2^64).

    Two parts of the code are given twice.  [Ply] is the importer as the
    program starts, with no log receiver installed, where [log] returns at
    once; [PlyLogging] is the same code with every [log_error] and
    [log_warn] in its place and the state of [send_log] explicit.
    [Shaders.two_lmb] is the eigenvalue formula over the reals;
    [ShadersFloat32.two_lmb] is the same lines in IEEE 754 binary32. *)

From Stdlib Require Import ZArith List Lia Bool Reals Lra String Ascii.
From Stdlib Require Floats.SpecFloat.
From stdpp Require Import base option list gmap.

(* ===================================================================== *)
(** * Definitions *)
(* ===================================================================== *)

(** ** unpacking.hlsl, on bit patterns *)

Module Unpacking.
Local Open Scope Z_scope.

(** Reduction of an integer to a 32-bit [uint]. *)
Definition u32 (z : Z) : Z := z mod 2 ^ 32.

(** [a << b] and [a >> b] on [uint]: the count is taken modulo 32. *)
Definition shl (a b : Z) : Z := u32 (Z.shiftl a (b mod 32)).
Definition shr (a b : Z) : Z := Z.shiftr a (b mod 32).

(** [f16tof32] reads the float16 stored in the low half of its argument. *)
Definition half_pattern (v : Z) : Z := Z.land v 65535.

(** [uint shift = 15 - e - m;] *)
Definition f16_shift (e m : Z) : Z := u32 (15 - e - m).

(** [uint mask = ((1 << (s + e + m)) - 1) << shift;] *)
Definition f16_mask (s e m : Z) : Z :=
  shl (u32 (shl 1 (s + e + m) - 1)) (f16_shift e m).

(** The argument that [unpack_f16] hands to [f16tof32]. *)
Definition unpack_f16_bits (s e m packed offset : Z) : Z :=
  let shift := f16_shift e m in
  let mask := f16_mask s e m in
  if (s =? 1) && (offset =? 0) then shl packed shift
  else if offset <? shift then Z.land (shl packed (u32 (shift - offset))) mask
  else Z.land (shr packed (u32 (offset - shift))) mask.

(** The two extraction schemes that [unpack_f16] chooses between: the single
    shift that aligns the field with the half layout, and the same shift
    followed by the mask. *)
Definition extract_shift_only (e m packed offset : Z) : Z :=
  let shift := f16_shift e m in
  if offset <? shift then shl packed (u32 (shift - offset))
  else shr packed (u32 (offset - shift)).

Definition extract_masked (s e m packed offset : Z) : Z :=
  Z.land (extract_shift_only e m packed offset) (f16_mask s e m).

(** [unpack_unorm]: the integer that is converted to [half]. *)
Definition unpack_unorm_bits (bits packed offset : Z) : Z :=
  let Mask := u32 (shl 1 bits - 1) in
  if offset =? 0 then Z.land packed Mask
  else Z.land (shr packed offset) Mask.

(** A field layout of [unpack_f16]: at most one sign bit, fewer than fifteen
    exponent and mantissa bits, and a start bit inside the word. *)
Definition field_ok (s e m offset : Z) : Prop :=
  0 <= s <= 1 /\ 0 <= e /\ 0 <= m /\ e + m <= 14 /\ 0 <= offset <= 31.

(** Boolean check used to search the finite space of layouts: for the layout
    [(s, k, offset)] the word [w] separates the two schemes. *)
Definition separates (s k offset w : Z) : bool :=
  negb (half_pattern (extract_shift_only k 0 w offset)
        =? half_pattern (extract_masked s k 0 w offset)).

(** A word on which shift-only and masked extraction differ, for every layout
    other than "signed at offset 0". *)
Definition separating_word (s k offset : Z) : Z :=
  if offset =? 0 then 2 ^ k
  else if offset <? 15 - k then 1
  else 2 ^ (offset - (15 - k)).

Definition zrange (n : nat) : list Z := map Z.of_nat (seq 0 n).

Definition all_layouts_separated : bool :=
  forallb (fun s =>
    forallb (fun k =>
      forallb (fun offset =>
        ((s =? 1) && (offset =? 0))
        || (separates s k offset (separating_word s k offset)
            && (0 <=? separating_word s k offset)
            && (separating_word s k offset <? 2 ^ 32)))
      (zrange 32))
    (zrange 15))
  (zrange 2).

End Unpacking.

(** ** The shaders, on real numbers *)

Module Shaders.
Import Unpacking.
Local Open Scope R_scope.

(** *** Vectors and matrices *)

Record float2 := Float2 { f2x : R; f2y : R }.
Record float3 := Float3 { f3x : R; f3y : R; f3z : R }.
Record float4 := Float4 { f4x : R; f4y : R; f4z : R; f4w : R }.

(** Matrices are stored by rows: [m[i]] is row [i]. *)
Record float3x3 := Float3x3 { m3r0 : float3; m3r1 : float3; m3r2 : float3 }.
Record float4x4 :=
  Float4x4 { m4r0 : float4; m4r1 : float4; m4r2 : float4; m4r3 : float4 }.

Definition float4_zero : float4 := Float4 0 0 0 0.

Definition xyz (v : float4) : float3 := Float3 (f4x v) (f4y v) (f4z v).

(** [(half3x3)m]: the upper-left 3x3 block. *)
Definition to_float3x3 (m : float4x4) : float3x3 :=
  Float3x3 (xyz (m4r0 m)) (xyz (m4r1 m)) (xyz (m4r2 m)).

Definition dot2 (a b : float2) : R := f2x a * f2x b + f2y a * f2y b.
Definition dot3 (a b : float3) : R :=
  f3x a * f3x b + f3y a * f3y b + f3z a * f3z b.

(** [mul(v, m)] with a row vector on the left. *)
Definition mul_v3_m3 (v : float3) (m : float3x3) : float3 :=
  Float3
    (f3x v * f3x (m3r0 m) + f3y v * f3x (m3r1 m) + f3z v * f3x (m3r2 m))
    (f3x v * f3y (m3r0 m) + f3y v * f3y (m3r1 m) + f3z v * f3y (m3r2 m))
    (f3x v * f3z (m3r0 m) + f3y v * f3z (m3r1 m) + f3z v * f3z (m3r2 m)).

Definition mul_v4_m4 (v : float4) (m : float4x4) : float4 :=
  Float4
    (f4x v * f4x (m4r0 m) + f4y v * f4x (m4r1 m)
     + f4z v * f4x (m4r2 m) + f4w v * f4x (m4r3 m))
    (f4x v * f4y (m4r0 m) + f4y v * f4y (m4r1 m)
     + f4z v * f4y (m4r2 m) + f4w v * f4y (m4r3 m))
    (f4x v * f4z (m4r0 m) + f4y v * f4z (m4r1 m)
     + f4z v * f4z (m4r2 m) + f4w v * f4z (m4r3 m))
    (f4x v * f4w (m4r0 m) + f4y v * f4w (m4r1 m)
     + f4z v * f4w (m4r2 m) + f4w v * f4w (m4r3 m)).

(** [mul(half2x2(a, b, c, d), v)] with a column vector on the right. *)
Definition mul_m2_v2 (a b c d : R) (v : float2) : float2 :=
  Float2 (a * f2x v + b * f2y v) (c * f2x v + d * f2y v).

(** [normalize(v)] is [v / length(v)]. *)
Definition normalize2 (v : float2) : float2 :=
  Float2 (f2x v / sqrt (dot2 v v)) (f2y v / sqrt (dot2 v v)).

(** Comparisons as the booleans the shaders branch on. *)
Definition Rltb (a b : R) : bool := if Rlt_dec a b then true else false.
Definition Rgtb (a b : R) : bool := Rltb b a.

(** [saturate(x)] clamps to [0, 1]. *)
Definition saturate (x : R) : R := Rmin (Rmax x 0) 1.

(** [uint(x)]: truncation, clamped to the range of [uint]. *)
Definition ftou (x : R) : Z := Z.max 0 (Z.min 4294967295 (Int_part x)).

(** A read of a [Buffer]: elements past the end read as zero. *)
Definition load {A : Type} (zero : A) (buf : list A) (i : nat) : A :=
  default zero (buf !! i).

(** *** constants.hlsl *)

Definition RADIUS_SIGMA : R := sqrt 8.
Definition RADIUS_SIGMA_OVER_SQRT_2 : R := RADIUS_SIGMA / sqrt 2.
Definition CUTOFF_RADIUS_SIGMA_SQUARED_OVER_2 : R :=
  RADIUS_SIGMA_OVER_SQRT_2 * RADIUS_SIGMA_OVER_SQRT_2.

Definition DISTANCE_PRECISION : Z := 16.
Definition DISTANCE_SCALE : R := IZR (Z.shiftl 1 DISTANCE_PRECISION - 2).
Definition DISTANCE_NOT_VISIBLE : Z := (Z.shiftl 1 DISTANCE_PRECISION - 1)%Z.

(** *** What the host supplies *)

(** Intrinsics and required functions. [world_to_clip] receives the view
    index only when [WITH_VIEW_ID] is set; it is passed always here. *)
Record host := Host {
  f16tof32 : Z -> R;
  world_to_clip : float3 -> nat -> float4;
  get_render_resolution : float2
}.

(** Shader constants. *)
Record constants := Constants {
  local_to_world : float4x4;
  local_to_view : float4x4;
  local_to_clip : float4x4;
  two_focal_length : float2;
  num_splats : nat;
  pos_scale_cm : float3;
  pos_min_cm : float3
}.

(** *** unpacking.hlsl, on values *)

Definition unpack_f16 (h : host) (s e m packed offset : Z) : R :=
  f16tof32 h (unpack_f16_bits s e m packed offset).

Definition unpack_unorm (bits packed offset : Z) : R :=
  IZR (unpack_unorm_bits bits packed offset).

Definition unpack_cov_mat (h : host) (packedCovMat : Z * Z) : float3x3 :=
  let xx := unpack_f16 h 0 5 5 (snd packedCovMat) 22 in
  let xy := unpack_f16 h 1 5 5 (snd packedCovMat) 11 in
  let xz := unpack_f16 h 1 5 5 (snd packedCovMat) 0 in
  let yy := unpack_f16 h 0 5 5 (fst packedCovMat) 22 in
  let yz := unpack_f16 h 1 5 5 (fst packedCovMat) 11 in
  let zz := unpack_f16 h 0 5 6 (fst packedCovMat) 0 in
  Float3x3 (Float3 xx xy xz) (Float3 xy yy yz) (Float3 xz yz zz).

Definition unpack_pos (packed : Z) (scale offset : float3) : float4 :=
  let x := unpack_unorm 11 packed 0 in
  let y := unpack_unorm 11 packed 11 in
  let z := unpack_unorm 10 packed 22 in
  Float4 (x * f3x scale + f3x offset) (y * f3y scale + f3y offset)
         (z * f3z scale + f3z offset) 1.

(** *** The covariance-projection kernel *)

(** The three independent entries of the projected covariance,
    [(sig_p_00, sig_p_01_10, sig_p_11)]. *)
Definition sig_p (W : float3x3) (pos_view : float3) (sig : float3x3)
  : R * R * R :=
  let scale_x := - f3x pos_view / f3z pos_view in
  let scale_y := - f3y pos_view / f3z pos_view in
  let jw_0 := Float3 (f3x (m3r0 W) + scale_x * f3z (m3r0 W))
                     (f3x (m3r1 W) + scale_x * f3z (m3r1 W))
                     (f3x (m3r2 W) + scale_x * f3z (m3r2 W)) in
  let jw_1 := Float3 (f3y (m3r0 W) + scale_y * f3z (m3r0 W))
                     (f3y (m3r1 W) + scale_y * f3z (m3r1 W))
                     (f3y (m3r2 W) + scale_y * f3z (m3r2 W)) in
  let jw_sig_0 := mul_v3_m3 jw_0 sig in
  let jw_sig_1 := mul_v3_m3 jw_1 sig in
  (dot3 jw_sig_0 jw_0, dot3 jw_sig_0 jw_1, dot3 jw_sig_1 jw_1).

(** [two_lmb]: twice the eigenvalues of the projected covariance. *)
Definition two_lmb (sig_p_00 sig_p_01_10 sig_p_11 : R) : float2 :=
  let det := sig_p_00 * sig_p_11 - sig_p_01_10 * sig_p_01_10 in
  let trace := sig_p_00 + sig_p_11 in
  let sqrt_disc := sqrt (trace * trace - 4 * det) in
  Float2 (trace + sqrt_disc) (trace - sqrt_disc).

(** The value the kernel stores in [transforms[splat_id]]. *)
Definition projected_transform (h : host) (c : constants)
    (position : Z) (covariance : Z * Z) : float4 :=
  let pos_local := unpack_pos position (pos_scale_cm c) (pos_min_cm c) in
  let pos_view := xyz (mul_v4_m4 pos_local (local_to_view c)) in
  let sig := unpack_cov_mat h covariance in
  let W := to_float3x3 (local_to_view c) in
  let '(sig_p_00, sig_p_01_10, sig_p_11) := sig_p W pos_view sig in
  let two_lmb := two_lmb sig_p_00 sig_p_01_10 sig_p_11 in
  let sqrt_two_sigma := Float2 (sqrt (f2x two_lmb)) (sqrt (f2y two_lmb)) in
  let v_0 := normalize2 (Float2 sig_p_01_10 (f2x two_lmb / 2 - sig_p_00)) in
  let scale :=
    Float2 (f2x (two_focal_length c) / f3z pos_view * f2x sqrt_two_sigma)
           (f2y (two_focal_length c) / f3z pos_view * f2y sqrt_two_sigma) in
  Float4 (f2x v_0 * f2x scale) (- f2y v_0 * f2y scale)
         (f2y v_0 * f2x scale) (f2x v_0 * f2y scale).

(** One invocation of the covariance kernel: the new [transforms]. *)
Definition covariance_main (h : host) (c : constants)
    (positions : list Z) (covariances : list (Z * Z))
    (transforms : list float4) (dispatch_thread_id : nat) : list float4 :=
  let splat_id := dispatch_thread_id in
  if (num_splats c <=? splat_id)%nat then transforms
  else
    <[splat_id :=
        projected_transform h c (load 0%Z positions splat_id)
                            (load (0%Z, 0%Z) covariances splat_id)]>
      transforms.

(** *** The distance kernel *)

Record sort_buffers := SortBuffers { indices : list Z; distances : list Z }.

(** The shared frustum test, as the disjunction both stages spell out. *)
Definition outside_frustum (pos_clip : float4) : bool :=
  Rltb (f4x pos_clip) (- f4w pos_clip) || Rgtb (f4x pos_clip) (f4w pos_clip)
  || Rltb (f4y pos_clip) (- f4w pos_clip) || Rgtb (f4y pos_clip) (f4w pos_clip)
  || Rgtb (f4z pos_clip) (f4w pos_clip).

Definition distance_pos_clip (c : constants) (position : Z) : float4 :=
  let pos_local := unpack_pos position (pos_scale_cm c) (pos_min_cm c) in
  mul_v4_m4 pos_local (local_to_clip c).

(** The sort key computed from a clip-space position. *)
Definition distance_of (pos_clip : float4) : Z :=
  let inside_frustum := negb (outside_frustum pos_clip) in
  if inside_frustum
  then ftou (saturate (f4z pos_clip / f4w pos_clip) * DISTANCE_SCALE)
  else DISTANCE_NOT_VISIBLE.

(** One invocation of the distance kernel: the new [indices]/[distances]. *)
Definition distance_main (c : constants) (positions : list Z)
    (b : sort_buffers) (dispatch_thread_id : nat) : sort_buffers :=
  if (num_splats c <=? dispatch_thread_id)%nat then b
  else
    let pos_clip :=
      distance_pos_clip c (load 0%Z positions dispatch_thread_id) in
    let index := Z.of_nat dispatch_thread_id in
    let distance := distance_of pos_clip in
    SortBuffers (<[dispatch_thread_id := index]> (indices b))
                (<[dispatch_thread_id := distance]> (distances b)).

(** *** render_splat.vs.hlsl *)

(** The [out] parameters. The early return assigns [out_position] only, so
    the other two are optional. *)
Record vs_output := VsOutput {
  out_sig_div_sqrt_2 : option float2;
  out_color : option float4;
  out_position : float4
}.

Definition corners : list float2 :=
  [ Float2 (- RADIUS_SIGMA_OVER_SQRT_2) (- RADIUS_SIGMA_OVER_SQRT_2);
    Float2 RADIUS_SIGMA_OVER_SQRT_2 (- RADIUS_SIGMA_OVER_SQRT_2);
    Float2 (- RADIUS_SIGMA_OVER_SQRT_2) RADIUS_SIGMA_OVER_SQRT_2;
    Float2 RADIUS_SIGMA_OVER_SQRT_2 (- RADIUS_SIGMA_OVER_SQRT_2);
    Float2 (- RADIUS_SIGMA_OVER_SQRT_2) RADIUS_SIGMA_OVER_SQRT_2;
    Float2 RADIUS_SIGMA_OVER_SQRT_2 RADIUS_SIGMA_OVER_SQRT_2 ].

Definition vs_pos_clip (h : host) (c : constants) (position : Z)
    (in_view_id : nat) : float4 :=
  let pos_local := xyz (unpack_pos position (pos_scale_cm c) (pos_min_cm c)) in
  let pos_world := mul_v3_m3 pos_local (to_float3x3 (local_to_world c)) in
  world_to_clip h pos_world in_view_id.

(** The output of the early return. *)
Definition vs_culled : vs_output := VsOutput None None float4_zero.

Definition vs_main (h : host) (c : constants)
    (indices : list Z) (positions : list Z)
    (transforms colors : list float4) (in_id in_view_id : nat) : vs_output :=
  let splat_id := Z.to_nat (load 0%Z indices (in_id / 6)) in
  let pos_clip := vs_pos_clip h c (load 0%Z positions splat_id) in_view_id in
  if outside_frustum pos_clip then vs_culled
  else
    let t := load float4_zero transforms splat_id in
    let corner := load (Float2 0 0) corners (in_id mod 6) in
    let offset := mul_m2_v2 (f4x t) (f4y t) (f4z t) (f4w t) corner in
    let offset := Float2 (f2x offset / f2x (get_render_resolution h))
                         (f2y offset / f2y (get_render_resolution h)) in
    VsOutput (Some corner) (Some (load float4_zero colors splat_id))
             (Float4 (f4x pos_clip + f2x offset * f4w pos_clip)
                     (f4y pos_clip + f2y offset * f4w pos_clip)
                     (f4z pos_clip) (f4w pos_clip)).

(** The out-of-frustum condition in the specification's words:
    |x| > |w|, or |y| > |w|, or z > w. *)
Definition clip_outside (pos_clip : float4) : Prop :=
  Rabs (f4x pos_clip) > Rabs (f4w pos_clip)
  \/ Rabs (f4y pos_clip) > Rabs (f4w pos_clip)
  \/ f4z pos_clip > f4w pos_clip.

(** The host's transforms agree when [local_to_clip] is the composite of
    the linear part of [local_to_world] and [world_to_clip]. *)
Definition clip_transforms_agree (h : host) (c : constants)
    (in_view_id : nat) : Prop :=
  forall p : float3,
    world_to_clip h (mul_v3_m3 p (to_float3x3 (local_to_world c))) in_view_id
    = mul_v4_m4 (Float4 (f3x p) (f3y p) (f3z p) 1) (local_to_clip c).

(** *** render_splat.ps.hlsl *)

Definition alpha_gaussian (sig_sq_div_2 base_alpha : R) : R :=
  if Rltb sig_sq_div_2 CUTOFF_RADIUS_SIGMA_SQUARED_OVER_2
  then base_alpha / exp sig_sq_div_2
  else 0.

Definition ps_main (sig_div_sqrt_2 : float2) (in_color : float4) : float4 :=
  let sig_sq_div_2 := dot2 sig_div_sqrt_2 sig_div_sqrt_2 in
  Float4 (f4x in_color) (f4y in_color) (f4z in_color)
         (alpha_gaussian sig_sq_div_2 (f4w in_color)).

(** *** A small scene for concrete evaluation *)

Definition identity4x4 : float4x4 :=
  Float4x4 (Float4 1 0 0 0) (Float4 0 1 0 0) (Float4 0 0 1 0) (Float4 0 0 0 1).

(** Identity transforms, unit scale, one splat. *)
Definition example_constants : constants :=
  Constants identity4x4 identity4x4 identity4x4 (Float2 1 1) 1
            (Float3 1 1 1) (Float3 0 0 0).

Definition example_host : host :=
  Host (fun bits => IZR bits)
       (fun p _ => Float4 (f3x p) (f3y p) (f3z p) 1)
       (Float2 1 1).

(** Packed positions: x-field 2 (outside the frustum), and z-field 1 (on the
    far plane, inside). *)
Definition packed_x2 : Z := 2.
Definition packed_z1 : Z := 4194304.

End Shaders.

(** ** The PLY importer *)

(** The [enum class]es of [import/splat_parsing.h] and
    [import/ply/splat_ply_parsing.h], one module each so that the
    enumerators keep their names. *)

Module Property.
Inductive t :=
  Ignore | X | Y | Z
| RotationX | RotationY | RotationZ | RotationW
| ScaleX | ScaleY | ScaleZ
| DCRed | DCGreen | DCBlue
| Opacity.
End Property.

Module PropertyFormat.
Inductive t := Unknown | I8 | I16 | I32 | U8 | U16 | U32 | F32 | F64.
End PropertyFormat.

Module PlyFormat.
Inductive t := Invalid | ASCII | BinaryBigEndian | BinaryLittleEndian.
End PlyFormat.

#[global] Instance Property_eq_dec : EqDecision Property.t.
Proof. solve_decision. Defined.

#[global] Instance PropertyFormat_eq_dec : EqDecision PropertyFormat.t.
Proof. solve_decision. Defined.

Definition Property_to_nat (p : Property.t) : nat :=
  match p with
  | Property.Ignore => 0 | Property.X => 1 | Property.Y => 2
  | Property.Z => 3 | Property.RotationX => 4 | Property.RotationY => 5
  | Property.RotationZ => 6 | Property.RotationW => 7
  | Property.ScaleX => 8 | Property.ScaleY => 9 | Property.ScaleZ => 10
  | Property.DCRed => 11 | Property.DCGreen => 12 | Property.DCBlue => 13
  | Property.Opacity => 14
  end.

Definition Property_of_nat (n : nat) : Property.t :=
  match n with
  | 0 => Property.Ignore | 1 => Property.X | 2 => Property.Y
  | 3 => Property.Z | 4 => Property.RotationX | 5 => Property.RotationY
  | 6 => Property.RotationZ | 7 => Property.RotationW
  | 8 => Property.ScaleX | 9 => Property.ScaleY | 10 => Property.ScaleZ
  | 11 => Property.DCRed | 12 => Property.DCGreen | 13 => Property.DCBlue
  | _ => Property.Opacity
  end%nat.

#[global] Instance Property_countable : Countable Property.t.
Proof.
  refine (inj_countable' Property_to_nat Property_of_nat _).
  intros []; reflexivity.
Defined.

Module Ply.
Local Open Scope Z_scope.
Local Open Scope string_scope.

(** *** Outcomes *)

(** A call either returns, or leaves defined behaviour: a precondition of the
    standard library is violated, [at] throws [std::out_of_range], or the
    model's fuel for the header loop is spent. *)
Inductive abnormal := UndefinedBehaviour | OutOfRange | NoFuel.

Inductive outcome (A : Type) : Type :=
| Ok (a : A)
| Abort (why : abnormal).
Arguments Ok {A} a.
Arguments Abort {A} why.

#[global] Instance outcome_ret : MRet outcome := fun A a => Ok a.
#[global] Instance outcome_bind : MBind outcome :=
  fun A B f m => match m with Ok a => f a | Abort why => Abort why end.

(** *** [std::string_view] *)

(** A view is the string of the characters it covers; a [std::span] of
    bytes is the string of its bytes. *)

Fixpoint find_if (P : ascii -> bool) (s : string) : option nat :=
  match s with
  | EmptyString => None
  | String c s' => if P c then Some O else option_map S (find_if P s')
  end.

Fixpoint find_last_if (P : ascii -> bool) (s : string) : option nat :=
  match s with
  | EmptyString => None
  | String c s' =>
      match find_last_if P s' with
      | Some i => Some (S i)
      | None => if P c then Some O else None
      end
  end.

Fixpoint remove_prefix (n : nat) (s : string) : string :=
  match n, s with
  | O, _ => s
  | S n', String _ s' => remove_prefix n' s'
  | S _, EmptyString => EmptyString
  end.

(** The view of the first [n] characters. *)
Fixpoint substr_to (n : nat) (s : string) : string :=
  match n, s with
  | S n', String c s' => String c (substr_to n' s')
  | _, _ => EmptyString
  end.

Fixpoint contains_char (c : ascii) (chars : string) : bool :=
  match chars with
  | EmptyString => false
  | String c' chars' => Ascii.eqb c c' || contains_char c chars'
  end.

Definition find (c : ascii) : string -> option nat := find_if (Ascii.eqb c).

Definition find_first_of (chars : string) : string -> option nat :=
  find_if (fun c => contains_char c chars).

Definition find_first_not_of (chars : string) : string -> option nat :=
  find_if (fun c => negb (contains_char c chars)).

(** [find_first_not_of(chars, pos)] for [pos] within the view. *)
Definition find_first_not_of_from (chars : string) (pos : nat) (s : string)
  : option nat :=
  option_map (Nat.add pos) (find_first_not_of chars (remove_prefix pos s)).

Definition find_last_not_of (chars : string) : string -> option nat :=
  find_last_if (fun c => negb (contains_char c chars)).

(** *** The tables *)

Fixpoint table_lookup {A : Type} (key : string) (table : list (string * A))
  : option A :=
  match table with
  | [] => None
  | (k, v) :: table' =>
      if String.eqb key k then Some v else table_lookup key table'
  end.

Definition format_map : list (string * PlyFormat.t) :=
  [ ("ascii", PlyFormat.ASCII);
    ("binary_big_endian", PlyFormat.BinaryBigEndian);
    ("binary_little_endian", PlyFormat.BinaryLittleEndian) ].

Definition property_map : list (string * Property.t) :=
  [ ("x", Property.X); ("y", Property.Y); ("z", Property.Z);
    ("f_dc_0", Property.DCRed); ("f_dc_1", Property.DCGreen);
    ("f_dc_2", Property.DCBlue); ("opacity", Property.Opacity);
    ("rot_0", Property.RotationW); ("rot_1", Property.RotationX);
    ("rot_2", Property.RotationY); ("rot_3", Property.RotationZ);
    ("scale_0", Property.ScaleX); ("scale_1", Property.ScaleY);
    ("scale_2", Property.ScaleZ) ].

Definition type_map : list (string * PropertyFormat.t) :=
  [ ("float", PropertyFormat.F32); ("float32", PropertyFormat.F32) ].

Definition type_size_map (t : PropertyFormat.t) : option Z :=
  match t with
  | PropertyFormat.F32 => Some 4
  | _ => None
  end.

Definition newline : ascii := "010".
Definition whitespace_chars : string := String " " (String "009" EmptyString).

(** *** Data *)

Record PropertyDesc := mkPropertyDesc {
  offset : Z;
  type : PropertyFormat.t
}.

Record Metadata := mkMetadata {
  properties : gmap Property.t PropertyFormat.t;
  md_num_splats : Z
}.

(** The members of [SplatParserPly]. *)
Record SplatParserPly := mkSplatParserPly {
  format : PlyFormat.t;
  layout : gmap Property.t PropertyDesc;
  num_splats : Z;
  splat_size : Z;
  buffer : string
}.

(** A freshly constructed parser. *)
Definition new_parser : SplatParserPly :=
  mkSplatParserPly PlyFormat.Invalid ∅ 0 0 EmptyString.

Definition set_format (f : PlyFormat.t) (p : SplatParserPly) :=
  mkSplatParserPly f (layout p) (num_splats p) (splat_size p) (buffer p).
Definition set_layout (l : gmap Property.t PropertyDesc) (p : SplatParserPly) :=
  mkSplatParserPly (format p) l (num_splats p) (splat_size p) (buffer p).
Definition set_num_splats (n : Z) (p : SplatParserPly) :=
  mkSplatParserPly (format p) (layout p) n (splat_size p) (buffer p).
Definition set_splat_size (n : Z) (p : SplatParserPly) :=
  mkSplatParserPly (format p) (layout p) (num_splats p) n (buffer p).
Definition set_buffer (b : string) (p : SplatParserPly) :=
  mkSplatParserPly (format p) (layout p) (num_splats p) (splat_size p) b.

(** Reduction to a 64-bit [size_t]. *)
Definition size_t (z : Z) : Z := z mod 2 ^ 64.

(** *** Lines and tokens *)

(** The trimming [pop_line] applies to the text before the line feed.
    [None] when the text holds no token. *)
Definition trim_line (line_out : string) : option string :=
  match find_first_not_of whitespace_chars line_out with
  | None => None
  | Some start_idx =>
      let line_out := remove_prefix start_idx line_out in
      match find_last_not_of whitespace_chars line_out with
      | Some end_idx => Some (substr_to (S end_idx) line_out)
      | None => Some EmptyString
      end
  end.

(** [pop_line]: the returned optional and the new value of [text].
    Moving from a [std::string_view] copies it, so without a line feed the
    whole text is returned and [text] stays as it is. *)
Definition pop_line (text : string) : option string * string :=
  match find newline text with
  | None => (Some text, text)
  | Some eol_idx =>
      match trim_line (substr_to eol_idx text) with
      | None => (None, text)
      | Some line_out => (Some line_out, remove_prefix (S eol_idx) text)
      end
  end.

(** [pop_token]: the returned optional and the new value of [line].
    When only whitespace follows the token, [remove_prefix] is called with
    [npos], beyond the size of the view. *)
Definition pop_token (line : string) : outcome (option string * string) :=
  match find_first_not_of whitespace_chars line with
  | Some O =>
      match find_first_of whitespace_chars line with
      | None => Ok (Some line, line)
      | Some whitespace_idx =>
          let token := substr_to whitespace_idx line in
          match find_first_not_of_from whitespace_chars whitespace_idx line with
          | Some next_token_idx =>
              Ok (Some token, remove_prefix next_token_idx line)
          | None => Abort UndefinedBehaviour
          end
      end
  | _ => Ok (None, line)
  end.

(** [std::from_chars] into a [size_t]: the value of the leading decimal
    digits; [None] when there is none or the value does not fit. *)
Definition digit_value (c : ascii) : option Z :=
  let n := Z.of_nat (nat_of_ascii c) in
  if (48 <=? n)%Z && (n <=? 57)%Z then Some (n - 48) else None.

Fixpoint leading_digits (s : string) (acc : option Z) : option Z :=
  match s with
  | EmptyString => acc
  | String c s' =>
      match digit_value c with
      | Some d => leading_digits s' (Some (10 * default 0 acc + d))
      | None => acc
      end
  end.

Definition from_chars (token : string) : option Z :=
  match leading_digits token None with
  | Some v => if (v <? 2 ^ 64)%Z then Some v else None
  | None => None
  end.

(** *** [SplatParserPly::add_property] *)

Definition add_property (p : SplatParserPly) (property : Property.t)
    (type : PropertyFormat.t) : outcome (bool * SplatParserPly) :=
  let registered :=
    match property with
    | Property.Ignore => Some p
    | _ =>
        match layout p !! property with
        | Some _ => None
        | None =>
            Some (set_layout
                    (<[property := mkPropertyDesc (splat_size p) type]>
                       (layout p)) p)
        end
    end in
  match registered with
  | None => Ok (false, p)
  | Some p =>
      match type_size_map type with
      | Some size => Ok (true, set_splat_size (size_t (splat_size p + size)) p)
      | None => Abort OutOfRange
      end
  end.

(** *** [SplatParserPly::parse_header] *)

(** One turn of the [while (true)] loop either goes round again, with the
    parser and the text as they then are, or returns. *)
Inductive step :=
| Continue (p : SplatParserPly) (text : string)
| Return (ok : bool) (p : SplatParserPly).

Definition element_line (p : SplatParserPly) (line text : string)
  : outcome step :=
  if negb (num_splats p =? 0)%Z then Ok (Return false p)
  else
    '(token, line) ← pop_token line;
    match token with
    | None => Ok (Return false p)
    | Some token =>
        if negb (String.eqb token "vertex") then Ok (Return false p)
        else
          '(token, line) ← pop_token line;
          match token with
          | None => Ok (Return false p)
          | Some token =>
              match from_chars token with
              | None => Ok (Return false p)
              | Some count =>
                  let p := set_num_splats count p in
                  if (count =? 0)%Z then Ok (Return false p)
                  else Ok (Continue p text)
              end
          end
    end.

Definition property_line (p : SplatParserPly) (line text : string)
  : outcome step :=
  if (num_splats p =? 0)%Z then Ok (Return false p)
  else
    '(token, line) ← pop_token line;
    match token with
    | None => Ok (Return false p)
    | Some token =>
        match table_lookup token type_map with
        | None => Ok (Return false p)
        | Some type =>
            '(token, line) ← pop_token line;
            match token with
            | None => Ok (Return false p)
            | Some token =>
                match table_lookup token property_map with
                | Some prop =>
                    '(added, p) ← add_property p prop type;
                    if (added : bool) then Ok (Continue p text)
                    else Ok (Return false p)
                | None =>
                    '(_, p) ← add_property p Property.Ignore type;
                    Ok (Continue p text)
                end
            end
        end
    end.

Definition header_step (p : SplatParserPly) (text : string) : outcome step :=
  match pop_line text with
  | (None, _) => Ok (Return false p)
  | (Some line, text) =>
      '(token, line) ← pop_token line;
      match token with
      | None => Ok (Return false p)
      | Some token =>
          if String.eqb token "comment" then Ok (Continue p text)
          else if String.eqb token "element" then element_line p line text
          else if String.eqb token "property" then property_line p line text
          else if String.eqb token "end_header" then
            let offset := (String.length (buffer p) - String.length text)%nat in
            Ok (Return true (set_buffer (remove_prefix offset (buffer p)) p))
          else Ok (Return false p)
      end
  end.

Fixpoint header_loop (fuel : nat) (p : SplatParserPly) (text : string)
  : outcome (bool * SplatParserPly) :=
  match fuel with
  | O => Abort NoFuel
  | S fuel' =>
      r ← header_step p text;
      match r with
      | Continue p text => header_loop fuel' p text
      | Return ok p => Ok (ok, p)
      end
  end.

Definition parse_header (fuel : nat) (p : SplatParserPly)
  : outcome (bool * SplatParserPly) :=
  let text := buffer p in
  match pop_line text with
  | (None, _) => Ok (false, p)
  | (Some line, text) =>
      if negb (String.eqb line "ply") then Ok (false, p)
      else
        match pop_line text with
        | (None, _) => Ok (false, p)
        | (Some line, text) =>
            '(token, line) ← pop_token line;
            match token with
            | None => Ok (false, p)
            | Some token =>
                if negb (String.eqb token "format") then Ok (false, p)
                else
                  '(format_token, line) ← pop_token line;
                  match format_token with
                  | None => Ok (false, p)
                  | Some format_token =>
                      match table_lookup format_token format_map with
                      | None => Ok (false, p)
                      | Some f =>
                          let p := set_format f p in
                          '(token, line) ← pop_token line;
                          match token with
                          | None => Ok (false, p)
                          | Some _ => header_loop fuel p text
                          end
                      end
                  end
            end
        end
  end.

(** *** [SplatParserPly::parse_metadata] *)

(** [unordered_map::emplace] keeps an entry that is already there. *)
Definition emplace {V : Type} (k : Property.t) (v : V)
    (m : gmap Property.t V) : gmap Property.t V :=
  match m !! k with
  | Some _ => m
  | None => <[k := v]> m
  end.

Definition write_metadata (p : SplatParserPly) (metadata : Metadata)
  : Metadata :=
  mkMetadata
    (map_fold (fun property desc props => emplace property (type desc) props)
              (properties metadata) (layout p))
    (num_splats p).

(** The result, the parser afterwards, and the caller's [metadata]
    afterwards. *)
Definition parse_metadata (fuel : nat) (p : SplatParserPly)
    (ply_buffer : string) (metadata : Metadata)
  : outcome (bool * SplatParserPly * Metadata) :=
  let p := set_buffer ply_buffer p in
  '(ok, p) ← parse_header fuel p;
  if negb (ok : bool) then Ok (false, p, metadata)
  else
    let sz_rem := Z.of_nat (String.length (buffer p)) in
    let sz_exp := size_t (num_splats p * splat_size p) in
    if negb (sz_rem =? sz_exp)%Z then Ok (false, p, metadata)
    else Ok (true, p, write_metadata p metadata).

(** *** [SplatParserPly::parse_data] *)

(** [PropertyType]; a [float] or [double] is carried as its bit pattern. *)
Inductive PropertyType :=
| Int8 (v : Z) | Int16 (v : Z) | Int32 (v : Z)
| UInt8 (v : Z) | UInt16 (v : Z) | UInt32 (v : Z)
| Float (bits : Z) | Double (bits : Z).

Inductive endian := big | little.

Definition byte_at (data : string) (i : nat) : option Z :=
  match String.get i data with
  | Some c => Some (Z.of_nat (nat_of_ascii c))
  | None => None
  end.

(** [convert<float, E>]: the four bytes at [data], read in byte order [E].
    Reading past the end of the buffer is undefined. *)
Definition convert_float (E : endian) (data : string) : outcome Z :=
  match byte_at data 0, byte_at data 1, byte_at data 2, byte_at data 3 with
  | Some b0, Some b1, Some b2, Some b3 =>
      match E with
      | little => Ok (b0 + 256 * b1 + 65536 * b2 + 16777216 * b3)
      | big => Ok (b3 + 256 * b2 + 65536 * b1 + 16777216 * b0)
      end
  | _, _, _, _ => Abort UndefinedBehaviour
  end.

Definition read_binary (E : endian) (data : string) (type : PropertyFormat.t)
  : outcome PropertyType :=
  match type with
  | PropertyFormat.F32 => bits ← convert_float E data; Ok (Float bits)
  | _ => Ok (Float 0)
  end.

Definition get_property_binary (E : endian) (property : Property.t)
    (layout : gmap Property.t PropertyDesc) (data : string)
  : outcome PropertyType :=
  match layout !! property with
  | None => Abort OutOfRange
  | Some desc => read_binary E (remove_prefix (Z.to_nat (offset desc)) data)
                             (type desc)
  end.

Definition GetPropertyFn : Type := Property.t -> outcome PropertyType.

(** The splats are handed to [parse_splat] in order; [A] is whatever the
    caller's callback writes to. *)
Definition parse_splats {A : Type} (E : endian) (p : SplatParserPly)
    (parse_splat : nat -> GetPropertyFn -> A -> A) (a : A) : A :=
  fold_left
    (fun a i =>
       let splat :=
         remove_prefix (i * Z.to_nat (splat_size p)) (buffer p) in
       parse_splat i
         (fun property => get_property_binary E property (layout p) splat) a)
    (seq 0 (Z.to_nat (num_splats p))) a.

Definition parse_data {A : Type} (p : SplatParserPly)
    (parse_splat : nat -> GetPropertyFn -> A -> A) (a : A) : bool * A :=
  match format p with
  | PlyFormat.ASCII => (false, a)
  | PlyFormat.BinaryBigEndian => (true, parse_splats big p parse_splat a)
  | PlyFormat.BinaryLittleEndian => (true, parse_splats little p parse_splat a)
  | PlyFormat.Invalid => (false, a)
  end.

(** *** [validate_metadata] *)

Definition required_properties : list Property.t :=
  [ Property.X; Property.Y; Property.Z;
    Property.RotationX; Property.RotationY; Property.RotationZ;
    Property.RotationW; Property.ScaleX; Property.ScaleY;
    Property.ScaleZ; Property.DCRed; Property.DCGreen;
    Property.DCBlue; Property.Opacity ].

Fixpoint all_present (required : list Property.t) (metadata : Metadata)
  : bool :=
  match required with
  | [] => true
  | property :: rest =>
      match properties metadata !! property with
      | None => false
      | Some _ => all_present rest metadata
      end
  end.

Definition validate_metadata (metadata : Metadata) : bool :=
  all_present required_properties metadata.

(** *** Headers, line by line *)

Definition nl : string := String newline EmptyString.

(** The text made of the given lines, each followed by a line feed. *)
Fixpoint terminated (lines : list string) : string :=
  match lines with
  | [] => EmptyString
  | l :: lines' => l ++ nl ++ terminated lines'
  end.

Definition no_newline (l : string) : Prop := find newline l = None.

(** The first token of a line of the header, as the parser sees it. *)
Definition first_token (l : string) : option string :=
  match trim_line l with
  | Some line =>
      match pop_token line with
      | Ok (Some token, _) => Some token
      | _ => None
      end
  | None => None
  end.

(** A line [property <type> ...] whose type is neither [float] nor
    [float32]. *)
Definition property_line_of_other_type (l : string) : bool :=
  match trim_line l with
  | Some line =>
      match pop_token line with
      | Ok (Some token, line) =>
          String.eqb token "property"
          && match pop_token line with
             | Ok (Some type, _) =>
                 match table_lookup type type_map with
                 | None => true
                 | Some _ => false
                 end
             | _ => false
             end
      | _ => false
      end
  | None => false
  end.

(** The last character of a view satisfies [P]. *)
Fixpoint ends_with (P : ascii -> bool) (s : string) : bool :=
  match s with
  | EmptyString => false
  | String c EmptyString => P c
  | String _ s' => ends_with P s'
  end.

Definition not_whitespace (c : ascii) : bool :=
  negb (contains_char c whitespace_chars).

(** A view that starts and ends with a character other than whitespace:
    what [pop_line] returns for a line closed by a line feed. *)
Definition trimmed (s : string) : Prop :=
  find_first_not_of whitespace_chars s = Some O
  /\ ends_with not_whitespace s = true.

(** What a turn of the loop may do with a line closed by a line feed, other
    than returning [true]: go on with the text after the line, or return
    [false]. *)
Definition goes_on_or_fails (rest : string) (r : outcome step) : Prop :=
  match r with
  | Ok (Continue _ text) => text = rest
  | Ok (Return false _) => True
  | _ => False
  end.

(** *** Example files *)

Definition example_header_lines : list string :=
  [ "ply"; "format binary_little_endian 1.0"; "element vertex 1";
    "property float x" ].

(** A header declaring 2^62 records of one [float] each, and no data. *)
Definition overflowing_file : string :=
  terminated
    [ "ply"; "format binary_little_endian 1.0";
      "element vertex 4611686018427387904"; "property float x";
      "end_header" ].

Definition empty_metadata : Metadata := mkMetadata ∅ 0.

(** A well-formed file: one record holding the [float] with bytes "abcd". *)
Definition example_file : string :=
  terminated (example_header_lines ++ ["end_header"]) ++ "abcd".

(** Metadata declaring every property the importer handles, as [float]. *)
Definition full_metadata : Metadata :=
  mkMetadata
    (list_to_map
       (map (fun property => (property, PropertyFormat.F32))
            required_properties))
    1.

End Ply.

(** ** Notions used to state the properties of the kernels *)

Module ShaderNotions.
Import Unpacking Shaders.
Local Open Scope R_scope.

(** The sort key that the distance kernel computes for the splat [i]. *)
Definition distance_slot (c : constants) (positions : list Z) (i : nat) : Z :=
  distance_of (distance_pos_clip c (load 0%Z positions i)).

(** The transform that the covariance kernel computes for the splat [i]. *)
Definition transform_slot (h : host) (c : constants) (positions : list Z)
    (covariances : list (Z * Z)) (i : nat) : float4 :=
  projected_transform h c (load 0%Z positions i)
                      (load (0%Z, 0%Z) covariances i).

(** [f16tof32] depends on the low 16 bits of its argument alone. *)
Definition reads_low_half (h : host) : Prop :=
  forall v : Z, f16tof32 h v = f16tof32 h (half_pattern v).

(** A host whose [f16tof32] returns the low half of its argument as a
    number. *)
Definition low_half_host : host :=
  Host (fun bits => IZR (half_pattern bits))
       (fun p _ => Float4 (f3x p) (f3y p) (f3z p) 1)
       (Float2 1 1).

End ShaderNotions.

(** ** Notions used to state the properties of the importer *)

Module PlyNotions.
Import Ply.
Local Open Scope Z_scope.
Local Open Scope string_scope.

(** The parser that a turn of the header loop leaves behind. *)
Definition step_parser (r : step) : SplatParserPly :=
  match r with Continue p _ => p | Return _ p => p end.

(** Every property of the layout is one the importer handles, stored as a
    [float]. *)
Definition layout_ok (p : SplatParserPly) : Prop :=
  forall k d, layout p !! k = Some d ->
    k <> Property.Ignore /\ type d = PropertyFormat.F32.

(** The state that the header loop maintains: properties are declared only
    after a non-zero splat count, which fits in a [size_t]. *)
Definition parser_ok (p : SplatParserPly) : Prop :=
  layout_ok p
  /\ (layout p = ∅ \/ num_splats p <> 0%Z)
  /\ (0 <= num_splats p < 2 ^ 64)%Z.

(** [text] is what is left of [whole] after a prefix. *)
Definition suffix_of (text whole : string) : Prop :=
  exists pre, whole = pre ++ text.

Definition is_whitespace (c : ascii) : bool :=
  contains_char c whitespace_chars.

(** Every character of [s] is whitespace; none is. *)
Definition all_whitespace (s : string) : Prop :=
  find_first_not_of whitespace_chars s = None.
Definition no_whitespace (s : string) : Prop :=
  find_first_of whitespace_chars s = None.


(** The value of a byte of the data. *)
Definition byte_value (c : ascii) : Z := Z.of_nat (nat_of_ascii c).

(** A header declaring every property the importer handles, for one splat,
    followed by the 56 bytes of its record. *)
Definition complete_header_lines : list string :=
  [ "ply"; "format binary_little_endian 1.0"; "comment exported";
    "element vertex 1";
    "property float x"; "property float y"; "property float z";
    "property float rot_0"; "property float rot_1";
    "property float rot_2"; "property float rot_3";
    "property float scale_0"; "property float scale_1";
    "property float scale_2";
    "property float f_dc_0"; "property float f_dc_1";
    "property float f_dc_2"; "property float opacity" ].

Definition complete_data : string :=
  "abcdefghijklmnopqrstuvwxyzABCDEFGHIJKLMNOPQRSTUVWXYZ0123".

Definition complete_file : string :=
  terminated (complete_header_lines ++ ["end_header"]) ++ complete_data.

End PlyNotions.

(** ** Conversion of a record to a splat *)

(** [import/splat_parsing.h] ([to], [to_color_linear], [to_alpha_linear],
    [to_scale_linear]) and [convert_splat] of
    [import/ply/splat_ply_conversion.h].  The template parameters [F3], [F4]
    and [RGBA] are type parameters with their constructors; a [std::span] is
    a list, and writing past its end is undefined.  The calls of [get] are
    taken in the order written.  When the conversion fails part of the splat
    may already be stored; the model keeps no arrays for that case. *)

Module Conversion.
Import Ply.
Local Open Scope R_scope.

(** What the C++ runtime supplies: the value of a [float] or [double] bit
    pattern, and [std::pow], which has no value (a NaN) where the power is
    not defined.  As in the shaders, finite floats are real numbers. *)
Record runtime := Runtime {
  float_of_bits : Z -> R;
  double_of_bits : Z -> R;
  pow : R -> R -> option R
}.

(** [to<float>]: the stored alternative, converted to [float]. *)
Definition to_float (rt : runtime) (value : PropertyType) : R :=
  match value with
  | Int8 v | Int16 v | Int32 v | UInt8 v | UInt16 v | UInt32 v => IZR v
  | Float bits => float_of_bits rt bits
  | Double bits => double_of_bits rt bits
  end.

(** [std::clamp(v, lo, hi)]. *)
Definition clamp (v lo hi : R) : R :=
  if Rlt_dec v lo then lo else if Rlt_dec hi v then hi else v.

(** [static_cast<uint8_t>] of a value already clamped to [0, 255]:
    truncation. *)
Definition to_uint8 (x : R) : Z := Int_part x.

(** A NaN passes through [std::clamp] and its cast to [uint8_t] is
    undefined. *)
Definition to_color_linear (rt : runtime) (dc : PropertyType) : outcome Z :=
  let dc_f := to_float rt dc in
  let color_srgb := 5 / 10 + 2820948 / 10000000 * dc_f in
  match pow rt color_srgb (22 / 10) with
  | Some color_linear => Ok (to_uint8 (clamp (color_linear * 255) 0 255))
  | None => Abort UndefinedBehaviour
  end.

Definition to_alpha_linear (rt : runtime) (opacity : PropertyType) : Z :=
  let opacity_f := to_float rt opacity in
  to_uint8 (clamp (1 / (1 + exp (- opacity_f)) * 255) 0 255).

Definition to_scale_linear (rt : runtime) (scale : PropertyType) : R :=
  exp (to_float rt scale).

(** [span[index] = value]; an index past the end is undefined. *)
Definition store {A : Type} (span : list A) (index : nat) (value : A)
  : outcome (list A) :=
  if (index <? length span)%nat then Ok (<[index := value]> span)
  else Abort UndefinedBehaviour.

Definition convert_splat {F3 F4 RGBA : Type} (rt : runtime)
    (mkF3 : R -> R -> R -> F3) (mkF4 : R -> R -> R -> R -> F4)
    (mkRGBA : Z -> Z -> Z -> Z -> RGBA)
    (index : nat) (get : GetPropertyFn)
    (positions : list F3) (rotations : list F4) (scales : list F3)
    (colors : list RGBA)
  : outcome (list F3 * list F4 * list F3 * list RGBA) :=
  pz ← get Property.Z; px ← get Property.X; py ← get Property.Y;
  positions ← store positions index
    (mkF3 (to_float rt pz) (to_float rt px) (- to_float rt py));
  rz ← get Property.RotationZ; rx ← get Property.RotationX;
  ry ← get Property.RotationY; rw ← get Property.RotationW;
  let x := - to_float rt rz in
  let y := - to_float rt rx in
  let z := to_float rt ry in
  let w := to_float rt rw in
  let len := sqrt (x * x + y * y + z * z + w * w) in
  rotations ← store rotations index
    (mkF4 (x / len) (y / len) (z / len) (w / len));
  sz ← get Property.ScaleZ; sx ← get Property.ScaleX;
  sy ← get Property.ScaleY;
  scales ← store scales index
    (mkF3 (to_scale_linear rt sz) (to_scale_linear rt sx)
          (to_scale_linear rt sy));
  cr ← get Property.DCRed; r ← to_color_linear rt cr;
  cg ← get Property.DCGreen; g ← to_color_linear rt cg;
  cb ← get Property.DCBlue; b ← to_color_linear rt cb;
  op ← get Property.Opacity;
  colors ← store colors index (mkRGBA r g b (to_alpha_linear rt op));
  Ok (positions, rotations, scales, colors).

(** The change of axes [convert_splat] applies to a position. *)
Definition remap_axes (v : R * R * R) : R * R * R :=
  let '(x, y, z) := v in (z, x, - y).


(** *** Example inputs *)

(** A runtime whose floats are their bit patterns read as integers, and
    whose [pow] is defined everywhere. *)
Definition example_runtime : runtime :=
  Runtime (fun bits => IZR bits) (fun bits => IZR bits) (fun _ _ => Some 0).


End Conversion.

(** ** The eigenvalue computation in binary32 *)

(** The covariance kernel declares [det], [trace], [sqrt_disc] and
    [two_lmb] as [float]: IEEE 754 binary32.  The operations are those of
    the Standard Library's [SpecFloat] at precision 24 and exponent bound
    128, rounding to nearest, ties to even. *)

Module ShadersFloat32.
Import SpecFloat.
Local Open Scope Z_scope.

Definition prec : Z := 24.
Definition emax : Z := 128.

Definition fadd : spec_float -> spec_float -> spec_float := SFadd prec emax.
Definition fsub : spec_float -> spec_float -> spec_float := SFsub prec emax.
Definition fmul : spec_float -> spec_float -> spec_float := SFmul prec emax.
Definition fdiv : spec_float -> spec_float -> spec_float := SFdiv prec emax.
Definition fsqrt : spec_float -> spec_float := SFsqrt prec emax.

(** The float [2^k], for [k] in the normal range, and [+0]. *)
Definition pow2 (k : Z) : spec_float := S754_finite false 8388608 (k - 23).
Definition zero : spec_float := S754_zero false.

(** Lines 179-200 of the kernel, local by local; the literal [4] is the
    float [4.0]. *)
Definition det (sig_p_00 sig_p_01_10 sig_p_11 : spec_float) : spec_float :=
  fsub (fmul sig_p_00 sig_p_11) (fmul sig_p_01_10 sig_p_01_10).

Definition trace (sig_p_00 sig_p_11 : spec_float) : spec_float :=
  fadd sig_p_00 sig_p_11.

Definition sqrt_disc (sig_p_00 sig_p_01_10 sig_p_11 : spec_float)
  : spec_float :=
  let det := det sig_p_00 sig_p_01_10 sig_p_11 in
  let trace := trace sig_p_00 sig_p_11 in
  fsqrt (fsub (fmul trace trace) (fmul (pow2 2) det)).

Definition two_lmb (sig_p_00 sig_p_01_10 sig_p_11 : spec_float)
  : spec_float * spec_float :=
  let trace := trace sig_p_00 sig_p_11 in
  let sqrt_disc := sqrt_disc sig_p_00 sig_p_01_10 sig_p_11 in
  (fadd trace sqrt_disc, fsub trace sqrt_disc).

(** The number a float denotes (0 for an infinity or a NaN). *)
Definition F2R (x : spec_float) : R :=
  match x with
  | S754_finite s m e =>
      (if s then -1 else 1)%R * IZR (Zpos m) * powerRZ 2 e
  | _ => 0%R
  end.

End ShadersFloat32.

(** ** Hosts for the comparison of the two stages *)

Module StageExamples.
Import Unpacking Shaders.
Local Open Scope R_scope.





End StageExamples.

(** ** Logging, and the importer with its log calls *)

(** [import/splat_logging.cpp].  [send_log] is a global function pointer,
    null until [set_log_recv] installs a receiver. *)

Module Logging.
Import Ply.
Local Open Scope string_scope.

Inductive Level := ERROR | WARNING.

Definition receiver : Type := Level -> string -> unit.

(** The new value of [send_log]. *)
Definition set_log_recv (recv_log : option receiver) : option receiver :=
  recv_log.

(** [log] returns at once without a receiver.  With one it formats the
    message twice from the same [va_list], which the first [vsnprintf] has
    consumed, and builds its [std::string buffer] from the empty literal
    and the count [size + 1], which copies [size + 1] characters from an
    array of one: undefined for every format but the empty one, whose
    message is then sent. *)
Definition log (send_log : option receiver) (level : Level) (format : string)
  : outcome unit :=
  match send_log with
  | None => Ok tt
  | Some _ =>
      match format with
      | EmptyString => Ok tt
      | String _ _ => Abort UndefinedBehaviour
      end
  end.

Definition log_error (send_log : option receiver) (format : string)
  : outcome unit :=
  log send_log ERROR format.

Definition log_warn (send_log : option receiver) (format : string)
  : outcome unit :=
  log send_log WARNING format.

End Logging.

(** [SplatParserPly::parse_header] and [SplatParserPly::parse_metadata] with
    every [log_error] and [log_warn] of the source in its place.  [Ply]
    gives the same functions for the program as it starts, with [send_log]
    null. *)

Module PlyLogging.
Import Ply Logging.
Local Open Scope Z_scope.
Local Open Scope string_scope.

Section WithReceiver.
Variable send_log : option receiver.

Definition element_line (p : SplatParserPly) (line text : string)
  : outcome step :=
  if negb (num_splats p =? 0)%Z then
    log_error send_log
      "Unable to import `.ply` with more than one vertex element specified.";;
    Ok (Return false p)
  else
    '(token, line) ← pop_token line;
    match token with
    | None =>
        log_error send_log "Invalid vertex element line: %.*s.";;
        Ok (Return false p)
    | Some token =>
        if negb (String.eqb token "vertex") then
          log_error send_log "Unexpected element type: %.*s.";;
          Ok (Return false p)
        else
          '(token, line) ← pop_token line;
          match token with
          | None =>
              log_error send_log "Invalid vertex element count: %.*s.";;
              Ok (Return false p)
          | Some token =>
              match from_chars token with
              | None =>
                  log_error send_log "Failed to parse vertex count: %.*s.";;
                  Ok (Return false p)
              | Some count =>
                  let p := set_num_splats count p in
                  if (count =? 0)%Z then
                    log_error send_log "Found zero splats. Stopping.";;
                    Ok (Return false p)
                  else Ok (Continue p text)
              end
          end
    end.

Definition property_line (p : SplatParserPly) (line text : string)
  : outcome step :=
  if (num_splats p =? 0)%Z then
    log_error send_log
      "Invalid property line (missing associated element): %.*s.";;
    Ok (Return false p)
  else
    '(token, line) ← pop_token line;
    match token with
    | None =>
        log_error send_log "Unable to parse property type: %.*s.";;
        Ok (Return false p)
    | Some token =>
        match table_lookup token type_map with
        | None =>
            log_error send_log "Invalid property type: %.*s.";;
            Ok (Return false p)
        | Some type =>
            '(token, line) ← pop_token line;
            match token with
            | None =>
                log_error send_log "Unable to parse property name: %.*s.";;
                Ok (Return false p)
            | Some token =>
                match table_lookup token property_map with
                | Some prop =>
                    '(added, p) ← add_property p prop type;
                    if (added : bool) then Ok (Continue p text)
                    else
                      log_error send_log "Duplicate property: %.*s";;
                      Ok (Return false p)
                | None =>
                    '(_, p) ← add_property p Property.Ignore type;
                    Ok (Continue p text)
                end
            end
        end
    end.

Definition header_step (p : SplatParserPly) (text : string) : outcome step :=
  match pop_line text with
  | (None, _) =>
      log_error send_log "Unable to parse header line.";;
      Ok (Return false p)
  | (Some line, text) =>
      '(token, line) ← pop_token line;
      match token with
      | None =>
          log_error send_log "Invalid header line: %.*s.";;
          Ok (Return false p)
      | Some token =>
          if String.eqb token "comment" then Ok (Continue p text)
          else if String.eqb token "element" then element_line p line text
          else if String.eqb token "property" then property_line p line text
          else if String.eqb token "end_header" then
            let offset := (String.length (buffer p) - String.length text)%nat in
            Ok (Return true (set_buffer (remove_prefix offset (buffer p)) p))
          else
            log_error send_log "Unknown header element: %.*s";;
            Ok (Return false p)
      end
  end.

Fixpoint header_loop (fuel : nat) (p : SplatParserPly) (text : string)
  : outcome (bool * SplatParserPly) :=
  match fuel with
  | O => Abort NoFuel
  | S fuel' =>
      r ← header_step p text;
      match r with
      | Continue p text => header_loop fuel' p text
      | Return ok p => Ok (ok, p)
      end
  end.

Definition parse_header (fuel : nat) (p : SplatParserPly)
  : outcome (bool * SplatParserPly) :=
  let text := buffer p in
  match pop_line text with
  | (None, _) =>
      log_error send_log "Unable to parse magic number.";;
      Ok (false, p)
  | (Some line, text) =>
      if negb (String.eqb line "ply") then
        log_error send_log "Invalid magic number: %.*s.";;
        Ok (false, p)
      else
        match pop_line text with
        | (None, _) =>
            log_error send_log "Unable to parse format line.";;
            Ok (false, p)
        | (Some line, text) =>
            '(token, line) ← pop_token line;
            match token with
            | None =>
                log_error send_log "Unexpected format metadata: %.*s.";;
                Ok (false, p)
            | Some token =>
                if negb (String.eqb token "format") then
                  log_error send_log "Invalid format metadata: %.*s.";;
                  Ok (false, p)
                else
                  '(format_token, line) ← pop_token line;
                  match format_token with
                  | None =>
                      log_error send_log "Unable to parse format type: %.*s.";;
                      Ok (false, p)
                  | Some format_token =>
                      match table_lookup format_token format_map with
                      | None =>
                          log_error send_log "Invalid format type: %.*s.";;
                          Ok (false, p)
                      | Some f =>
                          let p := set_format f p in
                          '(token, line) ← pop_token line;
                          match token with
                          | None =>
                              log_error send_log
                                "Unable to parse format version: %.*s.";;
                              Ok (false, p)
                          | Some token =>
                              (if negb (String.eqb token "1.0") then
                                 log_warn send_log
                                   "Unexpected encoding version %.*s for %.*s. Continuing anyway."
                               else Ok tt);;
                              header_loop fuel p text
                          end
                      end
                  end
            end
        end
  end.

Definition parse_metadata (fuel : nat) (p : SplatParserPly)
    (ply_buffer : string) (metadata : Metadata)
  : outcome (bool * SplatParserPly * Metadata) :=
  let p := set_buffer ply_buffer p in
  '(ok, p) ← parse_header fuel p;
  if negb (ok : bool) then
    log_error send_log "Unable to parse PLY header.";;
    Ok (false, p, metadata)
  else
    let sz_rem := Z.of_nat (String.length (buffer p)) in
    let sz_exp := size_t (num_splats p * splat_size p) in
    if negb (sz_rem =? sz_exp)%Z then
      log_error send_log
        "Data size mismatch: %llu bytes expected but %llu bytes remaining.";;
      Ok (false, p, metadata)
    else Ok (true, p, write_metadata p metadata).

End WithReceiver.

(** A receiver, for the examples. *)
Definition example_receiver : receiver := fun _ _ => tt.

(** A header with a property of a type other than [float]. *)
Definition uchar_file : string :=
  terminated example_header_lines ++ "property uchar red" ++ nl
  ++ terminated ["end_header"].

(** What a receiver makes of a result: a failure has been logged. *)
Definition logged_step (r : outcome step) : outcome step :=
  match r with
  | Ok (Return false _) => Abort UndefinedBehaviour
  | _ => r
  end.

Definition logged_result {A : Type} (r : outcome (bool * A))
  : outcome (bool * A) :=
  match r with
  | Ok (false, _) => Abort UndefinedBehaviour
  | _ => r
  end.

Definition logged_metadata (r : outcome (bool * SplatParserPly * Metadata))
  : outcome (bool * SplatParserPly * Metadata) :=
  match r with
  | Ok (false, _, _) => Abort UndefinedBehaviour
  | _ => r
  end.

End PlyLogging.

(* ===================================================================== *)
(** * Theorems *)
(* ===================================================================== *)

Module UnpackingFacts.
Import Unpacking.
Local Open Scope Z_scope.

Lemma in_zrange (n : nat) (z : Z) : 0 <= z < Z.of_nat n -> In z (zrange n).
Proof.
  intros Hz. unfold zrange. apply in_map_iff.
  exists (Z.to_nat z). split; [lia|]. apply in_seq. lia.
Qed.

Lemma extract_shift_only_sum (e m packed offset : Z) :
  extract_shift_only e m packed offset = extract_shift_only (e + m) 0 packed offset.
Proof.
  unfold extract_shift_only, f16_shift.
  replace (15 - (e + m) - 0) with (15 - e - m) by lia. reflexivity.
Qed.

Lemma extract_masked_sum (s e m packed offset : Z) :
  extract_masked s e m packed offset = extract_masked s (e + m) 0 packed offset.
Proof.
  unfold extract_masked. rewrite extract_shift_only_sum. f_equal.
  unfold f16_mask, f16_shift.
  replace (15 - (e + m) - 0) with (15 - e - m) by lia.
  replace (s + (e + m) + 0) with (s + e + m) by lia. reflexivity.
Qed.

Lemma all_layouts_separated_true : all_layouts_separated = true.
Proof. vm_compute. reflexivity. Qed.

(** Every layout other than "signed at offset 0" has a 32-bit word on which
    the mask changes the half pattern. *)
Lemma mask_needed (s e m offset : Z) :
  field_ok s e m offset -> ~ (s = 1 /\ offset = 0) ->
  exists packed, 0 <= packed < 2 ^ 32 /\
    half_pattern (extract_shift_only e m packed offset)
    <> half_pattern (extract_masked s e m packed offset).
Proof.
  intros (Hs & He & Hm & Hem & Hoff) Hne.
  pose proof all_layouts_separated_true as Hall.
  unfold all_layouts_separated in Hall.
  rewrite forallb_forall in Hall.
  specialize (Hall s (in_zrange 2 s ltac:(lia))).
  rewrite forallb_forall in Hall.
  specialize (Hall (e + m) (in_zrange 15 (e + m) ltac:(lia))).
  rewrite forallb_forall in Hall.
  specialize (Hall offset (in_zrange 32 offset ltac:(lia))).
  apply orb_true_iff in Hall. destruct Hall as [Hall | Hall].
  - apply andb_true_iff in Hall. destruct Hall as [H1 H2].
    apply Z.eqb_eq in H1. apply Z.eqb_eq in H2. tauto.
  - apply andb_true_iff in Hall. destruct Hall as [Hall Hhi].
    apply andb_true_iff in Hall. destruct Hall as [Hsep Hlo].
    exists (separating_word s (e + m) offset).
    split; [split; [apply Z.leb_le, Hlo | apply Z.ltb_lt, Hhi]|].
    rewrite extract_shift_only_sum, extract_masked_sum.
    unfold separates in Hsep. apply negb_true_iff in Hsep.
    apply Z.eqb_neq in Hsep. exact Hsep.
Qed.

(** Bits of a left-shifted [uint] below the shift count are clear. *)
Lemma shl_low_bits (p sh i : Z) :
  0 <= sh < 32 -> 0 <= i < sh -> Z.testbit (shl p sh) i = false.
Proof.
  intros Hsh Hi. unfold shl, u32.
  rewrite Z.mod_small with (a := sh) by lia.
  rewrite Z.mod_pow2_bits_low by lia.
  rewrite Z.shiftl_spec by lia. apply Z.testbit_neg_r. lia.
Qed.

Lemma u32_small (z : Z) : 0 <= z < 2 ^ 32 -> u32 z = z.
Proof. intros Hz. unfold u32. apply Z.mod_small, Hz. Qed.

Lemma f16_shift_small (e m : Z) :
  0 <= e -> 0 <= m -> e + m <= 15 -> f16_shift e m = 15 - e - m.
Proof. intros He Hm Hem. unfold f16_shift. apply u32_small. lia. Qed.

Lemma f16_mask_signed (e m : Z) :
  0 <= e -> 0 <= m -> e + m <= 14 ->
  f16_mask 1 e m = Z.shiftl (Z.ones (1 + e + m)) (15 - e - m).
Proof.
  intros He Hm Hem. unfold f16_mask.
  rewrite f16_shift_small by lia. unfold shl.
  rewrite (Z.mod_small (15 - e - m) 32) by lia.
  rewrite (Z.mod_small (1 + e + m) 32) by lia.
  rewrite Z.shiftl_1_l.
  assert (Hpow : 2 ^ (1 + e + m) <= 2 ^ 15) by (apply Z.pow_le_mono_r; lia).
  assert (Hpos : 0 < 2 ^ (1 + e + m)) by (apply Z.pow_pos_nonneg; lia).
  rewrite (u32_small (2 ^ (1 + e + m))) by lia.
  rewrite (u32_small (2 ^ (1 + e + m) - 1)) by lia.
  replace (2 ^ (1 + e + m) - 1) with (Z.ones (1 + e + m))
    by (rewrite Z.ones_equiv; lia).
  apply u32_small. rewrite Z.shiftl_mul_pow2 by lia.
  rewrite Z.ones_equiv.
  assert (Hprod : 2 ^ (1 + e + m) * 2 ^ (15 - e - m) = 2 ^ 16).
  { rewrite <- Z.pow_add_r by lia. f_equal. lia. }
  assert (Hpos' : 0 < 2 ^ (15 - e - m)) by (apply Z.pow_pos_nonneg; lia).
  split; [apply Z.mul_nonneg_nonneg; lia|].
  change (2 ^ 32) with (2 ^ 16 * 2 ^ 16). nia.
Qed.

Lemma extract_shift_only_offset0 (e m packed : Z) :
  0 <= e -> 0 <= m -> e + m <= 14 ->
  extract_shift_only e m packed 0 = shl packed (15 - e - m).
Proof.
  intros He Hm Hem. unfold extract_shift_only.
  rewrite f16_shift_small by lia.
  replace (0 <? 15 - e - m) with true by (symmetry; apply Z.ltb_lt; lia).
  rewrite Z.sub_0_r, u32_small by lia. reflexivity.
Qed.

(** For a signed field at offset 0 the shifted word already is the half
    pattern: the mask changes nothing in the low sixteen bits. *)
Lemma mask_redundant_signed_offset0 (e m packed : Z) :
  0 <= e -> 0 <= m -> e + m <= 14 ->
  half_pattern (extract_shift_only e m packed 0)
  = half_pattern (extract_masked 1 e m packed 0).
Proof.
  intros He Hm Hem. unfold extract_masked, half_pattern.
  rewrite f16_mask_signed by assumption.
  rewrite extract_shift_only_offset0 by assumption.
  set (sh := 15 - e - m). set (x := shl packed sh).
  apply Z.bits_inj'. intros i Hi.
  rewrite !Z.land_spec.
  destruct (Z.ltb_spec i 16) as [Hlt | Hge].
  - destruct (Z.ltb_spec i sh) as [Hlow | Hhigh].
    + unfold x. rewrite shl_low_bits by (unfold sh; lia). reflexivity.
    + rewrite Z.shiftl_spec by lia.
      rewrite Z.ones_spec_low by (unfold sh in *; lia).
      rewrite andb_true_r. reflexivity.
  - change 65535 with (Z.ones 16).
    rewrite Z.ones_spec_high by lia. rewrite !andb_false_r. reflexivity.
Qed.

(** The value [unpack_f16] passes to [f16tof32] always carries the masked
    half pattern, whichever branch is taken. *)
Lemma unpack_f16_bits_masked (s e m packed offset : Z) :
  field_ok s e m offset ->
  half_pattern (unpack_f16_bits s e m packed offset)
  = half_pattern (extract_masked s e m packed offset).
Proof.
  intros (Hs & He & Hm & Hem & Hoff). unfold unpack_f16_bits.
  destruct (Z.eqb_spec s 1) as [-> | Hs1]; simpl.
  - destruct (Z.eqb_spec offset 0) as [-> | Ho]; simpl.
    + rewrite <- mask_redundant_signed_offset0 by assumption.
      rewrite extract_shift_only_offset0 by assumption.
      rewrite f16_shift_small by lia. reflexivity.
    + unfold extract_masked, extract_shift_only.
      destruct (offset <? f16_shift e m); reflexivity.
  - unfold extract_masked, extract_shift_only.
    destruct (offset <? f16_shift e m); reflexivity.
Qed.

(** C3, as the code has it: within a field layout, shift-only extraction
    yields the same half pattern as masked extraction for every packed word
    exactly when the field has a sign bit and starts at offset 0; for every
    other layout some packed word needs the mask. *)
Theorem mask_free_iff_signed_offset0 (s e m offset : Z) :
  field_ok s e m offset ->
  ((forall packed, 0 <= packed < 2 ^ 32 ->
      half_pattern (extract_shift_only e m packed offset)
      = half_pattern (extract_masked s e m packed offset))
   <-> (s = 1 /\ offset = 0)).
Proof.
  intros Hok. split.
  - intros Hall.
    destruct (Z.eq_dec s 1) as [Hs | Hs];
      destruct (Z.eq_dec offset 0) as [Ho | Ho]; try tauto.
    all: destruct (mask_needed s e m offset Hok ltac:(tauto)) as (w & Hw & Hd);
      exfalso; apply Hd, Hall, Hw.
  - intros [-> ->] packed _.
    destruct Hok as (_ & He & Hm & Hem & _).
    apply mask_redundant_signed_offset0; assumption.
Qed.

Lemma mask_free_iff_signed_offset0_witness :
  field_ok 1 5 5 0 /\
  ((forall packed, 0 <= packed < 2 ^ 32 ->
      half_pattern (extract_shift_only 5 5 packed 0)
      = half_pattern (extract_masked 1 5 5 packed 0))
   <-> (1 = 1 /\ 0 = 0)).
Proof.
  assert (Hok : field_ok 1 5 5 0) by (unfold field_ok; lia).
  split; [exact Hok | exact (mask_free_iff_signed_offset0 1 5 5 0 Hok)].
Defined.

(** C3, as the specification words it, fails: the variance field [zz] of
    [unpack_cov_mat] has no sign bit and starts at offset 0, yet the single
    shift moves bit 11 of the word (the lowest bit of the neighbouring field
    [yz]) into the sign position.  On the word 0xBC0 the shift alone yields
    the pattern 0xBC00, the half -1.0, where the masked extraction, and
    [unpack_f16] itself, yield 0x3C00, the half 1.0. *)
Lemma unsigned_offset0_needs_mask :
  field_ok 0 5 6 0 /\
  half_pattern (extract_shift_only 5 6 3008 0) = 48128 /\
  half_pattern (extract_masked 0 5 6 3008 0) = 15360 /\
  half_pattern (unpack_f16_bits 0 5 6 3008 0) = 15360 /\
  ~ ((forall packed, 0 <= packed < 2 ^ 32 ->
        half_pattern (extract_shift_only 5 6 packed 0)
        = half_pattern (extract_masked 0 5 6 packed 0))
     <-> (0 = 0 /\ 0 = 0)).
Proof.
  split; [unfold field_ok; lia|].
  split; [reflexivity|]. split; [reflexivity|]. split; [reflexivity|].
  intros [_ H]. specialize (H (conj eq_refl eq_refl) 3008 ltac:(lia)).
  vm_compute in H. discriminate H.
Qed.

End UnpackingFacts.

Module ShaderFacts.
Import Unpacking Shaders.
Local Open Scope R_scope.

(** *** Comparisons, clamping and truncation *)

Lemma Rltb_true (a b : R) : Rltb a b = true <-> a < b.
Proof. unfold Rltb. destruct (Rlt_dec a b); split; intros; (lra || congruence). Qed.

Lemma Rltb_false (a b : R) : Rltb a b = false <-> b <= a.
Proof. unfold Rltb. destruct (Rlt_dec a b); split; intros; (lra || congruence). Qed.

Lemma outside_frustum_true (p : float4) :
  outside_frustum p = true <->
  (f4x p < - f4w p \/ f4x p > f4w p \/ f4y p < - f4w p \/ f4y p > f4w p
   \/ f4z p > f4w p).
Proof.
  unfold outside_frustum, Rgtb.
  rewrite !orb_true_iff, !Rltb_true. unfold Rgt. tauto.
Qed.

(** The specification's condition implies the test the shaders perform. *)
Lemma clip_outside_test (p : float4) :
  clip_outside p -> outside_frustum p = true.
Proof.
  unfold clip_outside. intros H. apply outside_frustum_true.
  revert H. unfold Rabs.
  destruct (Rcase_abs (f4x p)), (Rcase_abs (f4y p)), (Rcase_abs (f4w p));
    intros [H | [H | H]]; lra.
Qed.

Lemma saturate_range (x : R) : 0 <= saturate x <= 1.
Proof.
  unfold saturate, Rmin, Rmax.
  destruct (Rle_dec x 0); destruct (Rle_dec _ 1); lra.
Qed.

Lemma Int_part_IZR (z : Z) : Int_part (IZR z) = z.
Proof. symmetry. apply Int_part_spec. lra. Qed.

Lemma ftou_bounds (x : R) (n : Z) :
  (n <= 4294967295)%Z -> 0 <= x <= IZR n -> (0 <= ftou x <= n)%Z.
Proof.
  intros Hn [Hlo Hhi]. unfold ftou.
  destruct (base_Int_part x) as [Hle Hgt].
  assert (Hup : (Int_part x <= n)%Z) by (apply le_IZR; lra).
  assert (Hn0 : (0 <= n)%Z) by (apply le_IZR; lra).
  lia.
Qed.

Lemma DISTANCE_SCALE_value : DISTANCE_SCALE = 65534.
Proof. reflexivity. Qed.

(** A visible splat gets a key in [0, 2^16 - 2]. *)
Lemma distance_of_inside (p : float4) :
  outside_frustum p = false -> (0 <= distance_of p <= 2 ^ 16 - 2)%Z.
Proof.
  intros Hin. unfold distance_of. rewrite Hin. simpl negb. cbv iota.
  apply ftou_bounds; [lia|].
  rewrite DISTANCE_SCALE_value.
  pose proof (saturate_range (f4z p / f4w p)) as Hs.
  change (IZR (2 ^ 16 - 2)) with 65534. nra.
Qed.

Lemma distance_of_outside (p : float4) :
  outside_frustum p = true -> distance_of p = DISTANCE_NOT_VISIBLE.
Proof. intros Hout. unfold distance_of. rewrite Hout. reflexivity. Qed.

(** The sentinel is assigned to exactly the splats that fail the test. *)
Lemma distance_of_sentinel (p : float4) :
  distance_of p = DISTANCE_NOT_VISIBLE <-> outside_frustum p = true.
Proof.
  split; [|apply distance_of_outside].
  destruct (outside_frustum p) eqn:Hout; [reflexivity|].
  pose proof (distance_of_inside p Hout) as Hb. intros Heq.
  rewrite Heq in Hb. change DISTANCE_NOT_VISIBLE with 65535%Z in Hb. lia.
Qed.

(** What an in-range invocation of the distance kernel leaves in its slot. *)
Lemma distance_main_lookup (c : constants) (positions : list Z)
    (b : sort_buffers) (id : nat) :
  (id < num_splats c)%nat -> (id < length (distances b))%nat ->
  distances (distance_main c positions b id) !! id
  = Some (distance_of (distance_pos_clip c (load 0%Z positions id))).
Proof.
  intros Hid Hlen. unfold distance_main.
  destruct (Nat.leb_spec (num_splats c) id) as [Hge | _]; [lia|].
  simpl. apply list_lookup_insert_eq. exact Hlen.
Qed.

Lemma vs_main_culled (h : host) (c : constants) (idxs positions : list Z)
    (transforms colors : list float4) (in_id in_view_id : nat) :
  vs_main h c idxs positions transforms colors in_id in_view_id = vs_culled
  <-> outside_frustum
        (vs_pos_clip h c
           (load 0%Z positions (Z.to_nat (load 0%Z idxs (in_id / 6))))
           in_view_id) = true.
Proof.
  unfold vs_main.
  destruct (outside_frustum _); split; intros H;
    try reflexivity; try discriminate.
Qed.

(** *** The example scene *)

Lemma unpack_pos_x2 :
  unpack_pos packed_x2 (Float3 1 1 1) (Float3 0 0 0) = Float4 2 0 0 1.
Proof.
  unfold unpack_pos, unpack_unorm, packed_x2.
  change (unpack_unorm_bits 11 2 0) with 2%Z.
  change (unpack_unorm_bits 11 2 11) with 0%Z.
  change (unpack_unorm_bits 10 2 22) with 0%Z.
  simpl. f_equal; lra.
Qed.

Lemma unpack_pos_z1 :
  unpack_pos packed_z1 (Float3 1 1 1) (Float3 0 0 0) = Float4 0 0 1 1.
Proof.
  unfold unpack_pos, unpack_unorm, packed_z1.
  change (unpack_unorm_bits 11 4194304 0) with 0%Z.
  change (unpack_unorm_bits 11 4194304 11) with 0%Z.
  change (unpack_unorm_bits 10 4194304 22) with 1%Z.
  simpl. f_equal; lra.
Qed.

Lemma mul_identity4x4 (v : float4) : mul_v4_m4 v identity4x4 = v.
Proof. destruct v. unfold mul_v4_m4. simpl. f_equal; lra. Qed.

Lemma example_pos_clip_x2 :
  distance_pos_clip example_constants packed_x2 = Float4 2 0 0 1.
Proof.
  unfold distance_pos_clip. simpl.
  rewrite unpack_pos_x2. apply mul_identity4x4.
Qed.

Lemma example_pos_clip_z1 :
  distance_pos_clip example_constants packed_z1 = Float4 0 0 1 1.
Proof.
  unfold distance_pos_clip. simpl.
  rewrite unpack_pos_z1. apply mul_identity4x4.
Qed.

Lemma example_transforms_agree (view : nat) :
  clip_transforms_agree example_host example_constants view.
Proof.
  intros [x y z]. unfold mul_v3_m3, mul_v4_m4. simpl. f_equal; lra.
Qed.

Lemma example_vs_pos_clip_x2 (view : nat) :
  vs_pos_clip example_host example_constants packed_x2 view = Float4 2 0 0 1.
Proof.
  unfold vs_pos_clip. cbn [pos_scale_cm pos_min_cm example_constants].
  rewrite unpack_pos_x2. unfold mul_v3_m3. simpl. f_equal; lra.
Qed.

Lemma clip_outside_x2 : clip_outside (Float4 2 0 0 1).
Proof.
  left. simpl. rewrite (Rabs_pos_eq 2), (Rabs_pos_eq 1) by lra. lra.
Qed.

Lemma inside_z1 : outside_frustum (Float4 0 0 1 1) = false.
Proof.
  destruct (outside_frustum (Float4 0 0 1 1)) eqn:H; [|reflexivity].
  apply outside_frustum_true in H. simpl in H. lra.
Qed.

Lemma distance_of_z1 : distance_of (Float4 0 0 1 1) = 65534%Z.
Proof.
  unfold distance_of. rewrite inside_z1. simpl negb. cbv iota.
  rewrite DISTANCE_SCALE_value. simpl f4z. simpl f4w.
  replace (saturate (1 / 1) * 65534) with (IZR 65534).
  - unfold ftou. rewrite Int_part_IZR. reflexivity.
  - unfold saturate, Rmin, Rmax.
    destruct (Rle_dec (1 / 1) 0); destruct (Rle_dec _ 1); lra.
Qed.

Lemma corner_quotient (k corner : nat) :
  (corner < 6)%nat -> ((6 * k + corner) / 6 = k)%nat.
Proof.
  intros Hc. symmetry. apply (Nat.div_unique _ 6 k corner); lia.
Qed.

(** *** The claims about the shaders *)

(** C1. A splat whose clip-space position satisfies |x| > |w|, |y| > |w| or
    z > w gets exactly [DISTANCE_NOT_VISIBLE] in [distances[splat_id]] from
    the distance kernel, and the vertex stage outputs the zero position for
    each of the six vertices drawn for it. *)
Theorem outside_frustum_sentinel_and_zero_quad
    (h : host) (c : constants) (positions idxs : list Z) (b : sort_buffers)
    (transforms colors : list float4) (splat_id : nat) :
  (splat_id < num_splats c)%nat ->
  (splat_id < length (distances b))%nat ->
  (clip_outside (distance_pos_clip c (load 0%Z positions splat_id)) ->
   distances (distance_main c positions b splat_id) !! splat_id
   = Some DISTANCE_NOT_VISIBLE)
  /\ (forall k corner view : nat,
        (corner < 6)%nat ->
        Z.to_nat (load 0%Z idxs k) = splat_id ->
        clip_outside (vs_pos_clip h c (load 0%Z positions splat_id) view) ->
        out_position
          (vs_main h c idxs positions transforms colors (6 * k + corner) view)
        = float4_zero).
Proof.
  intros Hid Hlen. split.
  - intros Hout. rewrite distance_main_lookup by assumption.
    f_equal. apply distance_of_outside, clip_outside_test, Hout.
  - intros k corner view Hc Hk Hout.
    assert (Hcull :
      vs_main h c idxs positions transforms colors (6 * k + corner) view
      = vs_culled).
    { apply vs_main_culled. rewrite corner_quotient by assumption.
      rewrite Hk. apply clip_outside_test, Hout. }
    rewrite Hcull. reflexivity.
Qed.

Lemma outside_frustum_sentinel_and_zero_quad_witness :
  (0 < num_splats example_constants)%nat
  /\ (0 < length (distances (SortBuffers [0%Z] [0%Z])))%nat
  /\ clip_outside (distance_pos_clip example_constants
                     (load 0%Z [packed_x2] 0))
  /\ distances (distance_main example_constants [packed_x2]
                  (SortBuffers [0%Z] [0%Z]) 0) !! 0%nat
     = Some DISTANCE_NOT_VISIBLE
  /\ out_position
       (vs_main example_host example_constants [0%Z] [packed_x2] [] []
          (6 * 0 + 5) 0)
     = float4_zero.
Proof.
  assert (H1 : (0 < num_splats example_constants)%nat) by (simpl; lia).
  assert (H2 : (0 < length (distances (SortBuffers [0%Z] [0%Z])))%nat)
    by (simpl; lia).
  assert (H3 : clip_outside (distance_pos_clip example_constants
                               (load 0%Z [packed_x2] 0))).
  { change (load 0%Z [packed_x2] 0) with packed_x2.
    rewrite example_pos_clip_x2. exact clip_outside_x2. }
  destruct (outside_frustum_sentinel_and_zero_quad example_host
              example_constants [packed_x2] [0%Z] (SortBuffers [0%Z] [0%Z])
              [] [] 0%nat H1 H2) as [Hd Hv].
  split; [exact H1|]. split; [exact H2|]. split; [exact H3|].
  split; [exact (Hd H3)|].
  apply (Hv 0%nat 5%nat 0%nat); [lia | reflexivity |].
  change (load 0%Z [packed_x2] 0) with packed_x2.
  rewrite example_vs_pos_clip_x2. exact clip_outside_x2.
Defined.

(** C2, as the code has it. For every splat index below [num_splats] the
    distance kernel writes a key in [0, 2^16 - 2] when the splat passes the
    frustum test, and exactly the sentinel 2^16 - 1 when it fails it. *)
Theorem sort_key_range (c : constants) (positions : list Z)
    (b : sort_buffers) (i : nat) :
  (i < num_splats c)%nat ->
  (i < length (distances b))%nat ->
  exists key : Z,
    distances (distance_main c positions b i) !! i = Some key
    /\ (outside_frustum (distance_pos_clip c (load 0%Z positions i)) = false ->
        (0 <= key <= 2 ^ 16 - 2)%Z)
    /\ (outside_frustum (distance_pos_clip c (load 0%Z positions i)) = true ->
        key = (2 ^ 16 - 1)%Z).
Proof.
  intros Hi Hlen.
  exists (distance_of (distance_pos_clip c (load 0%Z positions i))).
  split; [apply distance_main_lookup; assumption|]. split.
  - apply distance_of_inside.
  - intros Hout. rewrite distance_of_outside by assumption. reflexivity.
Qed.

Lemma sort_key_range_witness :
  (0 < num_splats example_constants)%nat
  /\ (0 < length (distances (SortBuffers [0%Z] [0%Z])))%nat
  /\ outside_frustum
       (distance_pos_clip example_constants (load 0%Z [packed_z1] 0)) = false
  /\ exists key : Z,
       distances (distance_main example_constants [packed_z1]
                    (SortBuffers [0%Z] [0%Z]) 0) !! 0%nat = Some key
       /\ (0 <= key <= 2 ^ 16 - 2)%Z.
Proof.
  assert (H1 : (0 < num_splats example_constants)%nat) by (simpl; lia).
  assert (H2 : (0 < length (distances (SortBuffers [0%Z] [0%Z])))%nat)
    by (simpl; lia).
  assert (H3 : outside_frustum
                 (distance_pos_clip example_constants
                    (load 0%Z [packed_z1] 0)) = false).
  { change (load 0%Z [packed_z1] 0) with packed_z1.
    rewrite example_pos_clip_z1. exact inside_z1. }
  split; [exact H1|]. split; [exact H2|]. split; [exact H3|].
  destruct (sort_key_range example_constants [packed_z1]
              (SortBuffers [0%Z] [0%Z]) 0%nat H1 H2)
    as (key & Hkey & Hin & _).
  exists key. split; [exact Hkey | exact (Hin H3)].
Defined.

(** C2, as the specification words it, fails: a splat on the far plane
    (z = w) is inside the frustum and receives the key 2^16 - 2, which lies
    outside the claimed range [0, 2^16 - 3]. *)
Lemma visible_key_above_claimed_range :
  (0 < num_splats example_constants)%nat
  /\ outside_frustum
       (distance_pos_clip example_constants (load 0%Z [packed_z1] 0)) = false
  /\ distances (distance_main example_constants [packed_z1]
                  (SortBuffers [0%Z] [0%Z]) 0) !! 0%nat = Some 65534%Z
  /\ ~ (0 <= 65534 <= 2 ^ 16 - 3)%Z.
Proof.
  split; [simpl; lia|]. split.
  - change (load 0%Z [packed_z1] 0) with packed_z1.
    rewrite example_pos_clip_z1. exact inside_z1.
  - split; [|lia].
    rewrite distance_main_lookup by (simpl; lia).
    change (load 0%Z [packed_z1] 0) with packed_z1.
    rewrite example_pos_clip_z1, distance_of_z1. reflexivity.
Qed.

(** Over the reals the formula of [two_lmb] gives the eigenvalues: for
    entries [s00], [s01], [s11] whose discriminant trace^2 - 4 det is
    positive, the halves of the two components sum to the trace [s00 + s11]
    and multiply to the determinant [s00 * s11 - s01^2].  The kernel
    evaluates the formula in binary32, where this fails: see
    [Float32Facts]. *)
Theorem eigenvalues_trace_det (s00 s01 s11 : R) :
  0 < (s00 + s11) * (s00 + s11) - 4 * (s00 * s11 - s01 * s01) ->
  f2x (two_lmb s00 s01 s11) / 2 + f2y (two_lmb s00 s01 s11) / 2 = s00 + s11
  /\ (f2x (two_lmb s00 s01 s11) / 2) * (f2y (two_lmb s00 s01 s11) / 2)
     = s00 * s11 - s01 * s01.
Proof.
  intros Hdisc. unfold two_lmb. simpl.
  set (disc := (s00 + s11) * (s00 + s11) - 4 * (s00 * s11 - s01 * s01)) in *.
  assert (Hsq : sqrt disc * sqrt disc = disc) by (apply sqrt_sqrt; lra).
  split; [lra|].
  replace ((s00 + s11 + sqrt disc) / 2 * ((s00 + s11 - sqrt disc) / 2))
    with (((s00 + s11) * (s00 + s11) - sqrt disc * sqrt disc) / 4) by lra.
  rewrite Hsq. unfold disc. lra.
Qed.

Lemma eigenvalues_trace_det_witness :
  0 < (2 + 1) * (2 + 1) - 4 * (2 * 1 - 0 * 0)
  /\ f2x (two_lmb 2 0 1) / 2 + f2y (two_lmb 2 0 1) / 2 = 2 + 1
  /\ (f2x (two_lmb 2 0 1) / 2) * (f2y (two_lmb 2 0 1) / 2) = 2 * 1 - 0 * 0.
Proof.
  assert (H : 0 < (2 + 1) * (2 + 1) - 4 * (2 * 1 - 0 * 0)) by lra.
  split; [exact H | exact (eigenvalues_trace_det 2 0 1 H)].
Defined.

(** The same, for the covariance the kernel actually projects. *)
Corollary projected_eigenvalues (W : float3x3) (pos_view : float3)
    (sig : float3x3) :
  let '(s00, s01, s11) := sig_p W pos_view sig in
  0 < (s00 + s11) * (s00 + s11) - 4 * (s00 * s11 - s01 * s01) ->
  f2x (two_lmb s00 s01 s11) / 2 + f2y (two_lmb s00 s01 s11) / 2 = s00 + s11
  /\ (f2x (two_lmb s00 s01 s11) / 2) * (f2y (two_lmb s00 s01 s11) / 2)
     = s00 * s11 - s01 * s01.
Proof.
  destruct (sig_p W pos_view sig) as [[s00 s01] s11].
  intros Hd. unfold two_lmb. simpl.
  set (disc := (s00 + s11) * (s00 + s11) - 4 * (s00 * s11 - s01 * s01)) in *.
  assert (Hsq : sqrt disc * sqrt disc = disc) by (apply sqrt_sqrt; lra).
  split; [lra|].
  replace ((s00 + s11 + sqrt disc) / 2 * ((s00 + s11 - sqrt disc) / 2))
    with (((s00 + s11) * (s00 + s11) - sqrt disc * sqrt disc) / 4) by lra.
  rewrite Hsq. unfold disc. lra.
Qed.

(** *** The pixel shader *)

Lemma CUTOFF_value : CUTOFF_RADIUS_SIGMA_SQUARED_OVER_2 = 4.
Proof.
  unfold CUTOFF_RADIUS_SIGMA_SQUARED_OVER_2, RADIUS_SIGMA_OVER_SQRT_2,
    RADIUS_SIGMA.
  assert (H8 : sqrt 8 * sqrt 8 = 8) by (apply sqrt_sqrt; lra).
  assert (H2 : sqrt 2 * sqrt 2 = 2) by (apply sqrt_sqrt; lra).
  assert (Hp : 0 < sqrt 2) by (apply sqrt_lt_R0; lra).
  replace (sqrt 8 / sqrt 2 * (sqrt 8 / sqrt 2))
    with ((sqrt 8 * sqrt 8) / (sqrt 2 * sqrt 2)) by (field; lra).
  rewrite H8, H2. lra.
Qed.

Lemma alpha_gaussian_inside (d a : R) :
  d < CUTOFF_RADIUS_SIGMA_SQUARED_OVER_2 -> alpha_gaussian d a = a / exp d.
Proof.
  intros Hd. unfold alpha_gaussian.
  replace (Rltb d _) with true by (symmetry; apply Rltb_true, Hd).
  reflexivity.
Qed.

Lemma alpha_gaussian_cut (d a : R) :
  CUTOFF_RADIUS_SIGMA_SQUARED_OVER_2 <= d -> alpha_gaussian d a = 0.
Proof.
  intros Hd. unfold alpha_gaussian.
  replace (Rltb d _) with false by (symmetry; apply Rltb_false, Hd).
  reflexivity.
Qed.

Lemma alpha_scaled_nonneg (d a : R) : 0 <= a -> 0 <= a / exp d.
Proof.
  intros Ha. pose proof (exp_pos d) as He.
  apply Rmult_le_pos; [exact Ha | left; apply Rinv_0_lt_compat, He].
Qed.

(** For a non-negative base alpha the falloff never increases with the
    squared distance. *)
Lemma alpha_gaussian_antitone (d1 d2 a : R) :
  0 <= a -> d1 <= d2 -> alpha_gaussian d2 a <= alpha_gaussian d1 a.
Proof.
  intros Ha Hd.
  destruct (Rlt_le_dec d2 CUTOFF_RADIUS_SIGMA_SQUARED_OVER_2) as [H2 | H2].
  - rewrite !alpha_gaussian_inside by lra.
    pose proof (exp_pos d1) as He1.
    assert (He : exp d1 <= exp d2).
    { destruct Hd as [Hlt | ->]; [left; apply exp_increasing, Hlt | lra]. }
    unfold Rdiv. apply Rmult_le_compat_l; [exact Ha|].
    apply Rinv_le_contravar; assumption.
  - rewrite (alpha_gaussian_cut d2) by assumption.
    destruct (Rlt_le_dec d1 CUTOFF_RADIUS_SIGMA_SQUARED_OVER_2) as [H1 | H1].
    + rewrite alpha_gaussian_inside by assumption.
      apply alpha_scaled_nonneg, Ha.
    + rewrite alpha_gaussian_cut by assumption. lra.
Qed.

(** Below the cutoff, and for a positive base alpha, it strictly decreases. *)
Lemma alpha_gaussian_strict (d1 d2 a : R) :
  0 < a -> d1 < d2 -> d2 < CUTOFF_RADIUS_SIGMA_SQUARED_OVER_2 ->
  alpha_gaussian d2 a < alpha_gaussian d1 a.
Proof.
  intros Ha Hd H2. rewrite !alpha_gaussian_inside by lra.
  pose proof (exp_pos d1) as He1. pose proof (exp_increasing d1 d2 Hd) as He.
  unfold Rdiv. apply Rmult_lt_compat_l; [exact Ha|].
  apply Rinv_lt_contravar; [apply Rmult_lt_0_compat; lra | exact He].
Qed.

Lemma dot2_zero (v : float2) : dot2 v v = 0 -> v = Float2 0 0.
Proof.
  destruct v as [x y]. unfold dot2. simpl. intros H.
  assert (Hx : x = 0) by nra. assert (Hy : y = 0) by nra.
  subst. reflexivity.
Qed.

(** C5. In the pixel shader the output alpha is exactly 0 whenever the
    squared normalised distance reaches the cutoff; it equals the base alpha
    at the distance vector (0,0) (and, for a non-zero base alpha, only there);
    it is monotonically decreasing in the squared distance for a base alpha
    that is an opacity (non-negative), strictly so below the cutoff for a
    positive one; and the RGB channels pass through unchanged. *)
Theorem gaussian_alpha (v : float2) (in_color : float4) :
  (CUTOFF_RADIUS_SIGMA_SQUARED_OVER_2 <= dot2 v v ->
   f4w (ps_main v in_color) = 0)
  /\ f4w (ps_main (Float2 0 0) in_color) = f4w in_color
  /\ (f4w in_color <> 0 ->
      f4w (ps_main v in_color) = f4w in_color -> v = Float2 0 0)
  /\ (forall v' : float2,
        0 <= f4w in_color -> dot2 v v <= dot2 v' v' ->
        f4w (ps_main v' in_color) <= f4w (ps_main v in_color))
  /\ (forall v' : float2,
        0 < f4w in_color -> dot2 v v < dot2 v' v' ->
        dot2 v' v' < CUTOFF_RADIUS_SIGMA_SQUARED_OVER_2 ->
        f4w (ps_main v' in_color) < f4w (ps_main v in_color))
  /\ f4x (ps_main v in_color) = f4x in_color
  /\ f4y (ps_main v in_color) = f4y in_color
  /\ f4z (ps_main v in_color) = f4z in_color.
Proof.
  unfold ps_main. simpl.
  split; [apply alpha_gaussian_cut|].
  split.
  { unfold dot2. simpl. rewrite alpha_gaussian_inside.
    - replace (0 * 0 + 0 * 0) with 0 by lra. rewrite exp_0. lra.
    - rewrite CUTOFF_value. lra. }
  split.
  { intros Hne Heq.
    destruct (Rlt_le_dec (dot2 v v) CUTOFF_RADIUS_SIGMA_SQUARED_OVER_2)
      as [Hin | Hcut].
    - rewrite alpha_gaussian_inside in Heq by assumption.
      pose proof (exp_pos (dot2 v v)) as He.
      assert (Hm : f4w in_color / exp (dot2 v v) * exp (dot2 v v)
                   = f4w in_color) by (field; lra).
      rewrite Heq in Hm.
      assert (H1 : exp (dot2 v v) = 1).
      { apply (Rmult_eq_reg_l (f4w in_color)); [lra | exact Hne]. }
      apply dot2_zero. apply exp_inv. rewrite exp_0. exact H1.
    - rewrite alpha_gaussian_cut in Heq by assumption. congruence. }
  split; [intros v' Ha Hd; apply alpha_gaussian_antitone; assumption|].
  split; [intros v' Ha Hd Hc; apply alpha_gaussian_strict; assumption|].
  repeat split.
Qed.

Lemma gaussian_alpha_witness :
  (CUTOFF_RADIUS_SIGMA_SQUARED_OVER_2 <= dot2 (Float2 2 0) (Float2 2 0)
   /\ f4w (ps_main (Float2 2 0) (Float4 1 0 0 1)) = 0)
  /\ (f4w (Float4 1 0 0 1) <> 0
      /\ f4w (ps_main (Float2 0 0) (Float4 1 0 0 1)) = f4w (Float4 1 0 0 1)
      /\ Float2 0 0 = Float2 0 0)
  /\ (0 <= f4w (Float4 1 0 0 1)
      /\ dot2 (Float2 2 0) (Float2 2 0) <= dot2 (Float2 3 0) (Float2 3 0)
      /\ f4w (ps_main (Float2 3 0) (Float4 1 0 0 1))
         <= f4w (ps_main (Float2 2 0) (Float4 1 0 0 1)))
  /\ (0 < f4w (Float4 1 0 0 1)
      /\ dot2 (Float2 0 0) (Float2 0 0) < dot2 (Float2 1 0) (Float2 1 0)
      /\ dot2 (Float2 1 0) (Float2 1 0) < CUTOFF_RADIUS_SIGMA_SQUARED_OVER_2
      /\ f4w (ps_main (Float2 1 0) (Float4 1 0 0 1))
         < f4w (ps_main (Float2 0 0) (Float4 1 0 0 1)))
  /\ f4x (ps_main (Float2 2 0) (Float4 1 0 0 1)) = 1.
Proof.
  destruct (gaussian_alpha (Float2 2 0) (Float4 1 0 0 1))
    as (Hcut & _ & _ & Hmono & _ & Hr & _).
  destruct (gaussian_alpha (Float2 0 0) (Float4 1 0 0 1))
    as (_ & Hzero & Honly & _ & Hstrict & _).
  assert (H1 : CUTOFF_RADIUS_SIGMA_SQUARED_OVER_2
               <= dot2 (Float2 2 0) (Float2 2 0)).
  { rewrite CUTOFF_value. unfold dot2. simpl. lra. }
  assert (H2 : 0 <= f4w (Float4 1 0 0 1)) by (simpl; lra).
  assert (H3 : dot2 (Float2 2 0) (Float2 2 0)
               <= dot2 (Float2 3 0) (Float2 3 0))
    by (unfold dot2; simpl; lra).
  assert (H4 : f4w (Float4 1 0 0 1) <> 0) by (simpl; lra).
  assert (H5 : 0 < f4w (Float4 1 0 0 1)) by (simpl; lra).
  assert (H6 : dot2 (Float2 0 0) (Float2 0 0)
               < dot2 (Float2 1 0) (Float2 1 0))
    by (unfold dot2; simpl; lra).
  assert (H7 : dot2 (Float2 1 0) (Float2 1 0)
               < CUTOFF_RADIUS_SIGMA_SQUARED_OVER_2).
  { rewrite CUTOFF_value. unfold dot2. simpl. lra. }
  split; [split; [exact H1 | exact (Hcut H1)]|].
  split; [split; [exact H4 | split; [exact Hzero | exact (Honly H4 Hzero)]]|].
  split; [split; [exact H2 | split;
                    [exact H3 | exact (Hmono (Float2 3 0) H2 H3)]]|].
  split; [split; [exact H5 | split; [exact H6 | split;
                    [exact H7 | exact (Hstrict (Float2 1 0) H5 H6 H7)]]]|].
  exact Hr.
Defined.

(** *** The two stages against each other *)

(** When the host's [local_to_clip] is the composite of its
    [local_to_world] and [world_to_clip], the vertex stage computes the same
    clip-space position for a splat as the distance kernel, and takes its
    early return for a splat if and only if the kernel gave that splat the
    sentinel key.  The code does not establish the assumption: see
    [StageFacts]. *)
Theorem stages_classify_identically
    (h : host) (c : constants) (positions idxs : list Z) (b : sort_buffers)
    (transforms colors : list float4) (splat_id in_id view : nat) :
  clip_transforms_agree h c view ->
  (splat_id < num_splats c)%nat ->
  (splat_id < length (distances b))%nat ->
  Z.to_nat (load 0%Z idxs (in_id / 6)) = splat_id ->
  vs_pos_clip h c (load 0%Z positions splat_id) view
  = distance_pos_clip c (load 0%Z positions splat_id)
  /\ outside_frustum (vs_pos_clip h c (load 0%Z positions splat_id) view)
     = outside_frustum (distance_pos_clip c (load 0%Z positions splat_id))
  /\ (vs_main h c idxs positions transforms colors in_id view = vs_culled
      <-> distances (distance_main c positions b splat_id) !! splat_id
          = Some DISTANCE_NOT_VISIBLE).
Proof.
  intros Hagree Hid Hlen Hidx.
  assert (Hpos : vs_pos_clip h c (load 0%Z positions splat_id) view
                 = distance_pos_clip c (load 0%Z positions splat_id)).
  { unfold vs_pos_clip, distance_pos_clip. rewrite Hagree.
    unfold unpack_pos. reflexivity. }
  split; [exact Hpos|]. split; [rewrite Hpos; reflexivity|].
  rewrite vs_main_culled, Hidx, Hpos.
  rewrite distance_main_lookup by assumption.
  rewrite <- distance_of_sentinel.
  split; [intros ->; reflexivity | intros H; injection H; trivial].
Qed.

Lemma stages_classify_identically_witness :
  clip_transforms_agree example_host example_constants 0
  /\ (0 < num_splats example_constants)%nat
  /\ (0 < length (distances (SortBuffers [0%Z] [0%Z])))%nat
  /\ Z.to_nat (load 0%Z [0%Z] (3 / 6)) = 0%nat
  /\ vs_pos_clip example_host example_constants (load 0%Z [packed_x2] 0) 0
     = distance_pos_clip example_constants (load 0%Z [packed_x2] 0)
  /\ outside_frustum
       (vs_pos_clip example_host example_constants (load 0%Z [packed_x2] 0) 0)
     = outside_frustum
         (distance_pos_clip example_constants (load 0%Z [packed_x2] 0))
  /\ (vs_main example_host example_constants [0%Z] [packed_x2] [] [] 3 0
      = vs_culled
      <-> distances (distance_main example_constants [packed_x2]
                       (SortBuffers [0%Z] [0%Z]) 0) !! 0%nat
          = Some DISTANCE_NOT_VISIBLE).
Proof.
  assert (H0 : clip_transforms_agree example_host example_constants 0)
    by apply example_transforms_agree.
  assert (H1 : (0 < num_splats example_constants)%nat) by (simpl; lia).
  assert (H2 : (0 < length (distances (SortBuffers [0%Z] [0%Z])))%nat)
    by (simpl; lia).
  assert (H3 : Z.to_nat (load 0%Z [0%Z] (3 / 6)) = 0%nat) by reflexivity.
  split; [exact H0|]. split; [exact H1|]. split; [exact H2|].
  split; [exact H3|].
  exact (stages_classify_identically example_host example_constants
           [packed_x2] [0%Z] (SortBuffers [0%Z] [0%Z]) [] [] 0 3 0
           H0 H1 H2 H3).
Defined.

(** C7. An invocation whose splat index is at or beyond [num_splats] writes
    nothing: the covariance kernel leaves [transforms] as it was, and the
    distance kernel leaves [indices] and [distances] as they were. *)
Theorem out_of_range_invocation_is_noop
    (h : host) (c : constants) (positions : list Z)
    (covariances : list (Z * Z)) (transforms : list float4)
    (b : sort_buffers) (dispatch_thread_id : nat) :
  (num_splats c <= dispatch_thread_id)%nat ->
  covariance_main h c positions covariances transforms dispatch_thread_id
  = transforms
  /\ distance_main c positions b dispatch_thread_id = b
  /\ indices (distance_main c positions b dispatch_thread_id) = indices b
  /\ distances (distance_main c positions b dispatch_thread_id) = distances b.
Proof.
  intros Hge. unfold covariance_main, distance_main.
  destruct (Nat.leb_spec (num_splats c) dispatch_thread_id) as [_ | Hlt];
    [|lia].
  repeat split.
Qed.

Lemma out_of_range_invocation_is_noop_witness :
  (num_splats example_constants <= 1)%nat
  /\ covariance_main example_host example_constants [packed_x2; packed_z1]
       [(0%Z, 0%Z); (0%Z, 0%Z)] [float4_zero; float4_zero] 1
     = [float4_zero; float4_zero]
  /\ distance_main example_constants [packed_x2; packed_z1]
       (SortBuffers [7%Z; 7%Z] [9%Z; 9%Z]) 1
     = SortBuffers [7%Z; 7%Z] [9%Z; 9%Z].
Proof.
  assert (H : (num_splats example_constants <= 1)%nat) by (simpl; lia).
  destruct (out_of_range_invocation_is_noop example_host example_constants
              [packed_x2; packed_z1] [(0%Z, 0%Z); (0%Z, 0%Z)]
              [float4_zero; float4_zero]
              (SortBuffers [7%Z; 7%Z] [9%Z; 9%Z]) 1%nat H)
    as (Hc & Hd & _).
  split; [exact H|]. split; [exact Hc | exact Hd].
Defined.

End ShaderFacts.

Module PlyFacts.
Import Ply.
Local Open Scope string_scope.

(** *** Views *)

Lemma append_nil (a : string) : EmptyString ++ a = a.
Proof. reflexivity. Qed.

Lemma append_cons (c : ascii) (a b : string) :
  String c a ++ b = String c (a ++ b).
Proof. reflexivity. Qed.

Lemma append_assoc (a b c : string) : (a ++ b) ++ c = a ++ (b ++ c).
Proof.
  induction a as [|x a IH]; [reflexivity|].
  rewrite !append_cons, IH. reflexivity.
Qed.

Lemma find_if_bound (P : ascii -> bool) (s : string) (i : nat) :
  find_if P s = Some i -> (i < String.length s)%nat.
Proof.
  revert i. induction s as [|c s IH]; intros i; simpl; [discriminate|].
  destruct (P c); [intros [= <-]; lia|].
  destruct (find_if P s) as [j|]; simpl; [|discriminate].
  intros [= <-]. specialize (IH j eq_refl). lia.
Qed.

Lemma find_if_remove_prefix (P : ascii -> bool) (s : string) (i : nat) :
  find_if P s = Some i -> find_if P (remove_prefix i s) = Some O.
Proof.
  revert i. induction s as [|c s IH]; intros i; simpl; [discriminate|].
  destruct (P c) eqn:Hc.
  - intros [= <-]. simpl. now rewrite Hc.
  - destruct (find_if P s) as [j|]; simpl; [|discriminate].
    intros [= <-]. simpl. now apply IH.
Qed.

Lemma remove_prefix_add (i j : nat) (s : string) :
  remove_prefix (i + j) s = remove_prefix j (remove_prefix i s).
Proof.
  revert s. induction i as [|i IH]; intros s; simpl; [reflexivity|].
  destruct s as [|c s]; [destruct j; reflexivity | apply IH].
Qed.

Lemma ends_with_remove_prefix (P : ascii -> bool) (n : nat) (s : string) :
  ends_with P s = true -> (n < String.length s)%nat ->
  ends_with P (remove_prefix n s) = true.
Proof.
  revert s. induction n as [|n IH]; intros s Hs Hn; [exact Hs|].
  destruct s as [|c s]; [simpl in Hn; lia|].
  simpl in Hn. simpl remove_prefix. apply IH; [|lia].
  destruct s as [|c' s]; [simpl in Hn; lia | exact Hs].
Qed.

Lemma ends_with_find_if (P : ascii -> bool) (s : string) :
  ends_with P s = true -> exists i, find_if P s = Some i.
Proof.
  induction s as [|c s IH]; [discriminate|].
  intros Hs. simpl find_if. destruct (P c) eqn:Hc; [eauto|].
  destruct s as [|c' s]; [simpl in Hs; congruence|].
  destruct (IH Hs) as [i ->]. simpl. eauto.
Qed.

Lemma find_last_if_none (P : ascii -> bool) (s : string) :
  find_last_if P s = None -> find_if P s = None.
Proof.
  induction s as [|c s IH]; [reflexivity|]. simpl.
  destruct (find_last_if P s); [discriminate|].
  destruct (P c); [discriminate|]. intros _. now rewrite IH.
Qed.

Lemma find_last_if_ends (P : ascii -> bool) (s : string) (e : nat) :
  find_last_if P s = Some e -> ends_with P (substr_to (S e) s) = true.
Proof.
  revert e. induction s as [|c s IH]; intros e; [discriminate|]. simpl.
  destruct (find_last_if P s) as [i|] eqn:Hl.
  - intros [= <-]. specialize (IH i eq_refl).
    destruct s as [|c' s]; [discriminate | exact IH].
  - destruct (P c) eqn:Hc; [|discriminate]. intros [= <-].
    destruct s; reflexivity.
Qed.

Lemma find_if_substr_to (P : ascii -> bool) (s : string) (n : nat) :
  find_if P s = Some O -> find_if P (substr_to (S n) s) = Some O.
Proof.
  destruct s as [|c s]; [discriminate|]. simpl.
  destruct (P c); [reflexivity|].
  destruct (find_if P s); discriminate.
Qed.

Lemma substr_to_append (l r : string) : substr_to (String.length l) (l ++ r) = l.
Proof.
  induction l as [|c l IH]; [destruct r; reflexivity|].
  rewrite append_cons. simpl. now rewrite IH.
Qed.

Lemma remove_prefix_append (l r : string) :
  remove_prefix (String.length l) (l ++ r) = r.
Proof.
  induction l as [|c l IH]; [reflexivity|]. rewrite append_cons. exact IH.
Qed.

Lemma find_if_cons (P : ascii -> bool) (c : ascii) (s : string) :
  find_if P (String c s)
  = if P c then Some O else option_map S (find_if P s).
Proof. reflexivity. Qed.

Lemma find_newline_append (l rest : string) :
  no_newline l -> find newline (l ++ nl ++ rest) = Some (String.length l).
Proof.
  unfold no_newline, find.
  induction l as [|c l IH]; [intros _; apply find_if_cons|].
  rewrite append_cons, !find_if_cons.
  destruct (Ascii.eqb newline c); [discriminate|].
  destruct (find_if (Ascii.eqb newline) l) eqn:Hf; [discriminate|].
  intros _. rewrite (IH eq_refl). reflexivity.
Qed.

(** *** Lines *)

(** [pop_line] on a line closed by a line feed: the trimmed line, and the
    text after the line feed. *)
Lemma pop_line_terminated (l rest : string) :
  no_newline l ->
  pop_line (l ++ nl ++ rest)
  = match trim_line l with
    | None => (None, l ++ nl ++ rest)
    | Some line => (Some line, rest)
    end.
Proof.
  intros Hl. unfold pop_line. rewrite find_newline_append by assumption.
  rewrite substr_to_append.
  destruct (trim_line l); [|reflexivity].
  f_equal. change (S (String.length l)) with (1 + String.length l)%nat.
  rewrite Nat.add_comm, remove_prefix_add, remove_prefix_append.
  reflexivity.
Qed.

Lemma trim_line_trimmed (l line : string) :
  trim_line l = Some line -> trimmed line.
Proof.
  unfold trim_line, find_first_not_of, find_last_not_of.
  destruct (find_if _ l) as [start|] eqn:Hs; [|discriminate].
  apply find_if_remove_prefix in Hs.
  destruct (find_last_if _ (remove_prefix start l)) as [e|] eqn:He.
  - intros [= <-]. split.
    + apply find_if_substr_to, Hs.
    + apply (find_last_if_ends _ _ _ He).
  - apply find_last_if_none in He. congruence.
Qed.

(** On a trimmed view [pop_token] finds a token and leaves a trimmed view. *)
Lemma pop_token_trimmed (line : string) :
  trimmed line ->
  exists token rest, pop_token line = Ok (Some token, rest) /\ trimmed rest.
Proof.
  intros [Hfirst Hlast]. unfold pop_token. rewrite Hfirst.
  destruct (find_first_of whitespace_chars line) as [i|] eqn:Hi.
  - pose proof (find_if_bound _ _ _ Hi) as Hlt.
    pose proof (ends_with_remove_prefix _ i line Hlast Hlt) as Hend.
    destruct (ends_with_find_if _ _ Hend) as [j Hj].
    unfold find_first_not_of_from, find_first_not_of.
    unfold not_whitespace in Hj. rewrite Hj. simpl.
    eexists _, _. split; [reflexivity|].
    rewrite remove_prefix_add. split.
    + apply find_if_remove_prefix, Hj.
    + apply ends_with_remove_prefix; [exact Hend|].
      apply (find_if_bound _ _ _ Hj).
  - eexists _, _. split; [reflexivity|]. split; assumption.
Qed.

(** *** One turn of the header loop *)

Lemma type_map_F32 (token : string) (t : PropertyFormat.t) :
  table_lookup token type_map = Some t -> t = PropertyFormat.F32.
Proof.
  unfold type_map. simpl.
  destruct (String.eqb token "float"); [congruence|].
  destruct (String.eqb token "float32"); congruence.
Qed.

#[local] Arguments table_lookup : simpl never.
#[local] Arguments from_chars : simpl never.
#[local] Arguments add_property : simpl never.

(** With a type taken from [type_map], [add_property] returns. *)
Lemma add_property_F32 (p : SplatParserPly) (property : Property.t) :
  exists added p',
    add_property p property PropertyFormat.F32 = Ok (added, p').
Proof.
  unfold add_property.
  destruct property; simpl; try destruct (layout p !! _); simpl; eauto.
Qed.

Lemma element_line_trimmed (p : SplatParserPly) (line rest : string) :
  trimmed line -> goes_on_or_fails rest (element_line p line rest).
Proof.
  intros Ht. unfold element_line.
  destruct (negb _); [exact I|].
  destruct (pop_token_trimmed line Ht) as (tok & r1 & -> & Ht1). simpl.
  destruct (negb _); [exact I|].
  destruct (pop_token_trimmed r1 Ht1) as (tok2 & r2 & -> & _). simpl.
  destruct (from_chars tok2) as [count|]; [|exact I].
  destruct (count =? 0)%Z; simpl; trivial.
Qed.

Lemma property_line_trimmed (p : SplatParserPly) (line rest : string) :
  trimmed line -> goes_on_or_fails rest (property_line p line rest).
Proof.
  intros Ht. unfold property_line.
  destruct (num_splats p =? 0)%Z; [exact I|].
  destruct (pop_token_trimmed line Ht) as (tok & r1 & -> & Ht1). simpl.
  destruct (table_lookup tok type_map) as [t|] eqn:Hty; [|exact I].
  apply type_map_F32 in Hty. subst t.
  destruct (pop_token_trimmed r1 Ht1) as (tok2 & r2 & -> & _). simpl.
  destruct (table_lookup tok2 property_map) as [prop|].
  - destruct (add_property_F32 p prop) as (added & p' & ->). simpl.
    destruct added; simpl; trivial.
  - reflexivity.
Qed.

Lemma header_step_terminated (p : SplatParserPly) (l rest : string) :
  no_newline l ->
  first_token l <> Some "end_header" ->
  goes_on_or_fails rest (header_step p (l ++ nl ++ rest)).
Proof.
  intros Hl Hend. unfold header_step.
  rewrite pop_line_terminated by assumption.
  unfold first_token in Hend.
  destruct (trim_line l) as [line|] eqn:Htrim; [|exact I].
  apply trim_line_trimmed in Htrim.
  destruct (pop_token_trimmed line Htrim) as (tok & r1 & Hpop & Ht1).
  rewrite Hpop in Hend |- *. simpl.
  destruct (String.eqb tok "comment"); [reflexivity|].
  destruct (String.eqb tok "element");
    [apply element_line_trimmed, Ht1|].
  destruct (String.eqb tok "property");
    [apply property_line_trimmed, Ht1|].
  destruct (String.eqb_spec tok "end_header") as [-> | _];
    [congruence | exact I].
Qed.

(** A property line of another type makes the turn return [false]. *)
Lemma header_step_other_type (p : SplatParserPly) (l rest : string) :
  no_newline l ->
  property_line_of_other_type l = true ->
  exists p', header_step p (l ++ nl ++ rest) = Ok (Return false p').
Proof.
  intros Hl Hbad. unfold header_step.
  rewrite pop_line_terminated by assumption.
  unfold property_line_of_other_type in Hbad.
  destruct (trim_line l) as [line|]; [|discriminate].
  destruct (pop_token line) as [[[tok|] r1]|]; try discriminate.
  apply andb_true_iff in Hbad. destruct Hbad as [Htok Hty].
  apply String.eqb_eq in Htok. subst tok. simpl.
  unfold property_line.
  destruct (num_splats p =? 0)%Z; [eauto|].
  destruct (pop_token r1) as [[[ty|] r2]|]; try discriminate. simpl.
  destruct (table_lookup ty type_map); [discriminate | eauto].
Qed.

(** The loop, started anywhere before such a line in the header, returns
    [false]. *)
Lemma header_loop_other_type (lines : list string) (l after : string) :
  Forall no_newline lines ->
  Forall (fun x => first_token x <> Some "end_header") lines ->
  no_newline l ->
  property_line_of_other_type l = true ->
  forall (fuel : nat) (p : SplatParserPly),
    (List.length lines < fuel)%nat ->
    exists p',
      header_loop fuel p (terminated lines ++ l ++ nl ++ after)
      = Ok (false, p').
Proof.
  intros Hnl Hend Hl Hbad.
  induction lines as [|b lines IH]; intros fuel p Hfuel.
  - destruct fuel as [|fuel]; [simpl in Hfuel; lia|].
    simpl terminated. rewrite append_nil. simpl header_loop.
    destruct (header_step_other_type p l after Hl Hbad) as [p' ->].
    simpl. eauto.
  - destruct fuel as [|fuel]; [simpl in Hfuel; lia|].
    simpl in Hfuel.
    apply Forall_cons in Hnl. destruct Hnl as [Hb Hnl].
    apply Forall_cons in Hend. destruct Hend as [Hbe Hend].
    simpl terminated. rewrite !append_assoc. simpl header_loop.
    pose proof (header_step_terminated p b
                  (terminated lines ++ l ++ nl ++ after) Hb Hbe) as Hstep.
    destruct (header_step p _) as [[p1 text | [|] p1] | why];
      simpl in Hstep; try contradiction.
    + subst text. simpl. apply (IH Hnl Hend). lia.
    + simpl. eauto.
Qed.

(** *** [parse_header] and [parse_metadata] *)

Lemma other_type_inv (l : string) :
  property_line_of_other_type l = true ->
  exists line rest,
    trim_line l = Some line /\ pop_token line = Ok (Some "property", rest).
Proof.
  unfold property_line_of_other_type.
  destruct (trim_line l) as [line|]; [|discriminate].
  destruct (pop_token line) as [[[tok|] r1]|] eqn:Hpop; try discriminate.
  intros H. apply andb_true_iff in H. destruct H as [Htok _].
  apply String.eqb_eq in Htok. subst tok.
  exists line, r1. split; [reflexivity | exact Hpop].
Qed.

Lemma parse_header_other_type (fuel : nat) (p : SplatParserPly)
    (before : list string) (l after : string) :
  Forall no_newline before ->
  no_newline l ->
  Forall (fun x => first_token x <> Some "end_header") (drop 2 before) ->
  property_line_of_other_type l = true ->
  (List.length before <= fuel)%nat ->
  buffer p = terminated before ++ l ++ nl ++ after ->
  exists p', parse_header fuel p = Ok (false, p').
Proof.
  intros Hnl Hl Hend Hbad Hfuel Hbuf.
  destruct (other_type_inv l Hbad) as (line & r & Htrim & Hpop).
  unfold parse_header. rewrite Hbuf.
  destruct before as [|b0 before].
  - simpl terminated. rewrite append_nil.
    rewrite pop_line_terminated, Htrim by assumption.
    destruct (String.eqb_spec line "ply") as [-> | _]; simpl; [|eauto].
    vm_compute in Hpop. discriminate Hpop.
  - apply Forall_cons in Hnl. destruct Hnl as [Hb0 Hnl].
    simpl terminated. rewrite !append_assoc.
    rewrite pop_line_terminated by assumption.
    destruct (trim_line b0) as [line0|]; [|eauto].
    destruct (negb (String.eqb line0 "ply")); [eauto|].
    destruct before as [|b1 before].
    + simpl terminated. rewrite append_nil.
      rewrite pop_line_terminated, Htrim by assumption.
      rewrite Hpop. simpl. eauto.
    + apply Forall_cons in Hnl. destruct Hnl as [Hb1 Hnl].
      simpl terminated. rewrite !append_assoc.
      rewrite pop_line_terminated by assumption.
      destruct (trim_line b1) as [line1|] eqn:Ht1; [|eauto].
      apply trim_line_trimmed in Ht1.
      destruct (pop_token_trimmed line1 Ht1) as (tok & r1 & -> & Hr1).
      simpl.
      destruct (negb (String.eqb tok "format")); [eauto|].
      destruct (pop_token_trimmed r1 Hr1) as (ftok & r2 & -> & Hr2).
      simpl.
      destruct (table_lookup ftok format_map) as [f|]; [|eauto].
      destruct (pop_token_trimmed r2 Hr2) as (vtok & r3 & -> & _).
      simpl.
      apply header_loop_other_type; try assumption.
      simpl in Hfuel. lia.
Qed.

(** With no log receiver installed, only [float] and [float32] are accepted
    as property types: for every file whose header contains a property line
    with any other type, [parse_metadata] returns [false], also when the
    property's name is one the importer would ignore.  The header is given
    by its lines; the line [l] belongs to it because no earlier line ends
    the header. *)
Theorem other_property_type_rejected (fuel : nat) (p : SplatParserPly)
    (before : list string) (l after : string) (metadata : Metadata) :
  Forall no_newline before ->
  no_newline l ->
  Forall (fun x => first_token x <> Some "end_header") (drop 2 before) ->
  property_line_of_other_type l = true ->
  (List.length before <= fuel)%nat ->
  exists p',
    parse_metadata fuel p (terminated before ++ l ++ nl ++ after) metadata
    = Ok (false, p', metadata).
Proof.
  intros Hnl Hl Hend Hbad Hfuel. unfold parse_metadata.
  destruct (parse_header_other_type fuel
              (set_buffer (terminated before ++ l ++ nl ++ after) p)
              before l after Hnl Hl Hend Hbad Hfuel eq_refl) as [p' ->].
  simpl. eauto.
Qed.

Lemma other_property_type_rejected_witness :
  Forall no_newline example_header_lines
  /\ no_newline "property uchar red"
  /\ Forall (fun x => first_token x <> Some "end_header")
            (drop 2 example_header_lines)
  /\ property_line_of_other_type "property uchar red" = true
  /\ (List.length example_header_lines <= 4)%nat
  /\ exists p',
       parse_metadata 4 new_parser
         (terminated example_header_lines ++ "property uchar red" ++ nl
          ++ terminated ["end_header"])
         empty_metadata
       = Ok (false, p', empty_metadata).
Proof.
  assert (H1 : Forall no_newline example_header_lines)
    by (repeat constructor).
  assert (H2 : no_newline "property uchar red") by reflexivity.
  assert (H3 : Forall (fun x => first_token x <> Some "end_header")
                      (drop 2 example_header_lines))
    by (repeat constructor; vm_compute; discriminate).
  assert (H4 : property_line_of_other_type "property uchar red" = true)
    by reflexivity.
  assert (H5 : (List.length example_header_lines <= 4)%nat)
    by (simpl; lia).
  split; [exact H1|]. split; [exact H2|]. split; [exact H3|].
  split; [exact H4|]. split; [exact H5|].
  exact (other_property_type_rejected 4 new_parser example_header_lines
           "property uchar red" (terminated ["end_header"]) empty_metadata
           H1 H2 H3 H4 H5).
Defined.

(** The name of the property plays no part: an unknown name with another
    type is rejected as well. *)
Example ignored_name_other_type :
  table_lookup "nx" property_map = None
  /\ property_line_of_other_type "property double nx" = true.
Proof. split; reflexivity. Qed.

(** With no log receiver installed, whenever [parse_metadata] returns
    [false] the caller's [metadata] is as it was; where it differs
    afterwards, the header has parsed successfully and the size remaining in
    the buffer equals the size the parser computed, in [size_t], from
    [num_splats] and the record size. *)
Theorem failed_parse_leaves_metadata (fuel : nat) (p p' : SplatParserPly)
    (ply_buffer : string) (metadata metadata' : Metadata) (ok : bool) :
  parse_metadata fuel p ply_buffer metadata = Ok (ok, p', metadata') ->
  (ok = false -> metadata' = metadata)
  /\ (metadata' <> metadata ->
      ok = true
      /\ parse_header fuel (set_buffer ply_buffer p) = Ok (true, p')
      /\ Z.of_nat (String.length (buffer p'))
         = size_t (num_splats p' * splat_size p')
      /\ metadata' = write_metadata p' metadata).
Proof.
  unfold parse_metadata.
  destruct (parse_header fuel (set_buffer ply_buffer p))
    as [[[|] p1] | why]; simpl; [| |discriminate].
  - destruct (Z.eqb_spec (Z.of_nat (String.length (buffer p1)))
                (size_t (num_splats p1 * splat_size p1))) as [Hsz | Hsz];
      simpl; intros [= <- <- <-].
    + split; [discriminate|]. intros _. repeat split. exact Hsz.
    + split; [reflexivity|]. intros Hne. contradiction.
  - intros [= <- <- <-]. split; [reflexivity|]. intros Hne. contradiction.
Qed.

Lemma failed_parse_leaves_metadata_witness :
  (parse_metadata 4 new_parser (terminated ["plx"]) empty_metadata
   = Ok (false, set_buffer (terminated ["plx"]) new_parser, empty_metadata)
   /\ empty_metadata = empty_metadata)
  /\ (parse_metadata 8 new_parser example_file empty_metadata
      = Ok (true,
            mkSplatParserPly PlyFormat.BinaryLittleEndian
              {[ Property.X := mkPropertyDesc 0 PropertyFormat.F32 ]}
              1 4 "abcd",
            mkMetadata {[ Property.X := PropertyFormat.F32 ]} 1)
      /\ mkMetadata {[ Property.X := PropertyFormat.F32 ]} 1 <> empty_metadata
      /\ Z.of_nat (String.length "abcd") = size_t (1 * 4)).
Proof.
  assert (H : parse_metadata 4 new_parser (terminated ["plx"]) empty_metadata
              = Ok (false, set_buffer (terminated ["plx"]) new_parser,
                    empty_metadata)) by reflexivity.
  assert (G : parse_metadata 8 new_parser example_file empty_metadata
              = Ok (true,
                    mkSplatParserPly PlyFormat.BinaryLittleEndian
                      {[ Property.X := mkPropertyDesc 0 PropertyFormat.F32 ]}
                      1 4 "abcd",
                    mkMetadata {[ Property.X := PropertyFormat.F32 ]} 1))
    by (vm_compute; reflexivity).
  assert (Hne : mkMetadata {[ Property.X := PropertyFormat.F32 ]} 1
                <> empty_metadata).
  { intros Heq. apply (f_equal md_num_splats) in Heq. discriminate Heq. }
  split.
  - split; [exact H|].
    exact (proj1 (failed_parse_leaves_metadata 4 new_parser _ _ _ _ _ H)
             eq_refl).
  - split; [exact G|]. split; [exact Hne|].
    destruct (proj2 (failed_parse_leaves_metadata 8 new_parser _ _ _ _ _ G)
                Hne) as (_ & _ & Hsz & _).
    exact Hsz.
Defined.

(** *** The model on whole files *)

(** A well-formed binary file is accepted, its one property recorded. *)
Example example_file_accepted :
  exists p',
    parse_metadata 8 new_parser example_file empty_metadata
    = Ok (true, p', mkMetadata {[ Property.X := PropertyFormat.F32 ]} 1)
    /\ format p' = PlyFormat.BinaryLittleEndian
    /\ splat_size p' = 4%Z
    /\ buffer p' = "abcd".
Proof. eexists. split; [vm_compute; reflexivity|]. repeat split. Qed.

(** [parse_data] then hands the record to the callback, little end first. *)
Example example_file_data :
  parse_data
    (mkSplatParserPly PlyFormat.BinaryLittleEndian
       {[ Property.X := mkPropertyDesc 0 PropertyFormat.F32 ]} 1 4 "abcd")
    (fun i get seen => app seen [(i, get Property.X, get Property.Y)]) []
  = (true, [(0%nat, Ok (Float 1684234849), Abort OutOfRange)]).
Proof. vm_compute. reflexivity. Qed.

Example full_metadata_valid : validate_metadata full_metadata = true.
Proof. vm_compute. reflexivity. Qed.

Example empty_metadata_invalid : validate_metadata empty_metadata = false.
Proof. vm_compute. reflexivity. Qed.

(** Without a closing line feed [pop_line] returns the text and leaves it in
    place, so a last line [comment] is read again and again: the loop has
    no turn at which it returns, whatever the fuel. *)
Remark unterminated_comment_never_returns (fuel : nat) (p : SplatParserPly) :
  header_loop fuel p "comment" = Abort NoFuel.
Proof.
  induction fuel as [|fuel IH]; [reflexivity|].
  change (header_loop (S fuel) p "comment")
    with (header_loop fuel p "comment").
  exact IH.
Qed.

(** *** Failing fast *)

Lemma all_present_missing (required : list Property.t) (metadata : Metadata)
    (property : Property.t) :
  In property required ->
  properties metadata !! property = None ->
  all_present required metadata = false.
Proof.
  intros Hin Hmiss. induction required as [|q required IH]; [contradiction|].
  simpl. destruct Hin as [-> | Hin].
  - rewrite Hmiss. reflexivity.
  - destruct (properties metadata !! q); [apply IH, Hin | reflexivity].
Qed.

(** [validate_metadata] rejects metadata lacking any required property. *)
Lemma validate_metadata_missing (metadata : Metadata) (property : Property.t) :
  In property required_properties ->
  properties metadata !! property = None ->
  validate_metadata metadata = false.
Proof. apply all_present_missing. Qed.

Lemma required_properties_count : List.length required_properties = 14%nat.
Proof. reflexivity. Qed.

(** [parse_metadata] rejects a buffer whose remaining size differs from the
    size the parser computes, and writes nothing. *)
Lemma parse_metadata_size_mismatch (fuel : nat) (p p1 : SplatParserPly)
    (ply_buffer : string) (metadata : Metadata) :
  parse_header fuel (set_buffer ply_buffer p) = Ok (true, p1) ->
  Z.of_nat (String.length (buffer p1))
  <> size_t (num_splats p1 * splat_size p1) ->
  parse_metadata fuel p ply_buffer metadata = Ok (false, p1, metadata).
Proof.
  intros Hhdr Hsz. unfold parse_metadata. rewrite Hhdr. simpl.
  destruct (Z.eqb_spec (Z.of_nat (String.length (buffer p1)))
              (size_t (num_splats p1 * splat_size p1))); [contradiction|].
  reflexivity.
Qed.

(** As long as the product fits a [size_t], the check is the exact one:
    a remaining size other than [num_splats] times the record size is
    rejected. *)
Lemma parse_metadata_size_mismatch_exact (fuel : nat)
    (p p1 : SplatParserPly) (ply_buffer : string) (metadata : Metadata) :
  parse_header fuel (set_buffer ply_buffer p) = Ok (true, p1) ->
  (0 <= num_splats p1 * splat_size p1 < 2 ^ 64)%Z ->
  Z.of_nat (String.length (buffer p1)) <> (num_splats p1 * splat_size p1)%Z ->
  parse_metadata fuel p ply_buffer metadata = Ok (false, p1, metadata).
Proof.
  intros Hhdr Hfit Hsz. apply parse_metadata_size_mismatch; [exact Hhdr|].
  unfold size_t. rewrite Z.mod_small by exact Hfit. exact Hsz.
Qed.

(** [parse_data] rejects the ASCII encoding before any splat is handed to
    the caller. *)
Lemma parse_data_ascii {A : Type} (p : SplatParserPly)
    (parse_splat : nat -> GetPropertyFn -> A -> A) (a : A) :
  format p = PlyFormat.ASCII -> parse_data p parse_splat a = (false, a).
Proof. intros Hf. unfold parse_data. rewrite Hf. reflexivity. Qed.

(** C8, at the input on which the code departs from it. The file declares
    2^62 records of four bytes and holds no data: the expected size wraps
    round to 0 in [size_t], equals the 0 bytes remaining, and
    [parse_metadata] returns [true] with [num_splats] = 2^62, although the
    remaining size differs from [num_splats] times the record size. *)
Theorem size_check_wraps_around :
  exists p',
    parse_metadata 8 new_parser overflowing_file empty_metadata
    = Ok (true, p',
          mkMetadata {[ Property.X := PropertyFormat.F32 ]}
                     4611686018427387904)
    /\ num_splats p' = 4611686018427387904%Z
    /\ splat_size p' = 4%Z
    /\ buffer p' = EmptyString
    /\ Z.of_nat (String.length (buffer p')) <> (num_splats p' * splat_size p')%Z.
Proof.
  eexists. split; [vm_compute; reflexivity|].
  repeat split. vm_compute. discriminate.
Qed.

End PlyFacts.

(** ** Field extraction, for every layout *)

Module UnpackingFields.
Import Unpacking UnpackingFacts.
Local Open Scope Z_scope.

Lemma shl_small (a b : Z) : 0 <= b < 32 -> shl a b = (a * 2 ^ b) mod 2 ^ 32.
Proof.
  intros Hb. unfold shl, u32. rewrite (Z.mod_small b 32) by lia.
  rewrite Z.shiftl_mul_pow2 by lia. reflexivity.
Qed.

Lemma shr_small (a b : Z) : 0 <= b < 32 -> shr a b = a / 2 ^ b.
Proof.
  intros Hb. unfold shr. rewrite (Z.mod_small b 32) by lia.
  apply Z.shiftr_div_pow2. lia.
Qed.

Lemma unorm_mask (bits : Z) :
  0 <= bits <= 31 -> u32 (shl 1 bits - 1) = Z.ones bits.
Proof.
  intros Hb. rewrite shl_small by lia. rewrite Z.mul_1_l.
  assert (H1 : 0 < 2 ^ bits) by (apply Z.pow_pos_nonneg; lia).
  assert (H2 : 2 ^ bits < 2 ^ 32) by (apply Z.pow_lt_mono_r; lia).
  rewrite (Z.mod_small (2 ^ bits)) by lia.
  rewrite u32_small by lia. rewrite Z.ones_equiv. lia.
Qed.

Lemma unorm_field_value (bits packed offset : Z) :
  0 <= bits <= 31 -> 0 <= offset <= 31 ->
  unpack_unorm_bits bits packed offset = (packed / 2 ^ offset) mod 2 ^ bits.
Proof.
  intros Hb Ho. unfold unpack_unorm_bits. rewrite unorm_mask by lia.
  destruct (Z.eqb_spec offset 0) as [-> | Hne].
  - rewrite Z.land_ones by lia. rewrite Z.pow_0_r, Z.div_1_r. reflexivity.
  - rewrite shr_small by lia. apply Z.land_ones. lia.
Qed.

Lemma unorm_field_range (bits packed offset : Z) :
  0 <= bits <= 31 -> 0 <= offset <= 31 ->
  0 <= unpack_unorm_bits bits packed offset < 2 ^ bits.
Proof.
  intros Hb Ho. rewrite unorm_field_value by assumption.
  apply Z.mod_pos_bound. apply Z.pow_pos_nonneg; lia.
Qed.

(** X1. [unpack_unorm] extracts the field of [bits] bits that starts at bit
    [offset] of the packed word: the integer it converts is
    [(packed / 2^offset) mod 2^bits], so it lies in [0, 2^bits).  This holds
    for every width up to 31 and every offset inside the word, on the branch
    that skips the shift ([offset = 0]) as on the other. *)
Theorem unpack_unorm_field (bits packed offset : Z) :
  0 <= bits <= 31 -> 0 <= offset <= 31 ->
  unpack_unorm_bits bits packed offset = (packed / 2 ^ offset) mod 2 ^ bits
  /\ 0 <= unpack_unorm_bits bits packed offset < 2 ^ bits.
Proof.
  intros Hb Ho. split.
  - apply unorm_field_value; assumption.
  - apply unorm_field_range; assumption.
Qed.

Lemma unpack_unorm_field_witness :
  (0 <= 11 <= 31) /\ (0 <= 11 <= 31)
  /\ unpack_unorm_bits 11 6148 11 = (6148 / 2 ^ 11) mod 2 ^ 11
  /\ 0 <= unpack_unorm_bits 11 6148 11 < 2 ^ 11.
Proof.
  assert (Hb : 0 <= 11 <= 31) by lia.
  split; [exact Hb|]. split; [exact Hb|].
  exact (unpack_unorm_field 11 6148 11 Hb Hb).
Defined.

Lemma f16_mask_ones (s e m : Z) :
  0 <= s <= 1 -> 0 <= e -> 0 <= m -> e + m <= 14 ->
  f16_mask s e m = Z.shiftl (Z.ones (s + e + m)) (15 - e - m).
Proof.
  intros Hs He Hm Hem. unfold f16_mask.
  rewrite f16_shift_small by lia. unfold shl.
  rewrite (Z.mod_small (15 - e - m) 32) by lia.
  rewrite (Z.mod_small (s + e + m) 32) by lia.
  rewrite Z.shiftl_1_l.
  assert (Hpow : 2 ^ (s + e + m) <= 2 ^ 15) by (apply Z.pow_le_mono_r; lia).
  assert (Hpos : 0 < 2 ^ (s + e + m)) by (apply Z.pow_pos_nonneg; lia).
  rewrite (u32_small (2 ^ (s + e + m))) by lia.
  rewrite (u32_small (2 ^ (s + e + m) - 1)) by lia.
  replace (2 ^ (s + e + m) - 1) with (Z.ones (s + e + m))
    by (rewrite Z.ones_equiv; lia).
  apply u32_small. rewrite Z.shiftl_mul_pow2 by lia.
  rewrite Z.ones_equiv.
  assert (Hprod : 2 ^ (s + e + m) * 2 ^ (15 - e - m) = 2 ^ (15 + s)).
  { rewrite <- Z.pow_add_r by lia. f_equal. lia. }
  assert (Hle : 2 ^ (15 + s) <= 2 ^ 16) by (apply Z.pow_le_mono_r; lia).
  assert (Hpos' : 0 < 2 ^ (15 - e - m)) by (apply Z.pow_pos_nonneg; lia).
  split; [apply Z.mul_nonneg_nonneg; lia|].
  change (2 ^ 32) with (2 ^ 16 * 2 ^ 16). nia.
Qed.

Lemma shift_only_bit (e m packed offset i : Z) :
  0 <= e -> 0 <= m -> e + m <= 14 -> 0 <= offset <= 31 ->
  0 <= i < 32 ->
  Z.testbit (extract_shift_only e m packed offset) i
  = Z.testbit packed (i - (15 - e - m) + offset).
Proof.
  intros He Hm Hem Ho Hi. unfold extract_shift_only.
  rewrite f16_shift_small by lia.
  destruct (Z.ltb_spec offset (15 - e - m)) as [Hlt | Hge].
  - rewrite u32_small by lia. unfold shl, u32.
    rewrite (Z.mod_small (15 - e - m - offset) 32) by lia.
    rewrite Z.mod_pow2_bits_low by lia.
    rewrite Z.shiftl_spec by lia. f_equal. lia.
  - rewrite u32_small by lia. unfold shr.
    rewrite (Z.mod_small (offset - (15 - e - m)) 32) by lia.
    rewrite Z.shiftr_spec by lia. f_equal. lia.
Qed.

Lemma f16_field_pattern (s e m packed offset : Z) :
  field_ok s e m offset ->
  half_pattern (unpack_f16_bits s e m packed offset)
  = ((packed / 2 ^ offset) mod 2 ^ (s + e + m)) * 2 ^ (15 - e - m).
Proof.
  intros Hok. rewrite unpack_f16_bits_masked by exact Hok.
  destruct Hok as (Hs & He & Hm & Hem & Ho).
  unfold extract_masked, half_pattern.
  rewrite f16_mask_ones by lia.
  apply Z.bits_inj'. intros i Hi.
  rewrite !Z.land_spec, Z.mul_pow2_bits by lia.
  change 65535 with (Z.ones 16).
  destruct (Z.ltb_spec i (15 - e - m)) as [Hlow | Hhigh].
  - rewrite (Z.testbit_neg_r _ (i - (15 - e - m))) by lia.
    rewrite Z.shiftl_spec by lia.
    rewrite (Z.testbit_neg_r _ (i - (15 - e - m))) by lia.
    rewrite andb_false_r. reflexivity.
  - rewrite Z.shiftl_spec by lia.
    destruct (Z.ltb_spec (i - (15 - e - m)) (s + e + m)) as [Hin | Hout].
    + rewrite Z.mod_pow2_bits_low by lia.
      rewrite Z.ones_spec_low by lia.
      rewrite Z.ones_spec_low by lia.
      rewrite !andb_true_r.
      rewrite shift_only_bit by lia.
      rewrite <- Z.shiftr_div_pow2 by lia.
      rewrite Z.shiftr_spec by lia. f_equal.
    + rewrite Z.mod_pow2_bits_high by lia.
      rewrite (Z.ones_spec_high (s + e + m)) by lia.
      rewrite andb_false_r. reflexivity.
Qed.

(** X2. For every field layout ([s] sign bits, [e] exponent bits, [m]
    mantissa bits, starting at bit [offset]) the float16 that [unpack_f16]
    hands to [f16tof32] is the [s + e + m]-bit field of the packed word,
    moved so that its top bit meets the top of the half layout it fills:
    [((packed / 2^offset) mod 2^(s+e+m)) * 2^(15-e-m)].  The bits below the
    field are zero and nothing of the neighbouring fields remains, on all
    three branches of the function. *)
Theorem unpack_f16_field (s e m packed offset : Z) :
  field_ok s e m offset ->
  half_pattern (unpack_f16_bits s e m packed offset)
  = ((packed / 2 ^ offset) mod 2 ^ (s + e + m)) * 2 ^ (15 - e - m)
  /\ 0 <= half_pattern (unpack_f16_bits s e m packed offset) < 2 ^ 16.
Proof.
  intros Hok. split; [apply f16_field_pattern; exact Hok|].
  unfold half_pattern. change 65535 with (Z.ones 16).
  rewrite Z.land_ones by lia. apply Z.mod_pos_bound. lia.
Qed.

Lemma unpack_f16_field_witness :
  field_ok 0 5 5 22
  /\ half_pattern (unpack_f16_bits 0 5 5 4194304000 22)
     = ((4194304000 / 2 ^ 22) mod 2 ^ (0 + 5 + 5)) * 2 ^ (15 - 5 - 5)
  /\ 0 <= half_pattern (unpack_f16_bits 0 5 5 4194304000 22) < 2 ^ 16.
Proof.
  assert (Hok : field_ok 0 5 5 22) by (unfold field_ok; lia).
  split; [exact Hok|].
  exact (unpack_f16_field 0 5 5 4194304000 22 Hok).
Defined.

End UnpackingFields.

(** ** The kernels and the two render stages *)

Module ShaderKernels.
Import Unpacking Shaders ShaderNotions UnpackingFacts UnpackingFields ShaderFacts.
Local Open Scope R_scope.

Lemma Int_part_le (x y : R) : x <= y -> (Int_part x <= Int_part y)%Z.
Proof.
  intros Hxy. destruct (base_Int_part x) as [Hx _].
  destruct (base_Int_part y) as [_ Hy].
  assert (H : (Int_part x < Int_part y + 1)%Z).
  { apply lt_IZR. rewrite plus_IZR. lra. }
  lia.
Qed.

Lemma ftou_le (x y : R) : x <= y -> (ftou x <= ftou y)%Z.
Proof. intros Hxy. unfold ftou. pose proof (Int_part_le x y Hxy). lia. Qed.

Lemma saturate_le (x y : R) : x <= y -> saturate x <= saturate y.
Proof.
  intros Hxy. unfold saturate.
  apply Rle_min_compat_r, Rle_max_compat_r, Hxy.
Qed.

(** X5. The sort key follows depth: of two splats inside the frustum the one
    with the smaller [z / w] receives the smaller or the same key, and both
    keys stay below the sentinel [DISTANCE_NOT_VISIBLE], so that sorting by
    key orders the visible splats by depth and puts the culled ones last. *)
Theorem sort_key_monotone (p q : float4) :
  outside_frustum p = false -> outside_frustum q = false ->
  f4z p / f4w p <= f4z q / f4w q ->
  (distance_of p <= distance_of q)%Z
  /\ (distance_of q < DISTANCE_NOT_VISIBLE)%Z.
Proof.
  intros Hp Hq Hle. split.
  - unfold distance_of. rewrite Hp, Hq. simpl negb. cbv iota.
    apply ftou_le. rewrite DISTANCE_SCALE_value.
    pose proof (saturate_le _ _ Hle). lra.
  - pose proof (distance_of_inside q Hq) as Hb.
    change DISTANCE_NOT_VISIBLE with 65535%Z. lia.
Qed.

Lemma inside_z0 : outside_frustum (Float4 0 0 0 1) = false.
Proof.
  destruct (outside_frustum (Float4 0 0 0 1)) eqn:H; [|reflexivity].
  apply outside_frustum_true in H. simpl in H. lra.
Qed.

Lemma sort_key_monotone_witness :
  outside_frustum (Float4 0 0 0 1) = false
  /\ outside_frustum (Float4 0 0 1 1) = false
  /\ f4z (Float4 0 0 0 1) / f4w (Float4 0 0 0 1)
     <= f4z (Float4 0 0 1 1) / f4w (Float4 0 0 1 1)
  /\ (distance_of (Float4 0 0 0 1) <= distance_of (Float4 0 0 1 1))%Z
  /\ (distance_of (Float4 0 0 1 1) < DISTANCE_NOT_VISIBLE)%Z.
Proof.
  assert (H3 : f4z (Float4 0 0 0 1) / f4w (Float4 0 0 0 1)
               <= f4z (Float4 0 0 1 1) / f4w (Float4 0 0 1 1))
    by (simpl; lra).
  split; [exact inside_z0|]. split; [exact inside_z1|]. split; [exact H3|].
  exact (sort_key_monotone (Float4 0 0 0 1) (Float4 0 0 1 1)
           inside_z0 inside_z1 H3).
Defined.

Lemma distance_main_in_range (c : constants) (positions : list Z)
    (b : sort_buffers) (i : nat) :
  (i < num_splats c)%nat ->
  distance_main c positions b i
  = SortBuffers (<[i := Z.of_nat i]> (indices b))
                (<[i := distance_slot c positions i]> (distances b)).
Proof.
  intros Hi. unfold distance_main.
  destruct (Nat.leb_spec (num_splats c) i); [lia | reflexivity].
Qed.

Lemma distance_main_commute (c : constants) (positions : list Z)
    (b : sort_buffers) (i j : nat) :
  distance_main c positions (distance_main c positions b i) j
  = distance_main c positions (distance_main c positions b j) i.
Proof.
  destruct (Nat.eq_dec i j) as [-> | Hne]; [reflexivity|].
  unfold distance_main.
  destruct (num_splats c <=? i)%nat; destruct (num_splats c <=? j)%nat;
    simpl; try reflexivity.
  f_equal; apply list_insert_insert_ne; congruence.
Qed.

(** X6. A dispatch of the distance kernel, its invocations taken in any
    order and any number of times, leaves both buffers at their lengths,
    stores in slot [i] of each buffer the index [i] and the key of splat [i]
    for every thread id [i] below [num_splats] that ran, and leaves every
    other slot as it was: no invocation touches the slot of another. *)
Theorem distance_dispatch_slots (c : constants) (positions : list Z)
    (ids : list nat) (b : sort_buffers) :
  let b' := fold_left (distance_main c positions) ids b in
  length (indices b') = length (indices b)
  /\ length (distances b') = length (distances b)
  /\ forall i : nat,
       (In i ids /\ (i < num_splats c)%nat ->
        ((i < length (indices b))%nat ->
         indices b' !! i = Some (Z.of_nat i))
        /\ ((i < length (distances b))%nat ->
            distances b' !! i = Some (distance_slot c positions i)))
       /\ (~ (In i ids /\ (i < num_splats c)%nat) ->
           indices b' !! i = indices b !! i
           /\ distances b' !! i = distances b !! i).
Proof.
  revert b. induction ids as [|k ids IH]; intros b; simpl.
  - split; [reflexivity|]. split; [reflexivity|].
    intros i. split; [intros [[] _] | intros _; split; reflexivity].
  - specialize (IH (distance_main c positions b k)).
    simpl in IH. destruct IH as (Hli & Hld & Hslots).
    set (b1 := distance_main c positions b k) in *.
    assert (Hl1 : length (indices b1) = length (indices b)
                  /\ length (distances b1) = length (distances b)).
    { unfold b1, distance_main. destruct (num_splats c <=? k)%nat; simpl;
        rewrite ?length_insert; split; reflexivity. }
    destruct Hl1 as [Hl1i Hl1d].
    split; [congruence|]. split; [congruence|].
    intros i. destruct (Hslots i) as [Hin Hout]. split.
    + intros [[-> | Hi] Hr].
      * destruct (in_dec Nat.eq_dec i ids) as [Hmem | Hnot].
        -- destruct (Hin (conj Hmem Hr)) as [H1 H2].
           split; intros Hlen; [apply H1 | apply H2]; congruence.
        -- destruct (Hout ltac:(tauto)) as [H1 H2].
           rewrite H1, H2. unfold b1.
           rewrite distance_main_in_range by exact Hr. simpl.
           split; intros Hlen; apply list_lookup_insert_eq; exact Hlen.
      * destruct (Hin (conj Hi Hr)) as [H1 H2].
        split; intros Hlen; [apply H1 | apply H2]; congruence.
    + intros Hn.
      assert (Hn' : ~ (In i ids /\ (i < num_splats c)%nat)) by tauto.
      destruct (Hout Hn') as [H1 H2]. rewrite H1, H2.
      unfold b1, distance_main.
      destruct (Nat.leb_spec (num_splats c) k) as [Hk | Hk];
        [split; reflexivity|].
      assert (Hki : k <> i) by (intros ->; tauto).
      simpl. split; apply list_lookup_insert_ne; exact Hki.
Qed.

Lemma RADIUS_value : RADIUS_SIGMA_OVER_SQRT_2 = 2.
Proof.
  unfold RADIUS_SIGMA_OVER_SQRT_2, RADIUS_SIGMA.
  assert (H2 : 0 < sqrt 2) by (apply sqrt_lt_R0; lra).
  replace 8 with (2 * 2 * 2) by lra.
  rewrite sqrt_mult by lra. rewrite sqrt_square by lra.
  field. lra.
Qed.

Lemma quad_boundary_is_cut_off (v : float2) (in_color : float4) :
  RADIUS_SIGMA_OVER_SQRT_2 <= Rabs (f2x v)
  \/ RADIUS_SIGMA_OVER_SQRT_2 <= Rabs (f2y v) ->
  f4w (ps_main v in_color) = 0.
Proof.
  rewrite RADIUS_value. intros H.
  unfold ps_main. simpl. apply alpha_gaussian_cut.
  rewrite CUTOFF_value. unfold dot2.
  destruct v as [x y]. simpl in *.
  assert (Hx : Rabs x * Rabs x = x * x)
    by (rewrite <- Rabs_mult; apply Rabs_pos_eq; nra).
  assert (Hy : Rabs y * Rabs y = y * y)
    by (rewrite <- Rabs_mult; apply Rabs_pos_eq; nra).
  pose proof (Rabs_pos x). pose proof (Rabs_pos y).
  destruct H; nra.
Qed.

Lemma corner_components (k : nat) :
  let corner := load (Float2 0 0) corners (k mod 6) in
  Rabs (f2x corner) = RADIUS_SIGMA_OVER_SQRT_2
  /\ Rabs (f2y corner) = RADIUS_SIGMA_OVER_SQRT_2.
Proof.
  assert (Hk : (k mod 6 < 6)%nat) by (apply Nat.mod_upper_bound; lia).
  assert (Hr : 0 <= RADIUS_SIGMA_OVER_SQRT_2) by (rewrite RADIUS_value; lra).
  unfold corners. revert Hr. generalize RADIUS_SIGMA_OVER_SQRT_2 as r.
  intros r Hr.
  destruct (k mod 6)%nat as [|[|[|[|[|[|n]]]]]]; try lia; simpl;
    rewrite ?Rabs_Ropp, !(Rabs_pos_eq _ Hr); split; reflexivity.
Qed.

Lemma example_vs_pos_clip_z1 (view : nat) :
  vs_pos_clip example_host example_constants packed_z1 view = Float4 0 0 1 1.
Proof.
  unfold vs_pos_clip. cbn [pos_scale_cm pos_min_cm example_constants].
  rewrite unpack_pos_z1. unfold mul_v3_m3. simpl. f_equal; lra.
Qed.

(** X12. The quad that the vertex shader emits contains all of the Gaussian
    that the pixel shader draws: the coordinate that a vertex of a visible
    splat passes on has both components of magnitude
    [RADIUS_SIGMA_OVER_SQRT_2], its squared length is twice the cut-off, and
    a fragment whose coordinate reaches that magnitude in either component,
    that is one on the edge of the quad or beyond, has alpha 0. *)
Theorem quad_vertices_are_cut_off (h : host) (c : constants)
    (idxs positions : list Z) (transforms colors : list float4)
    (in_id in_view_id : nat) (corner : float2) :
  out_sig_div_sqrt_2
    (vs_main h c idxs positions transforms colors in_id in_view_id)
  = Some corner ->
  Rabs (f2x corner) = RADIUS_SIGMA_OVER_SQRT_2
  /\ Rabs (f2y corner) = RADIUS_SIGMA_OVER_SQRT_2
  /\ dot2 corner corner = 2 * CUTOFF_RADIUS_SIGMA_SQUARED_OVER_2
  /\ forall (v : float2) (in_color : float4),
       Rabs (f2x corner) <= Rabs (f2x v) \/ Rabs (f2y corner) <= Rabs (f2y v) ->
       f4w (ps_main v in_color) = 0.
Proof.
  unfold vs_main, vs_culled.
  destruct (outside_frustum _); cbn [out_sig_div_sqrt_2]; [discriminate|].
  intros Hc.
  assert (Hcn : load (Float2 0 0) corners (in_id mod 6) = corner)
    by congruence.
  rewrite <- Hcn. clear Hc Hcn.
  destruct (corner_components in_id) as [Hx Hy]. cbv zeta in Hx, Hy.
  set (cn := load (Float2 0 0) corners (in_id mod 6)) in *.
  split; [exact Hx|]. split; [exact Hy|]. split.
  - assert (Hxx : f2x cn * f2x cn
                  = RADIUS_SIGMA_OVER_SQRT_2 * RADIUS_SIGMA_OVER_SQRT_2).
    { rewrite <- Hx, <- Rabs_mult. symmetry. apply Rabs_pos_eq. nra. }
    assert (Hyy : f2y cn * f2y cn
                  = RADIUS_SIGMA_OVER_SQRT_2 * RADIUS_SIGMA_OVER_SQRT_2).
    { rewrite <- Hy, <- Rabs_mult. symmetry. apply Rabs_pos_eq. nra. }
    unfold CUTOFF_RADIUS_SIGMA_SQUARED_OVER_2, dot2. lra.
  - intros v in_color Hv. apply quad_boundary_is_cut_off.
    rewrite <- Hx at 1. rewrite <- Hy. exact Hv.
Qed.

Lemma quad_vertices_are_cut_off_witness :
  let corner :=
    Float2 (- RADIUS_SIGMA_OVER_SQRT_2) (- RADIUS_SIGMA_OVER_SQRT_2) in
  out_sig_div_sqrt_2
    (vs_main example_host example_constants [0%Z] [packed_z1] [] [] 0 0)
  = Some corner
  /\ Rabs (f2x corner) = RADIUS_SIGMA_OVER_SQRT_2
  /\ Rabs (f2y corner) = RADIUS_SIGMA_OVER_SQRT_2
  /\ dot2 corner corner = 2 * CUTOFF_RADIUS_SIGMA_SQUARED_OVER_2
  /\ forall (v : float2) (in_color : float4),
       Rabs (f2x corner) <= Rabs (f2x v) \/ Rabs (f2y corner) <= Rabs (f2y v) ->
       f4w (ps_main v in_color) = 0.
Proof.
  assert (H : out_sig_div_sqrt_2
                (vs_main example_host example_constants [0%Z] [packed_z1]
                         [] [] 0 0)
              = Some (Float2 (- RADIUS_SIGMA_OVER_SQRT_2)
                             (- RADIUS_SIGMA_OVER_SQRT_2))).
  { unfold vs_main.
    change (load 0%Z [packed_z1] (Z.to_nat (load 0%Z [0%Z] (0 / 6))))
      with packed_z1.
    rewrite example_vs_pos_clip_z1, inside_z1. reflexivity. }
  cbv zeta. split; [exact H|].
  exact (quad_vertices_are_cut_off example_host example_constants [0%Z]
           [packed_z1] [] [] 0 0 _ H).
Defined.

(** X13. The alpha that the pixel shader returns is non-zero exactly when the
    splat's alpha is non-zero and the fragment lies strictly inside the
    cut-off radius, and for a non-negative splat alpha it lies between 0 and
    that alpha: the falloff never brightens a splat. *)
Theorem gaussian_alpha_support (v : float2) (in_color : float4) :
  (f4w (ps_main v in_color) <> 0
   <-> f4w in_color <> 0 /\ dot2 v v < CUTOFF_RADIUS_SIGMA_SQUARED_OVER_2)
  /\ (0 <= f4w in_color ->
      0 <= f4w (ps_main v in_color) <= f4w in_color).
Proof.
  unfold ps_main. simpl. split.
  - destruct (Rlt_le_dec (dot2 v v) CUTOFF_RADIUS_SIGMA_SQUARED_OVER_2)
      as [Hin | Hcut].
    + rewrite alpha_gaussian_inside by assumption.
      pose proof (exp_pos (dot2 v v)) as He. split.
      * intros Hne. split; [|exact Hin]. intros H0. apply Hne.
        rewrite H0. unfold Rdiv. ring.
      * intros [Hne _] H0. apply Hne.
        apply (Rmult_eq_compat_r (exp (dot2 v v))) in H0.
        unfold Rdiv in H0. rewrite Rmult_assoc, Rinv_l in H0 by lra. lra.
    + rewrite alpha_gaussian_cut by assumption. split; [congruence|].
      intros [_ Hlt]. lra.
  - intros Ha.
    pose proof (alpha_gaussian_antitone 0 (dot2 v v) (f4w in_color) Ha) as Hm.
    assert (Hd : 0 <= dot2 v v) by (unfold dot2; nra).
    specialize (Hm Hd).
    rewrite (alpha_gaussian_inside 0) in Hm by (rewrite CUTOFF_value; lra).
    rewrite exp_0 in Hm. split; [|lra].
    destruct (Rlt_le_dec (dot2 v v) CUTOFF_RADIUS_SIGMA_SQUARED_OVER_2)
      as [Hin | Hcut].
    + rewrite alpha_gaussian_inside by assumption.
      apply alpha_scaled_nonneg, Ha.
    + rewrite alpha_gaussian_cut by assumption. lra.
Qed.

Lemma position_fields (x y z : Z) :
  (0 <= x < 2 ^ 11)%Z -> (0 <= y < 2 ^ 11)%Z -> (0 <= z < 2 ^ 10)%Z ->
  let packed := (x + 2 ^ 11 * y + 2 ^ 22 * z)%Z in
  unpack_unorm_bits 11 packed 0 = x
  /\ unpack_unorm_bits 11 packed 11 = y
  /\ unpack_unorm_bits 10 packed 22 = z.
Proof.
  intros Hx Hy Hz packed.
  rewrite (unorm_field_value 11 packed 0) by lia.
  rewrite (unorm_field_value 11 packed 11) by lia.
  rewrite (unorm_field_value 10 packed 22) by lia.
  unfold packed.
  change (2 ^ 0)%Z with 1%Z. change (2 ^ 11)%Z with 2048%Z.
  change (2 ^ 22)%Z with 4194304%Z. change (2 ^ 10)%Z with 1024%Z.
  change (2 ^ 11)%Z with 2048%Z in Hx, Hy. change (2 ^ 10)%Z with 1024%Z in Hz.
  repeat split; Z.div_mod_to_equations; lia.
Qed.

(** X3. [unpack_pos] is the inverse of the packing of a position into one
    word: when the word holds [x] in bits 0-10, [y] in bits 11-21 and [z] in
    bits 22-31, the result is [(x, y, z)] scaled and offset component by
    component, with [w = 1]. *)
Theorem unpack_pos_fields (x y z : Z) (scale offset : float3) :
  (0 <= x < 2 ^ 11)%Z -> (0 <= y < 2 ^ 11)%Z -> (0 <= z < 2 ^ 10)%Z ->
  unpack_pos (x + 2 ^ 11 * y + 2 ^ 22 * z) scale offset
  = Float4 (IZR x * f3x scale + f3x offset)
           (IZR y * f3y scale + f3y offset)
           (IZR z * f3z scale + f3z offset) 1.
Proof.
  intros Hx Hy Hz. unfold unpack_pos, unpack_unorm.
  destruct (position_fields x y z Hx Hy Hz) as (-> & -> & ->).
  reflexivity.
Qed.

Lemma unpack_pos_fields_witness :
  let scale := Float3 1 1 1 in
  let offset := Float3 0 0 0 in
  (0 <= 1 < 2 ^ 11)%Z /\ (0 <= 2 < 2 ^ 11)%Z /\ (0 <= 3 < 2 ^ 10)%Z
  /\ unpack_pos (1 + 2 ^ 11 * 2 + 2 ^ 22 * 3) scale offset
     = Float4 (IZR 1 * f3x scale + f3x offset)
              (IZR 2 * f3y scale + f3y offset)
              (IZR 3 * f3z scale + f3z offset) 1.
Proof.
  assert (Hx : (0 <= 1 < 2 ^ 11)%Z) by lia.
  assert (Hy : (0 <= 2 < 2 ^ 11)%Z) by lia.
  assert (Hz : (0 <= 3 < 2 ^ 10)%Z) by lia.
  cbv zeta. split; [exact Hx|]. split; [exact Hy|]. split; [exact Hz|].
  exact (unpack_pos_fields 1 2 3 (Float3 1 1 1) (Float3 0 0 0) Hx Hy Hz).
Defined.

(** Every unpacked position lies in the box that scale and offset span. *)
Lemma unpack_pos_in_box (packed : Z) (scale offset : float3) :
  0 <= f3x scale -> 0 <= f3y scale -> 0 <= f3z scale ->
  let p := unpack_pos packed scale offset in
  f3x offset <= f4x p <= f3x offset + 2047 * f3x scale
  /\ f3y offset <= f4y p <= f3y offset + 2047 * f3y scale
  /\ f3z offset <= f4z p <= f3z offset + 1023 * f3z scale
  /\ f4w p = 1.
Proof.
  intros Hsx Hsy Hsz. unfold unpack_pos, unpack_unorm. simpl.
  pose proof (unorm_field_range 11 packed 0 ltac:(lia) ltac:(lia)) as Bx.
  pose proof (unorm_field_range 11 packed 11 ltac:(lia) ltac:(lia)) as By.
  pose proof (unorm_field_range 10 packed 22 ltac:(lia) ltac:(lia)) as Bz.
  set (ux := unpack_unorm_bits 11 packed 0) in *.
  set (uy := unpack_unorm_bits 11 packed 11) in *.
  set (uz := unpack_unorm_bits 10 packed 22) in *.
  assert (Hx : 0 <= IZR ux <= 2047).
  { split; [apply (IZR_le 0); lia | apply (IZR_le ux 2047); lia]. }
  assert (Hy : 0 <= IZR uy <= 2047).
  { split; [apply (IZR_le 0); lia | apply (IZR_le uy 2047); lia]. }
  assert (Hz : 0 <= IZR uz <= 1023).
  { split; [apply (IZR_le 0); lia | apply (IZR_le uz 1023); lia]. }
  repeat split; nra.
Qed.

Lemma low_half_host_reads_low_half : reads_low_half low_half_host.
Proof.
  intros v. simpl. f_equal. unfold half_pattern.
  rewrite <- Z.land_assoc. reflexivity.
Qed.

(** X4. [unpack_cov_mat] reads the six entries of the symmetric covariance
    from the fields of the two packed words: [xx], [xy], [xz] from bits
    22-31, 11-21 and 0-10 of the second word, [yy], [yz], [zz] from the same
    bits of the first, each field moved to the top of the half-float layout
    it fills (a shift of 5, and of 4 for the 11-bit unsigned [zz]); the
    matrix returned is symmetric. *)
Theorem unpack_cov_mat_fields (h : host) (wx wy : Z) :
  reads_low_half h ->
  let field w offset bits shift :=
    f16tof32 h (((w / 2 ^ offset) mod 2 ^ bits) * 2 ^ shift)%Z in
  let xx := field wy 22%Z 10%Z 5%Z in
  let xy := field wy 11%Z 11%Z 5%Z in
  let xz := field wy 0%Z 11%Z 5%Z in
  let yy := field wx 22%Z 10%Z 5%Z in
  let yz := field wx 11%Z 11%Z 5%Z in
  let zz := field wx 0%Z 11%Z 4%Z in
  unpack_cov_mat h (wx, wy)
  = Float3x3 (Float3 xx xy xz) (Float3 xy yy yz) (Float3 xz yz zz).
Proof.
  intros Hh. cbv zeta. unfold unpack_cov_mat, unpack_f16. simpl fst. simpl snd.
  assert (Hf : forall s e m w o, field_ok s e m o ->
            f16tof32 h (unpack_f16_bits s e m w o)
            = f16tof32 h (((w / 2 ^ o) mod 2 ^ (s + e + m))
                          * 2 ^ (15 - e - m))%Z).
  { intros s e m w o Hok. rewrite Hh.
    rewrite f16_field_pattern by exact Hok. reflexivity. }
  rewrite !Hf by (unfold field_ok; lia). reflexivity.
Qed.

Lemma unpack_cov_mat_fields_witness :
  reads_low_half low_half_host
  /\ (let field w offset bits shift :=
        f16tof32 low_half_host
                 (((w / 2 ^ offset) mod 2 ^ bits) * 2 ^ shift)%Z in
      unpack_cov_mat low_half_host (4096%Z, 1%Z)
      = Float3x3
          (Float3 (field 1%Z 22%Z 10%Z 5%Z) (field 1%Z 11%Z 11%Z 5%Z)
                  (field 1%Z 0%Z 11%Z 5%Z))
          (Float3 (field 1%Z 11%Z 11%Z 5%Z) (field 4096%Z 22%Z 10%Z 5%Z)
                  (field 4096%Z 11%Z 11%Z 5%Z))
          (Float3 (field 1%Z 0%Z 11%Z 5%Z) (field 4096%Z 11%Z 11%Z 5%Z)
                  (field 4096%Z 0%Z 11%Z 4%Z))).
Proof.
  split; [exact low_half_host_reads_low_half|].
  exact (unpack_cov_mat_fields low_half_host 4096 1
           low_half_host_reads_low_half).
Defined.

(** X11. For a visible splat the vertex shader moves the clip-space centre
    by the corner offset times [w], so the offset survives the perspective
    divide: in normalised device coordinates the vertex lies at the centre
    plus the splat's transform applied to the corner, divided by the render
    resolution, whatever the depth; [z] and [w] are those of the centre. *)
Theorem vertex_offset_survives_divide (h : host) (c : constants)
    (idxs positions : list Z) (transforms colors : list float4)
    (in_id in_view_id : nat) :
  let splat_id := Z.to_nat (load 0%Z idxs (in_id / 6)) in
  let pos_clip := vs_pos_clip h c (load 0%Z positions splat_id) in_view_id in
  let t := load float4_zero transforms splat_id in
  let corner := load (Float2 0 0) corners (in_id mod 6) in
  let offset := mul_m2_v2 (f4x t) (f4y t) (f4z t) (f4w t) corner in
  let out :=
    out_position
      (vs_main h c idxs positions transforms colors in_id in_view_id) in
  outside_frustum pos_clip = false ->
  f4w pos_clip <> 0 ->
  f4x out / f4w out
  = f4x pos_clip / f4w pos_clip + f2x offset / f2x (get_render_resolution h)
  /\ f4y out / f4w out
     = f4y pos_clip / f4w pos_clip + f2y offset / f2y (get_render_resolution h)
  /\ f4z out = f4z pos_clip
  /\ f4w out = f4w pos_clip.
Proof.
  cbv zeta. intros Hin Hw. unfold vs_main. rewrite Hin.
  cbn [out_position f4x f4y f4z f4w f2x f2y].
  repeat split; try reflexivity.
  - match goal with
    | |- context [?a / f2x (get_render_resolution h)] =>
        generalize (a / f2x (get_render_resolution h))
    end.
    intros q. field. exact Hw.
  - match goal with
    | |- context [?a / f2y (get_render_resolution h)] =>
        generalize (a / f2y (get_render_resolution h))
    end.
    intros q. field. exact Hw.
Qed.

Lemma vertex_offset_survives_divide_witness :
  let h := example_host in
  let c := example_constants in
  let transforms := [Float4 1 0 0 1] in
  let splat_id := Z.to_nat (load 0%Z [0%Z] (0 / 6)) in
  let pos_clip := vs_pos_clip h c (load 0%Z [packed_z1] splat_id) 0 in
  let t := load float4_zero transforms splat_id in
  let corner := load (Float2 0 0) corners (0 mod 6) in
  let offset := mul_m2_v2 (f4x t) (f4y t) (f4z t) (f4w t) corner in
  let out :=
    out_position (vs_main h c [0%Z] [packed_z1] transforms [] 0 0) in
  outside_frustum pos_clip = false
  /\ f4w pos_clip <> 0
  /\ f4x out / f4w out
     = f4x pos_clip / f4w pos_clip + f2x offset / f2x (get_render_resolution h)
  /\ f4y out / f4w out
     = f4y pos_clip / f4w pos_clip + f2y offset / f2y (get_render_resolution h)
  /\ f4z out = f4z pos_clip
  /\ f4w out = f4w pos_clip.
Proof.
  assert (Hpc : vs_pos_clip example_host example_constants
                  (load 0%Z [packed_z1] (Z.to_nat (load 0%Z [0%Z] (0 / 6)))) 0
                = Float4 0 0 1 1).
  { change (load 0%Z [packed_z1] (Z.to_nat (load 0%Z [0%Z] (0 / 6))))
      with packed_z1.
    apply example_vs_pos_clip_z1. }
  assert (H1 : outside_frustum
                 (vs_pos_clip example_host example_constants
                    (load 0%Z [packed_z1]
                       (Z.to_nat (load 0%Z [0%Z] (0 / 6)))) 0) = false)
    by (rewrite Hpc; exact inside_z1).
  assert (H2 : f4w (vs_pos_clip example_host example_constants
                      (load 0%Z [packed_z1]
                         (Z.to_nat (load 0%Z [0%Z] (0 / 6)))) 0) <> 0)
    by (rewrite Hpc; simpl; lra).
  cbv zeta. split; [exact H1|]. split; [exact H2|].
  exact (vertex_offset_survives_divide example_host example_constants [0%Z]
           [packed_z1] [Float4 1 0 0 1] [] 0 0 H1 H2).
Defined.

(** X7. A dispatch of the covariance kernel, its invocations taken in any
    order and any number of times, keeps the length of the transform buffer,
    stores in slot [i] the transform projected from position and covariance
    [i] for every thread id [i] below [num_splats] that ran, and leaves every
    other slot as it was. *)
Theorem covariance_dispatch_slots (h : host) (c : constants)
    (positions : list Z) (covariances : list (Z * Z))
    (ids : list nat) (transforms : list float4) :
  let t' :=
    fold_left (covariance_main h c positions covariances) ids transforms in
  length t' = length transforms
  /\ forall i : nat,
       (In i ids -> (i < num_splats c)%nat -> (i < length transforms)%nat ->
        t' !! i = Some (transform_slot h c positions covariances i))
       /\ (~ (In i ids /\ (i < num_splats c)%nat) ->
           t' !! i = transforms !! i).
Proof.
  revert transforms. induction ids as [|k ids IH]; intros transforms; simpl.
  - split; [reflexivity|]. intros i. split; [intros [] | reflexivity].
  - specialize (IH (covariance_main h c positions covariances transforms k)).
    simpl in IH. destruct IH as (Hlen & Hslots).
    set (t1 := covariance_main h c positions covariances transforms k) in *.
    assert (Hl1 : length t1 = length transforms).
    { unfold t1, covariance_main. destruct (num_splats c <=? k)%nat;
        rewrite ?length_insert; reflexivity. }
    split; [congruence|].
    intros i. destruct (Hslots i) as [Hin Hout]. split.
    + intros [-> | Hi] Hr Hlt.
      * destruct (in_dec Nat.eq_dec i ids) as [Hmem | Hnot].
        -- apply Hin; [assumption | assumption | congruence].
        -- rewrite (Hout ltac:(tauto)). unfold t1, covariance_main.
           destruct (Nat.leb_spec (num_splats c) i); [lia|].
           apply list_lookup_insert_eq. exact Hlt.
      * apply Hin; [assumption | assumption | congruence].
    + intros Hn.
      rewrite (Hout ltac:(tauto)). unfold t1, covariance_main.
      destruct (Nat.leb_spec (num_splats c) k) as [Hk | Hk]; [reflexivity|].
      apply list_lookup_insert_ne. intros ->. tauto.
Qed.

End ShaderKernels.

(** ** The importer: metadata, tokens and data *)

Module PlyImporter.
Import Ply PlyNotions PlyFacts.
Local Open Scope string_scope.

Lemma all_present_spec (required : list Property.t) (metadata : Metadata) :
  all_present required metadata = true
  <-> forall property, In property required ->
        is_Some (properties metadata !! property).
Proof.
  induction required as [|q required IH]; simpl.
  - split; [intros _ ? [] | reflexivity].
  - destruct (properties metadata !! q) as [v|] eqn:Hq.
    + rewrite IH. split.
      * intros H property [<- | Hin]; [rewrite Hq; eauto | apply H, Hin].
      * intros H property Hin. apply H. right. exact Hin.
    + split; [discriminate|]. intros H.
      destruct (H q (or_introl eq_refl)) as [v Hv]. congruence.
Qed.

Lemma required_properties_complete (property : Property.t) :
  In property required_properties <-> property <> Property.Ignore.
Proof.
  split.
  - intros Hin ->. vm_compute in Hin. intuition discriminate.
  - intros Hne. destruct property; try congruence; vm_compute; tauto.
Qed.

(** X14. [validate_metadata] accepts a file exactly when its metadata holds
    every property of the enumeration other than [Ignore]: position,
    rotation, scale, the three DC colour coefficients and opacity.  The
    formats and the splat count play no part. *)
Theorem validate_metadata_spec (metadata : Metadata) :
  validate_metadata metadata = true
  <-> forall property, property <> Property.Ignore ->
        is_Some (properties metadata !! property).
Proof.
  unfold validate_metadata. rewrite all_present_spec. split.
  - intros H property Hne. apply H, required_properties_complete, Hne.
  - intros H property Hin. apply H, required_properties_complete, Hin.
Qed.

Lemma emplace_lookup {V : Type} (k k' : Property.t) (v : V)
    (m : gmap Property.t V) :
  emplace k v m !! k'
  = match m !! k' with
    | Some x => Some x
    | None => if decide (k = k') then Some v else None
    end.
Proof.
  unfold emplace. destruct (m !! k) as [x|] eqn:Hk.
  - destruct (m !! k') as [y|] eqn:Hk'; [reflexivity|].
    destruct (decide (k = k')) as [-> | _]; [congruence | reflexivity].
  - destruct (decide (k = k')) as [<- | Hne].
    + rewrite lookup_insert_eq, Hk. reflexivity.
    + rewrite lookup_insert_ne by exact Hne.
      destruct (m !! k'); reflexivity.
Qed.

Lemma write_metadata_fold (p : SplatParserPly) (metadata : Metadata)
    (k : Property.t) :
  properties (write_metadata p metadata) !! k
  = match properties metadata !! k with
    | Some f => Some f
    | None => type <$> layout p !! k
    end.
Proof.
  unfold write_metadata. simpl.
  apply (map_fold_weak_ind
           (fun props (l : gmap Property.t PropertyDesc) =>
              props !! k
              = match properties metadata !! k with
                | Some f => Some f
                | None => type <$> l !! k
                end)).
  - rewrite lookup_empty. destruct (properties metadata !! k); reflexivity.
  - intros i d l props Hi IH. rewrite emplace_lookup, IH.
    destruct (properties metadata !! k) as [f|]; [reflexivity|].
    destruct (decide (i = k)) as [-> | Hne].
    + rewrite Hi, lookup_insert_eq. reflexivity.
    + rewrite lookup_insert_ne by exact Hne.
      destruct (l !! k); reflexivity.
Qed.

(** X15. What a successful [parse_metadata] writes to the caller's metadata:
    an entry that was already there keeps its format, since [emplace] does
    not overwrite; every other property of the layout is added with its
    format, in whatever order the layout is traversed; and the splat count
    is replaced by the parser's. *)
Theorem write_metadata_lookup (p : SplatParserPly) (metadata : Metadata)
    (k : Property.t) :
  properties (write_metadata p metadata) !! k
  = match properties metadata !! k with
    | Some f => Some f
    | None => type <$> layout p !! k
    end
  /\ md_num_splats (write_metadata p metadata) = num_splats p.
Proof.
  split; [apply write_metadata_fold | reflexivity].
Qed.

Lemma property_map_not_ignore (token : string) (prop : Property.t) :
  table_lookup token property_map = Some prop -> prop <> Property.Ignore.
Proof.
  unfold property_map. simpl.
  repeat (destruct (String.eqb token _); [congruence|]). discriminate.
Qed.

Lemma bind_Ok {A B : Type} (m : outcome A) (f : A -> outcome B) (b : B) :
  m ≫= f = Ok b -> exists a, m = Ok a /\ f a = Ok b.
Proof. destruct m as [a|]; simpl; [eauto | discriminate]. Qed.

Lemma leading_digits_nonneg (s : string) (acc : option Z) (v : Z) :
  (0 <= default 0 acc)%Z -> leading_digits s acc = Some v -> (0 <= v)%Z.
Proof.
  revert acc. induction s as [|c s IH]; intros acc Hacc; simpl.
  - intros ->. exact Hacc.
  - destruct (digit_value c) as [d|] eqn:Hd; [|intros ->; exact Hacc].
    apply IH. simpl. unfold digit_value in Hd.
    destruct (_ && _) eqn:Hc; [|discriminate]. injection Hd as <-.
    apply andb_true_iff in Hc. destruct Hc as [H1 _].
    apply Z.leb_le in H1. lia.
Qed.

Lemma from_chars_range (token : string) (v : Z) :
  from_chars token = Some v -> (0 <= v < 2 ^ 64)%Z.
Proof.
  unfold from_chars.
  destruct (leading_digits token None) as [w|] eqn:Hl; [|discriminate].
  destruct (Z.ltb_spec w (2 ^ 64)); [|discriminate]. intros [= <-].
  split; [|assumption].
  apply (leading_digits_nonneg token None); [simpl; lia | exact Hl].
Qed.

Lemma layout_ok_insert (p : SplatParserPly) (q : Property.t) (o : Z) :
  layout_ok p -> q <> Property.Ignore ->
  layout_ok
    (set_layout (<[q := mkPropertyDesc o PropertyFormat.F32]> (layout p)) p).
Proof.
  intros Hok Hq k d. simpl. intros Hk.
  destruct (decide (q = k)) as [<- | Hne].
  - rewrite lookup_insert_eq in Hk. injection Hk as <-.
    split; [exact Hq | reflexivity].
  - rewrite lookup_insert_ne in Hk by exact Hne. apply Hok, Hk.
Qed.

Lemma add_property_cases (p : SplatParserPly) (prop : Property.t)
    (t : PropertyFormat.t) :
  add_property p prop t
  = if decide (prop = Property.Ignore) then
      match type_size_map t with
      | Some size => Ok (true, set_splat_size (size_t (splat_size p + size)) p)
      | None => Abort OutOfRange
      end
    else
      match layout p !! prop with
      | Some _ => Ok (false, p)
      | None =>
          match type_size_map t with
          | Some size =>
              Ok (true,
                  set_splat_size (size_t (splat_size p + size))
                    (set_layout
                       (<[prop := mkPropertyDesc (splat_size p) t]> (layout p))
                       p))
          | None => Abort OutOfRange
          end
      end.
Proof.
  unfold add_property.
  destruct (decide (prop = Property.Ignore)) as [-> | Hne]; [reflexivity|].
  destruct prop; try congruence; destruct (layout p !! _); reflexivity.
Qed.

Lemma add_property_fields (p p' : SplatParserPly) (prop : Property.t)
    (t : PropertyFormat.t) (added : bool) :
  add_property p prop t = Ok (added, p') ->
  buffer p' = buffer p /\ num_splats p' = num_splats p
  /\ format p' = format p.
Proof.
  rewrite add_property_cases. intros H.
  repeat case_match; simplify_eq; done.
Qed.

Lemma add_property_parser_ok (p p' : SplatParserPly) (prop : Property.t)
    (added : bool) :
  parser_ok p -> num_splats p <> 0%Z ->
  add_property p prop PropertyFormat.F32 = Ok (added, p') ->
  parser_ok p'.
Proof.
  intros (Hl & Hn & Hr) Hns. rewrite add_property_cases. intros H.
  repeat case_match; simplify_eq; simpl.
  - split; [exact Hl|]. split; [right; exact Hns | exact Hr].
  - split; [exact Hl|]. split; [right; exact Hns | exact Hr].
  - split; [|split; [right; exact Hns | exact Hr]].
    apply (layout_ok_insert p prop (splat_size p) Hl). assumption.
Qed.

Lemma element_line_keeps (p : SplatParserPly) (line text : string) (r : step) :
  element_line p line text = Ok r ->
  layout (step_parser r) = layout p /\ buffer (step_parser r) = buffer p
  /\ match r with
     | Continue p' t =>
         t = text /\ num_splats p' <> 0%Z /\ (0 <= num_splats p' < 2 ^ 64)%Z
     | Return ok p' =>
         ok = false /\ (num_splats p' = num_splats p \/ num_splats p' = 0%Z)
     end.
Proof.
  unfold element_line. intros H.
  destruct (negb _); [simplify_eq; simpl; tauto|].
  apply bind_Ok in H as ([tok r1] & _ & H).
  destruct tok as [tok|]; [|simplify_eq; simpl; tauto].
  destruct (negb _); [simplify_eq; simpl; tauto|].
  apply bind_Ok in H as ([tok2 r2] & _ & H).
  destruct tok2 as [tok2|]; [|simplify_eq; simpl; tauto].
  destruct (from_chars tok2) as [count|] eqn:Hc; [|simplify_eq; simpl; tauto].
  apply from_chars_range in Hc.
  destruct (Z.eqb_spec count 0); simplify_eq; simpl; tauto.
Qed.

Lemma property_line_keeps (p : SplatParserPly) (line text : string) (r : step) :
  property_line p line text = Ok r ->
  buffer (step_parser r) = buffer p
  /\ num_splats (step_parser r) = num_splats p
  /\ (parser_ok p -> parser_ok (step_parser r))
  /\ match r with Continue _ t => t = text | Return ok _ => ok = false end.
Proof.
  unfold property_line. intros H.
  destruct (Z.eqb_spec (num_splats p) 0) as [Hz | Hnz]; [simplify_eq; done|].
  apply bind_Ok in H as ([tok r1] & _ & H).
  destruct tok as [tok|]; [|simplify_eq; done].
  destruct (table_lookup tok type_map) as [t|] eqn:Ht; [|simplify_eq; done].
  apply type_map_F32 in Ht. subst t.
  apply bind_Ok in H as ([tok2 r2] & _ & H).
  destruct tok2 as [tok2|]; [|simplify_eq; done].
  destruct (table_lookup tok2 property_map) as [prop|].
  - apply bind_Ok in H as ([added p1] & Hadd & H).
    pose proof (add_property_fields _ _ _ _ _ Hadd) as (H1 & H2 & _).
    pose proof (fun Hok => add_property_parser_ok _ _ _ _ Hok Hnz Hadd) as H3.
    destruct added; simplify_eq; done.
  - apply bind_Ok in H as ([added p1] & Hadd & H).
    pose proof (add_property_fields _ _ _ _ _ Hadd) as (H1 & H2 & _).
    pose proof (fun Hok => add_property_parser_ok _ _ _ _ Hok Hnz Hadd) as H3.
    simplify_eq; done.
Qed.

Lemma length_append (a b : string) :
  String.length (a ++ b) = (String.length a + String.length b)%nat.
Proof.
  induction a as [|c a IH]; [reflexivity|].
  rewrite append_cons. simpl. rewrite IH. reflexivity.
Qed.

Lemma substr_remove (n : nat) (s : string) :
  substr_to n s ++ remove_prefix n s = s.
Proof.
  revert s. induction n as [|n IH]; intros [|c s]; try reflexivity.
  simpl. rewrite append_cons, IH. reflexivity.
Qed.

Lemma pop_line_suffix (text line text' : string) :
  pop_line text = (Some line, text') -> suffix_of text' text.
Proof.
  unfold pop_line. destruct (find newline text) as [i|].
  - destruct (trim_line _); [|discriminate]. intros [= _ <-].
    exists (substr_to (S i) text). symmetry. apply substr_remove.
  - intros [= _ <-]. exists EmptyString. reflexivity.
Qed.

Lemma remove_prefix_suffix (pre text : string) :
  remove_prefix (String.length (pre ++ text) - String.length text) (pre ++ text)
  = text.
Proof.
  rewrite length_append.
  replace (String.length pre + String.length text - String.length text)%nat
    with (String.length pre) by lia.
  apply remove_prefix_append.
Qed.

Lemma suffix_of_trans (a b c : string) :
  suffix_of a b -> suffix_of b c -> suffix_of a c.
Proof.
  intros [p1 ->] [p2 ->]. exists (p2 ++ p1). symmetry. apply append_assoc.
Qed.

Lemma parser_ok_set_buffer (b : string) (p : SplatParserPly) :
  parser_ok p -> parser_ok (set_buffer b p).
Proof. intros H. exact H. Qed.

Lemma parser_ok_set_format (f : PlyFormat.t) (p : SplatParserPly) :
  parser_ok p -> parser_ok (set_format f p).
Proof. intros H. exact H. Qed.

Lemma header_step_keeps (p : SplatParserPly) (text : string) (r : step) :
  suffix_of text (buffer p) ->
  header_step p text = Ok r ->
  match r with
  | Continue p' t =>
      buffer p' = buffer p /\ suffix_of t (buffer p)
      /\ (parser_ok p -> parser_ok p')
  | Return true p' =>
      suffix_of (buffer p') (buffer p) /\ (parser_ok p -> parser_ok p')
  | Return false _ => True
  end.
Proof.
  intros Hsuf H. unfold header_step in H.
  destruct (pop_line text) as [[line|] t] eqn:Hpop; [|simplify_eq; done].
  apply pop_line_suffix in Hpop.
  assert (Ht : suffix_of t (buffer p))
    by (apply (suffix_of_trans _ text); assumption).
  apply bind_Ok in H as ([tok r1] & _ & H).
  destruct tok as [tok|]; [|simplify_eq; done].
  destruct (String.eqb tok "comment"); [simplify_eq; done|].
  destruct (String.eqb tok "element").
  { apply element_line_keeps in H as (Hl & Hb & Hr).
    destruct r as [p' t' | [|] p']; simpl in *;
      [|destruct Hr; discriminate | exact I].
    destruct Hr as (-> & Hnz & Hrange).
    split; [exact Hb|]. split; [exact Ht|].
    intros (Hlo & _ & _). split; [|split; [right; exact Hnz | exact Hrange]].
    intros k d Hk. rewrite Hl in Hk. apply Hlo, Hk. }
  destruct (String.eqb tok "property").
  { apply property_line_keeps in H as (Hb & _ & Hok & Hr).
    destruct r as [p' t' | [|] p']; simpl in *; subst; done. }
  destruct (String.eqb tok "end_header"); [|simplify_eq; done].
  injection H as <-. split; [|intros Hok; exact Hok]. simpl.
  destruct Ht as [pre Hpre]. exists pre. rewrite Hpre at 1.
  rewrite Hpre. rewrite remove_prefix_suffix. reflexivity.
Qed.

Lemma header_loop_keeps (fuel : nat) (p p' : SplatParserPly) (text : string) :
  suffix_of text (buffer p) ->
  header_loop fuel p text = Ok (true, p') ->
  suffix_of (buffer p') (buffer p) /\ (parser_ok p -> parser_ok p').
Proof.
  revert p text. induction fuel as [|fuel IH]; intros p text Hsuf H;
    [discriminate|].
  simpl in H. apply bind_Ok in H as (r & Hstep & H).
  pose proof (header_step_keeps p text r Hsuf Hstep) as Hr.
  destruct r as [p1 t1 | ok1 p1]; simpl in *.
  - destruct Hr as (Hb & Hs & Hok). rewrite <- Hb in Hs |- *.
    destruct (IH p1 t1 Hs H) as [H1 H2]. split; [exact H1 | tauto].
  - injection H as -> <-. exact Hr.
Qed.

Lemma parse_header_keeps (fuel : nat) (p p' : SplatParserPly) :
  parse_header fuel p = Ok (true, p') ->
  suffix_of (buffer p') (buffer p) /\ (parser_ok p -> parser_ok p').
Proof.
  intros H. unfold parse_header in H.
  destruct (pop_line (buffer p)) as [[l0|] t0] eqn:Hp0; [|simplify_eq; done].
  apply pop_line_suffix in Hp0.
  destruct (negb (String.eqb l0 "ply")); [simplify_eq; done|].
  destruct (pop_line t0) as [[l1|] t1] eqn:Hp1; [|simplify_eq; done].
  apply pop_line_suffix in Hp1.
  assert (Ht1 : suffix_of t1 (buffer p))
    by (apply (suffix_of_trans _ t0); assumption).
  apply bind_Ok in H as ([tok r1] & _ & H).
  destruct tok as [tok|]; [|simplify_eq; done].
  destruct (negb (String.eqb tok "format")); [simplify_eq; done|].
  apply bind_Ok in H as ([ftok r2] & _ & H).
  destruct ftok as [ftok|]; [|simplify_eq; done].
  destruct (table_lookup ftok format_map) as [f|]; [|simplify_eq; done].
  apply bind_Ok in H as ([vtok r3] & _ & H).
  destruct vtok as [vtok|]; [|simplify_eq; done].
  apply (header_loop_keeps fuel (set_format f p) p' t1); assumption.
Qed.

Lemma parse_metadata_true (fuel : nat) (p p' : SplatParserPly)
    (ply_buffer : string) (metadata metadata' : Metadata) :
  parse_metadata fuel p ply_buffer metadata = Ok (true, p', metadata') ->
  parse_header fuel (set_buffer ply_buffer p) = Ok (true, p')
  /\ metadata' = write_metadata p' metadata.
Proof.
  unfold parse_metadata. intros H.
  apply bind_Ok in H as ([ok p1] & Hhdr & H).
  destruct ok; simpl in H; [|discriminate].
  destruct (negb _); [discriminate|]. injection H as <- <-. done.
Qed.

Lemma parsed_metadata_facts (fuel : nat) (p p' : SplatParserPly)
    (ply_buffer : string) (metadata metadata' : Metadata) :
  layout p = ∅ -> num_splats p = 0%Z -> properties metadata = ∅ ->
  parse_metadata fuel p ply_buffer metadata = Ok (true, p', metadata') ->
  properties metadata' = type <$> layout p'
  /\ (forall k f, properties metadata' !! k = Some f ->
        k <> Property.Ignore /\ f = PropertyFormat.F32)
  /\ (0 <= md_num_splats metadata' < 2 ^ 64)%Z
  /\ (properties metadata' <> ∅ -> md_num_splats metadata' <> 0%Z).
Proof.
  intros Hl Hn Hm H. apply parse_metadata_true in H as [Hhdr ->].
  assert (Hok : parser_ok (set_buffer ply_buffer p)).
  { split; [|split; [left; exact Hl | simpl; rewrite Hn; lia]].
    intros k d. simpl. rewrite Hl, lookup_empty. discriminate. }
  destruct (parse_header_keeps _ _ _ Hhdr) as [_ Hok1].
  destruct (Hok1 Hok) as (Hlo & Hne & Hrange).
  assert (Heq : properties (write_metadata p' metadata) = type <$> layout p').
  { apply map_eq. intros k.
    rewrite write_metadata_fold.
    rewrite Hm, lookup_empty, lookup_fmap. reflexivity. }
  split; [exact Heq|]. split; [|split; [exact Hrange|]].
  - intros k f. rewrite Heq, lookup_fmap.
    destruct (layout p' !! k) as [d|] eqn:Hk; simpl; [|discriminate].
    intros [= <-]. apply Hlo, Hk.
  - rewrite Heq. intros Hnonempty. simpl.
    destruct Hne as [He | Hnz]; [|exact Hnz].
    exfalso. apply Hnonempty. rewrite He. apply fmap_empty.
Qed.

Lemma parse_example_file :
  parse_metadata 8 new_parser example_file empty_metadata
  = Ok (true,
        mkSplatParserPly PlyFormat.BinaryLittleEndian
          {[ Property.X := mkPropertyDesc 0 PropertyFormat.F32 ]}
          1 4 "abcd",
        mkMetadata {[ Property.X := PropertyFormat.F32 ]} 1).
Proof. vm_compute. reflexivity. Qed.

Lemma parse_complete_file :
  exists p' metadata',
    parse_metadata 24 new_parser complete_file empty_metadata
    = Ok (true, p', metadata')
    /\ validate_metadata metadata' = true.
Proof.
  vm_compute. eexists. eexists. split; reflexivity.
Qed.

(** X16. The metadata of a file that a new parser accepts mirrors the
    layout the header declared: it holds exactly the properties of the
    layout, each a property the importer handles (never [Ignore]) of format
    [F32]; the splat count fits a [size_t]; and a file that declares any
    property has a non-zero count, since properties are only read after the
    element line. *)
Theorem parsed_metadata_wellformed (fuel : nat) (p p' : SplatParserPly)
    (ply_buffer : string) (metadata metadata' : Metadata) :
  layout p = ∅ -> num_splats p = 0%Z -> properties metadata = ∅ ->
  parse_metadata fuel p ply_buffer metadata = Ok (true, p', metadata') ->
  properties metadata' = type <$> layout p'
  /\ (forall k f, properties metadata' !! k = Some f ->
        k <> Property.Ignore /\ f = PropertyFormat.F32)
  /\ (0 <= md_num_splats metadata' < 2 ^ 64)%Z
  /\ (properties metadata' <> ∅ -> md_num_splats metadata' <> 0%Z).
Proof.
  intros Hl Hn Hm H.
  exact (parsed_metadata_facts fuel p p' ply_buffer metadata metadata'
           Hl Hn Hm H).
Qed.

Lemma parsed_metadata_wellformed_witness :
  let p' :=
    mkSplatParserPly PlyFormat.BinaryLittleEndian
      {[ Property.X := mkPropertyDesc 0 PropertyFormat.F32 ]} 1 4 "abcd" in
  let metadata' := mkMetadata {[ Property.X := PropertyFormat.F32 ]} 1 in
  layout new_parser = ∅ /\ num_splats new_parser = 0%Z
  /\ properties empty_metadata = ∅
  /\ parse_metadata 8 new_parser example_file empty_metadata
     = Ok (true, p', metadata')
  /\ properties metadata' = type <$> layout p'
  /\ (forall k f, properties metadata' !! k = Some f ->
        k <> Property.Ignore /\ f = PropertyFormat.F32)
  /\ (0 <= md_num_splats metadata' < 2 ^ 64)%Z
  /\ (properties metadata' <> ∅ -> md_num_splats metadata' <> 0%Z).
Proof.
  cbv zeta. split; [reflexivity|]. split; [reflexivity|].
  split; [reflexivity|]. split; [exact parse_example_file|].
  exact (parsed_metadata_wellformed 8 new_parser _ example_file
           empty_metadata _ eq_refl eq_refl eq_refl parse_example_file).
Defined.

(** X17. A file that a new parser accepts and that [validate_metadata]
    accepts holds at least one splat, and each of the fourteen properties
    the conversion reads is present as an [F32]: the two checks together
    leave no required property missing or of another format. *)
Theorem valid_file_has_splats (fuel : nat) (p p' : SplatParserPly)
    (ply_buffer : string) (metadata metadata' : Metadata) :
  layout p = ∅ -> num_splats p = 0%Z -> properties metadata = ∅ ->
  parse_metadata fuel p ply_buffer metadata = Ok (true, p', metadata') ->
  validate_metadata metadata' = true ->
  (0 < md_num_splats metadata' < 2 ^ 64)%Z
  /\ forall property, property <> Property.Ignore ->
       properties metadata' !! property = Some PropertyFormat.F32.
Proof.
  intros Hl Hn Hm H Hv.
  destruct (parsed_metadata_facts _ _ _ _ _ _ Hl Hn Hm H)
    as (_ & Hf & Hrange & Hnz).
  unfold validate_metadata in Hv. rewrite all_present_spec in Hv.
  assert (Hall : forall property, property <> Property.Ignore ->
                   is_Some (properties metadata' !! property)).
  { intros property Hne. apply Hv, required_properties_complete, Hne. }
  split.
  - assert (md_num_splats metadata' <> 0%Z); [|lia].
    apply Hnz. intros He.
    destruct (Hall Property.X ltac:(discriminate)) as [f Hx].
    rewrite He, lookup_empty in Hx. discriminate.
  - intros property Hne. destruct (Hall property Hne) as [f Hp].
    rewrite Hp. f_equal. apply (Hf _ _ Hp).
Qed.

Lemma valid_file_has_splats_witness :
  layout new_parser = ∅ /\ num_splats new_parser = 0%Z
  /\ properties empty_metadata = ∅
  /\ exists p' metadata',
       parse_metadata 24 new_parser complete_file empty_metadata
       = Ok (true, p', metadata')
       /\ validate_metadata metadata' = true
       /\ (0 < md_num_splats metadata' < 2 ^ 64)%Z
       /\ forall property, property <> Property.Ignore ->
            properties metadata' !! property = Some PropertyFormat.F32.
Proof.
  split; [reflexivity|]. split; [reflexivity|]. split; [reflexivity|].
  destruct parse_complete_file as (p' & metadata' & H & Hv).
  exists p', metadata'. split; [exact H|]. split; [exact Hv|].
  exact (valid_file_has_splats 24 new_parser p' complete_file empty_metadata
           metadata' eq_refl eq_refl eq_refl H Hv).
Defined.

Lemma parse_metadata_size (fuel : nat) (p p' : SplatParserPly)
    (ply_buffer : string) (metadata metadata' : Metadata) :
  parse_metadata fuel p ply_buffer metadata = Ok (true, p', metadata') ->
  Z.of_nat (String.length (buffer p'))
  = size_t (num_splats p' * splat_size p').
Proof.
  unfold parse_metadata. intros H.
  apply bind_Ok in H as ([ok p1] & Hhdr & H).
  destruct ok; simpl in H; [|discriminate].
  destruct (Z.eqb_spec (Z.of_nat (String.length (buffer p1)))
              (size_t (num_splats p1 * splat_size p1))) as [He | Hne];
    simpl in H; [|discriminate].
  injection H as <- _. exact He.
Qed.

(** X18. After a successful [parse_metadata] the parser's buffer is the rest
    of the file behind the header: the file is some header text followed by
    exactly the buffer, whose length is the product of splat count and
    record size as a [size_t]. *)
Theorem data_follows_header (fuel : nat) (p p' : SplatParserPly)
    (ply_buffer : string) (metadata metadata' : Metadata) :
  parse_metadata fuel p ply_buffer metadata = Ok (true, p', metadata') ->
  (exists header, ply_buffer = header ++ buffer p')
  /\ Z.of_nat (String.length (buffer p'))
     = size_t (num_splats p' * splat_size p').
Proof.
  intros H. split; [|exact (parse_metadata_size _ _ _ _ _ _ H)].
  apply parse_metadata_true in H as [Hhdr _].
  destruct (parse_header_keeps _ _ _ Hhdr) as [Hs _]. exact Hs.
Qed.

Lemma data_follows_header_witness :
  let p' :=
    mkSplatParserPly PlyFormat.BinaryLittleEndian
      {[ Property.X := mkPropertyDesc 0 PropertyFormat.F32 ]} 1 4 "abcd" in
  parse_metadata 8 new_parser example_file empty_metadata
  = Ok (true, p', mkMetadata {[ Property.X := PropertyFormat.F32 ]} 1)
  /\ (exists header, example_file = header ++ buffer p')
  /\ Z.of_nat (String.length (buffer p'))
     = size_t (num_splats p' * splat_size p').
Proof.
  cbv zeta. split; [exact parse_example_file|].
  exact (data_follows_header 8 new_parser _ example_file empty_metadata _
           parse_example_file).
Defined.

Lemma find_if_append_none (P : ascii -> bool) (a b : string) :
  find_if P a = None ->
  find_if P (a ++ b) = option_map (Nat.add (String.length a)) (find_if P b).
Proof.
  induction a as [|c a IH]; intros Ha.
  - rewrite append_nil. simpl. destruct (find_if P b); reflexivity.
  - rewrite append_cons, find_if_cons. rewrite find_if_cons in Ha.
    destruct (P c); [discriminate|].
    destruct (find_if P a); [discriminate|].
    rewrite (IH eq_refl). simpl. destruct (find_if P b); reflexivity.
Qed.

Lemma find_if_prefix_none (P : ascii -> bool) (s : string) (i : nat) :
  find_if P s = Some i -> find_if P (substr_to i s) = None.
Proof.
  revert i. induction s as [|c s IH]; intros i; [discriminate|].
  rewrite find_if_cons. destruct (P c) eqn:Hc.
  - intros [= <-]. reflexivity.
  - destruct (find_if P s) as [j|]; simpl; [|discriminate].
    intros [= <-]. simpl. rewrite Hc, (IH j eq_refl). reflexivity.
Qed.

Lemma find_last_if_tail_none (P : ascii -> bool) (s : string) (e : nat) :
  find_last_if P s = Some e -> find_if P (remove_prefix (S e) s) = None.
Proof.
  revert e. induction s as [|c s IH]; intros e; [discriminate|]. simpl.
  destruct (find_last_if P s) as [i|] eqn:Hl.
  - intros [= <-]. apply IH. reflexivity.
  - destruct (P c); [|discriminate]. intros [= <-]. simpl.
    apply find_last_if_none, Hl.
Qed.

(** X21. [pop_token] splits off what was joined: for a non-empty token
    without whitespace, followed by a non-empty run of blanks and tabs and
    by a rest that starts with another character, it returns the token and
    leaves the rest as the line. *)
Theorem pop_token_round_trip (token sep rest : string) :
  token <> EmptyString -> no_whitespace token ->
  sep <> EmptyString -> all_whitespace sep ->
  find_first_not_of whitespace_chars rest = Some O ->
  pop_token (token ++ sep ++ rest) = Ok (Some token, rest).
Proof.
  intros Hne Hnw Hsne Hws Hrest. unfold pop_token.
  unfold no_whitespace, find_first_of in Hnw.
  unfold all_whitespace, find_first_not_of in Hws.
  assert (Hfirst : find_first_not_of whitespace_chars (token ++ sep ++ rest)
                   = Some O).
  { destruct token as [|c token]; [congruence|].
    rewrite append_cons. unfold find_first_not_of. rewrite find_if_cons.
    rewrite find_if_cons in Hnw.
    destruct (contains_char c whitespace_chars); [discriminate | reflexivity]. }
  rewrite Hfirst.
  assert (Hsep0 : find_if (fun c => contains_char c whitespace_chars)
                    (sep ++ rest) = Some O).
  { destruct sep as [|c sep]; [congruence|].
    rewrite append_cons, find_if_cons. rewrite find_if_cons in Hws.
    destruct (contains_char c whitespace_chars); [reflexivity | discriminate]. }
  unfold find_first_of. rewrite (find_if_append_none _ _ _ Hnw), Hsep0.
  simpl option_map. rewrite Nat.add_0_r.
  rewrite substr_to_append.
  unfold find_first_not_of_from. rewrite remove_prefix_append.
  unfold find_first_not_of. rewrite (find_if_append_none _ _ _ Hws).
  unfold find_first_not_of in Hrest. rewrite Hrest. simpl option_map.
  rewrite Nat.add_0_r, remove_prefix_add, remove_prefix_append.
  rewrite remove_prefix_append. reflexivity.
Qed.

Lemma pop_token_round_trip_witness :
  "property" <> EmptyString /\ no_whitespace "property"
  /\ " " <> EmptyString /\ all_whitespace " "
  /\ find_first_not_of whitespace_chars "float x" = Some O
  /\ pop_token ("property" ++ " " ++ "float x")
     = Ok (Some "property", "float x").
Proof.
  assert (H1 : "property" <> EmptyString) by discriminate.
  assert (H2 : no_whitespace "property") by reflexivity.
  assert (H3 : " " <> EmptyString) by discriminate.
  assert (H4 : all_whitespace " ") by reflexivity.
  assert (H5 : find_first_not_of whitespace_chars "float x" = Some O)
    by reflexivity.
  split; [exact H1|]. split; [exact H2|]. split; [exact H3|].
  split; [exact H4|]. split; [exact H5|].
  exact (pop_token_round_trip "property" " " "float x" H1 H2 H3 H4 H5).
Defined.

(** X22. Whenever [pop_token] returns a token, the token is not empty and
    holds no whitespace, the line it was taken from starts with it, and the
    new line is a suffix of the old one. *)
Theorem pop_token_shape (line token rest : string) :
  pop_token line = Ok (Some token, rest) ->
  token <> EmptyString /\ no_whitespace token
  /\ (exists gap, line = token ++ gap /\ suffix_of rest line).
Proof.
  unfold pop_token.
  destruct (find_first_not_of whitespace_chars line) as [[|n]|] eqn:Hfirst;
    try discriminate.
  destruct (find_first_of whitespace_chars line) as [i|] eqn:Hi.
  - destruct (find_first_not_of_from _ _ _) as [j|]; [|discriminate].
    intros [= <- <-].
    split; [|split].
    + destruct line as [|c line]; [discriminate|].
      destruct i as [|i]; [|discriminate].
      unfold find_first_not_of in Hfirst. unfold find_first_of in Hi.
      rewrite find_if_cons in Hfirst, Hi.
      destruct (contains_char c whitespace_chars); simpl in Hfirst, Hi.
      * destruct (find_if _ line) in Hfirst; discriminate.
      * destruct (find_if _ line) in Hi; discriminate.
    + apply find_if_prefix_none, Hi.
    + exists (remove_prefix i line). split.
      * symmetry. apply substr_remove.
      * exists (substr_to j line). symmetry. apply substr_remove.
  - intros [= <- <-]. split; [|split].
    + destruct line; [discriminate | discriminate].
    + exact Hi.
    + exists EmptyString. split.
      * clear. induction line as [|c l IH]; [reflexivity|].
        rewrite append_cons, <- IH. reflexivity.
      * exists EmptyString. reflexivity.
Qed.

Lemma pop_token_shape_witness :
  pop_token "float x" = Ok (Some "float", "x")
  /\ "float" <> EmptyString /\ no_whitespace "float"
  /\ (exists gap, "float x" = "float" ++ gap /\ suffix_of "x" "float x").
Proof.
  assert (H : pop_token "float x" = Ok (Some "float", "x")) by reflexivity.
  split; [exact H|].
  exact (pop_token_shape "float x" "float" "x" H).
Defined.

(** X23. The trimming that [pop_line] applies to a line either finds only
    whitespace, or returns the line without the blanks and tabs around it:
    the result starts and ends with a character other than whitespace, and
    the line is the result between two runs of whitespace. *)
Theorem trim_line_shape (l : string) :
  match trim_line l with
  | None => all_whitespace l
  | Some line =>
      trimmed line
      /\ exists before after,
           l = before ++ line ++ after
           /\ all_whitespace before /\ all_whitespace after
  end.
Proof.
  destruct (trim_line l) as [line|] eqn:Ht.
  - split; [apply (trim_line_trimmed l), Ht|].
    unfold trim_line in Ht.
    destruct (find_first_not_of whitespace_chars l) as [start|] eqn:Hs;
      [|discriminate].
    pose proof (find_if_prefix_none _ _ _ Hs) as Hbefore.
    apply find_if_remove_prefix in Hs.
    destruct (find_last_not_of _ _) as [e|] eqn:He.
    + assert (Hline : substr_to (S e) (remove_prefix start l) = line)
        by congruence.
      rewrite <- Hline. clear Ht Hline.
      exists (substr_to start l),
             (remove_prefix (S e) (remove_prefix start l)).
      split; [|split].
      * rewrite substr_remove, substr_remove. reflexivity.
      * exact Hbefore.
      * apply find_last_if_tail_none, He.
    + apply find_last_if_none in He. unfold find_first_not_of in Hs.
      congruence.
  - unfold trim_line in Ht. unfold all_whitespace.
    destruct (find_first_not_of whitespace_chars l); [|reflexivity].
    destruct (find_last_not_of _ _); discriminate.
Qed.

Lemma leading_digits_stop (s : string) (c : ascii) (rest : string)
    (acc : option Z) :
  digit_value c = None ->
  leading_digits (s ++ String c rest) acc = leading_digits s acc.
Proof.
  intros Hc. revert acc. induction s as [|d s IH]; intros acc.
  - rewrite append_nil. simpl. rewrite Hc. reflexivity.
  - rewrite append_cons. simpl. destruct (digit_value d); [apply IH | reflexivity].
Qed.

(** X24. The splat count is read leniently: [from_chars] stops at the first
    character that is not a decimal digit and ignores what follows, so
    [12abc] counts as [12]; it fails when the token does not start with a
    digit; and a value it returns always fits a [size_t]. *)
Theorem from_chars_lenient (s : string) (c : ascii) (rest : string) :
  digit_value c = None ->
  from_chars (s ++ String c rest) = from_chars s
  /\ from_chars (String c rest) = None
  /\ forall v, from_chars s = Some v -> (0 <= v < 2 ^ 64)%Z.
Proof.
  intros Hc. split; [|split].
  - unfold from_chars. rewrite leading_digits_stop by exact Hc. reflexivity.
  - unfold from_chars. simpl. rewrite Hc. reflexivity.
  - apply from_chars_range.
Qed.

Lemma from_chars_lenient_witness :
  digit_value "a" = None
  /\ from_chars ("12" ++ String "a" "bc") = from_chars "12"
  /\ from_chars (String "a" "bc") = None
  /\ forall v, from_chars "12" = Some v -> (0 <= v < 2 ^ 64)%Z.
Proof.
  assert (H : digit_value "a" = None) by reflexivity.
  split; [exact H|].
  exact (from_chars_lenient "12" "a" "bc" H).
Defined.

Lemma fold_left_collect {A B : Type} (g : A -> B) (l : list A) (acc : list B) :
  fold_left (fun seen i => app seen [g i]) l acc = app acc (map g l).
Proof.
  revert acc. induction l as [|x l IH]; intros acc; simpl.
  - rewrite app_nil_r. reflexivity.
  - rewrite IH, <- app_assoc. reflexivity.
Qed.

(** [parse_data] refuses a format other than the two binary ones without
    calling back, and otherwise visits the splats in ascending order. *)
Lemma parse_data_visits_in_order {A : Type} (p : SplatParserPly)
    (parse_splat : nat -> GetPropertyFn -> A -> A) (a : A) :
  (fst (parse_data p parse_splat a) = false ->
   snd (parse_data p parse_splat a) = a)
  /\ (fst (parse_data p parse_splat a) = true <->
      format p = PlyFormat.BinaryBigEndian
      \/ format p = PlyFormat.BinaryLittleEndian)
  /\ (fst (parse_data p parse_splat a) = true ->
      snd (parse_data p (fun i _ seen => app seen [i]) [])
      = seq 0 (Z.to_nat (num_splats p))).
Proof.
  unfold parse_data.
  destruct (format p); simpl; repeat split; try tauto; try discriminate;
    try (intros [H | H]; discriminate).
  all: intros _; unfold parse_splats;
    rewrite (fold_left_collect (fun i => i)), map_id; reflexivity.
Qed.

Lemma byte_value_range (c : ascii) : (0 <= byte_value c < 256)%Z.
Proof.
  unfold byte_value. pose proof (nat_ascii_bounded c). lia.
Qed.

(** X26. [get_property_binary] reads a property from the four bytes at its
    offset in the record: the first byte is the least significant for a
    little-endian file and the most significant for a big-endian one, and
    the bit pattern is below [2^32].  Bytes before the offset and after the
    four play no part. *)
Theorem get_property_reads_record (layout : gmap Property.t PropertyDesc)
    (k : Property.t) (o : Z) (pre post : string) (b0 b1 b2 b3 : ascii) :
  layout !! k = Some (mkPropertyDesc o PropertyFormat.F32) ->
  String.length pre = Z.to_nat o ->
  let data := pre ++ String b0 (String b1 (String b2 (String b3 post))) in
  let le := (byte_value b0 + 256 * byte_value b1 + 65536 * byte_value b2
             + 16777216 * byte_value b3)%Z in
  let be := (byte_value b3 + 256 * byte_value b2 + 65536 * byte_value b1
             + 16777216 * byte_value b0)%Z in
  get_property_binary little k layout data = Ok (Float le)
  /\ get_property_binary big k layout data = Ok (Float be)
  /\ (0 <= le < 2 ^ 32)%Z /\ (0 <= be < 2 ^ 32)%Z.
Proof.
  intros Hk Hlen. cbv zeta. unfold get_property_binary. rewrite Hk.
  cbn [offset type]. rewrite <- Hlen, remove_prefix_append.
  split; [reflexivity|]. split; [reflexivity|].
  pose proof (byte_value_range b0). pose proof (byte_value_range b1).
  pose proof (byte_value_range b2). pose proof (byte_value_range b3).
  change (2 ^ 32)%Z with 4294967296%Z. lia.
Qed.

Lemma get_property_reads_record_witness :
  let layout : gmap Property.t PropertyDesc :=
    {[ Property.X := mkPropertyDesc 0 PropertyFormat.F32 ]} in
  layout !! Property.X = Some (mkPropertyDesc 0 PropertyFormat.F32)
  /\ String.length "" = Z.to_nat 0
  /\ get_property_binary little Property.X layout ("" ++ "abcd")
     = Ok (Float (byte_value "a" + 256 * byte_value "b"
                  + 65536 * byte_value "c" + 16777216 * byte_value "d"))
  /\ get_property_binary big Property.X layout ("" ++ "abcd")
     = Ok (Float (byte_value "d" + 256 * byte_value "c"
                  + 65536 * byte_value "b" + 16777216 * byte_value "a"))
  /\ (0 <= byte_value "a" + 256 * byte_value "b" + 65536 * byte_value "c"
           + 16777216 * byte_value "d" < 2 ^ 32)%Z
  /\ (0 <= byte_value "d" + 256 * byte_value "c" + 65536 * byte_value "b"
           + 16777216 * byte_value "a" < 2 ^ 32)%Z.
Proof.
  assert (H1 : ({[ Property.X := mkPropertyDesc 0 PropertyFormat.F32 ]}
                  : gmap Property.t PropertyDesc) !! Property.X
               = Some (mkPropertyDesc 0 PropertyFormat.F32)) by reflexivity.
  assert (H2 : String.length "" = Z.to_nat 0) by reflexivity.
  cbv zeta. split; [exact H1|]. split; [exact H2|].
  exact (get_property_reads_record _ Property.X 0 "" "" "a" "b" "c" "d"
           H1 H2).
Defined.

(** A property the layout lacks makes [at] throw; a record too short for the
    four bytes is read past its end. *)
Lemma get_property_edges (E : endian) (layout : gmap Property.t PropertyDesc)
    (k : Property.t) (data : string) :
  (layout !! k = None ->
   get_property_binary E k layout data = Abort OutOfRange)
  /\ (forall o, layout !! k = Some (mkPropertyDesc o PropertyFormat.F32) ->
      (String.length data < Z.to_nat o + 4)%nat ->
      get_property_binary E k layout data = Abort UndefinedBehaviour).
Proof.
  split.
  - intros Hk. unfold get_property_binary. rewrite Hk. reflexivity.
  - intros o Hk Hshort. unfold get_property_binary. rewrite Hk.
    cbn [offset type].
    assert (Hl : (String.length (remove_prefix (Z.to_nat o) data) < 4)%nat).
    { clear -Hshort. revert data Hshort.
      induction (Z.to_nat o) as [|n IH]; intros data H; simpl in *.
      - exact H.
      - destruct data as [|c data]; simpl in *; [lia|]. apply IH. lia. }
    destruct (remove_prefix (Z.to_nat o) data) as [|c0 [|c1 [|c2 [|c3 s]]]];
      simpl in Hl; try lia; reflexivity.
Qed.

(** [add_property] refuses a property declared twice, records a new one at
    the current record size, and lets an ignored one only grow the
    record. *)
Lemma add_property_records (p : SplatParserPly) (prop : Property.t)
    (t : PropertyFormat.t) :
  (prop <> Property.Ignore -> is_Some (layout p !! prop) ->
   add_property p prop t = Ok (false, p))
  /\ (prop <> Property.Ignore -> layout p !! prop = None ->
      exists p',
        add_property p prop PropertyFormat.F32 = Ok (true, p')
        /\ layout p' !! prop
           = Some (mkPropertyDesc (splat_size p) PropertyFormat.F32)
        /\ (forall q, q <> prop -> layout p' !! q = layout p !! q)
        /\ splat_size p' = size_t (splat_size p + 4))
  /\ (exists p',
        add_property p Property.Ignore PropertyFormat.F32 = Ok (true, p')
        /\ layout p' = layout p
        /\ splat_size p' = size_t (splat_size p + 4)).
Proof.
  split; [|split].
  - intros Hne [d Hd]. rewrite add_property_cases.
    destruct (decide (prop = Property.Ignore)); [contradiction|].
    rewrite Hd. reflexivity.
  - intros Hne Hnone. rewrite add_property_cases.
    destruct (decide (prop = Property.Ignore)); [contradiction|].
    rewrite Hnone. simpl. eexists. split; [reflexivity|]. simpl.
    split; [apply lookup_insert_eq|]. split; [|reflexivity].
    intros q Hq. apply lookup_insert_ne. congruence.
  - rewrite add_property_cases. simpl. eexists. split; [reflexivity|].
    split; reflexivity.
Qed.












End PlyImporter.

(** ** The importer: the header, line by line *)

Module PlyHeaders.
Import Ply PlyNotions PlyFacts PlyImporter.
Local Open Scope string_scope.
#[local] Arguments table_lookup : simpl never.
#[local] Arguments from_chars : simpl never.
#[local] Arguments add_property : simpl never.

Lemma first_token_inv (l token : string) :
  first_token l = Some token ->
  exists line rest,
    trim_line l = Some line /\ pop_token line = Ok (Some token, rest)
    /\ trimmed rest.
Proof.
  unfold first_token.
  destruct (trim_line l) as [line|] eqn:Ht; [|discriminate].
  apply trim_line_trimmed in Ht.
  destruct (pop_token_trimmed line Ht) as (tok & rest & Hp & Hr).
  rewrite Hp. intros [= <-]. eauto.
Qed.

(** A comment line changes nothing and the loop goes on behind it. *)
Lemma comment_lines_are_skipped (fuel : nat) (p : SplatParserPly)
    (l rest : string) :
  no_newline l -> first_token l = Some "comment" ->
  header_step p (l ++ nl ++ rest) = Ok (Continue p rest)
  /\ header_loop (S fuel) p (l ++ nl ++ rest) = header_loop fuel p rest.
Proof.
  intros Hl Hc.
  assert (Hstep : header_step p (l ++ nl ++ rest) = Ok (Continue p rest)).
  { unfold header_step. rewrite pop_line_terminated by exact Hl.
    destruct (first_token_inv l _ Hc) as (line & r & -> & -> & _).
    reflexivity. }
  split; [exact Hstep|]. simpl. rewrite Hstep. reflexivity.
Qed.

(** The [end_header] line ends the loop with the data as the buffer. *)
Lemma end_header_line_returns (p : SplatParserPly) (l data pre : string) :
  no_newline l -> first_token l = Some "end_header" ->
  buffer p = pre ++ l ++ nl ++ data ->
  header_step p (l ++ nl ++ data) = Ok (Return true (set_buffer data p)).
Proof.
  intros Hl Ht Hb.
  unfold header_step. rewrite pop_line_terminated by exact Hl.
  destruct (first_token_inv l _ Ht) as (line & r & -> & -> & _).
  simpl. do 3 f_equal.
  replace (pre ++ l ++ nl ++ data) with ((pre ++ l ++ nl) ++ data) in Hb
    by (rewrite !append_assoc; reflexivity).
  rewrite Hb. apply remove_prefix_suffix.
Qed.

Lemma header_step_total (p : SplatParserPly) (l rest : string) :
  no_newline l ->
  match header_step p (l ++ nl ++ rest) with
  | Ok (Continue _ text) => text = rest
  | Ok (Return _ _) => True
  | Abort _ => False
  end.
Proof.
  intros Hl.
  destruct (decide (first_token l = Some "end_header")) as [He | Hne].
  - unfold header_step. rewrite pop_line_terminated by exact Hl.
    destruct (first_token_inv l _ He) as (line & r & -> & -> & _).
    simpl. exact I.
  - pose proof (header_step_terminated p l rest Hl Hne) as H.
    destruct (header_step p _) as [[p' t | [|] p'] | why]; simpl in *; tauto.
Qed.

Lemma header_loop_total (lines : list string) (rest : string) :
  Forall no_newline lines ->
  forall (fuel : nat) (p : SplatParserPly),
    (List.length lines <= fuel)%nat ->
    (exists ok p', header_loop fuel p (terminated lines ++ rest) = Ok (ok, p'))
    \/ (exists p', header_loop fuel p (terminated lines ++ rest)
                   = header_loop (fuel - List.length lines) p' rest).
Proof.
  intros Hnl. induction lines as [|b lines IH]; intros fuel p Hfuel.
  - right. exists p. simpl. rewrite append_nil, Nat.sub_0_r. reflexivity.
  - apply Forall_cons in Hnl. destruct Hnl as [Hb Hnl].
    destruct fuel as [|fuel]; [simpl in Hfuel; lia|]. simpl in Hfuel.
    simpl terminated. rewrite !append_assoc. simpl header_loop.
    pose proof (header_step_total p b (terminated lines ++ rest) Hb) as Hstep.
    destruct (header_step p _) as [[p1 t | ok p1] | why]; simpl in *;
      [|left; eauto | contradiction].
    subst t. apply (IH Hnl). lia.
Qed.

Lemma end_header_step (p : SplatParserPly) (l data : string) :
  no_newline l -> first_token l = Some "end_header" ->
  exists p', header_step p (l ++ nl ++ data) = Ok (Return true p').
Proof.
  intros Hl Ht.
  unfold header_step. rewrite pop_line_terminated by exact Hl.
  destruct (first_token_inv l _ Ht) as (line & r & -> & -> & _).
  simpl. eauto.
Qed.

Lemma header_loop_returns (lines : list string) (l data : string) :
  Forall no_newline lines -> no_newline l ->
  first_token l = Some "end_header" ->
  forall (fuel : nat) (p : SplatParserPly),
    (List.length lines < fuel)%nat ->
    exists ok p',
      header_loop fuel p (terminated lines ++ l ++ nl ++ data) = Ok (ok, p').
Proof.
  intros Hnl Hl He fuel p Hfuel.
  destruct (header_loop_total lines (l ++ nl ++ data) Hnl fuel p ltac:(lia))
    as [Hret | [p' Heq]]; [exact Hret|].
  rewrite Heq.
  destruct (fuel - List.length lines)%nat as [|k] eqn:Hk; [lia|].
  simpl. destruct (end_header_step p' l data Hl He) as [p'' ->].
  simpl. eauto.
Qed.

Lemma parse_header_returns (fuel : nat) (p : SplatParserPly)
    (before : list string) (l data : string) :
  Forall no_newline before -> no_newline l ->
  first_token l = Some "end_header" ->
  (List.length before < fuel)%nat ->
  buffer p = terminated before ++ l ++ nl ++ data ->
  exists ok p', parse_header fuel p = Ok (ok, p').
Proof.
  intros Hnl Hl He Hfuel Hbuf.
  destruct (first_token_inv l _ He) as (line & r & Htrim & Hpop & _).
  unfold parse_header. rewrite Hbuf.
  destruct before as [|b0 before].
  - simpl terminated. rewrite append_nil.
    rewrite pop_line_terminated, Htrim by assumption.
    destruct (String.eqb_spec line "ply") as [-> | _]; simpl; [|eauto].
    vm_compute in Hpop. discriminate Hpop.
  - apply Forall_cons in Hnl. destruct Hnl as [Hb0 Hnl].
    simpl terminated. rewrite !append_assoc.
    rewrite pop_line_terminated by assumption.
    destruct (trim_line b0) as [line0|]; [|eauto].
    destruct (negb (String.eqb line0 "ply")); [eauto|].
    destruct before as [|b1 before].
    + simpl terminated. rewrite append_nil.
      rewrite pop_line_terminated, Htrim by assumption.
      rewrite Hpop. simpl. eauto.
    + apply Forall_cons in Hnl. destruct Hnl as [Hb1 Hnl].
      simpl terminated. rewrite !append_assoc.
      rewrite pop_line_terminated by assumption.
      destruct (trim_line b1) as [line1|] eqn:Ht1; [|eauto].
      apply trim_line_trimmed in Ht1.
      destruct (pop_token_trimmed line1 Ht1) as (tok & r1 & -> & Hr1).
      simpl.
      destruct (negb (String.eqb tok "format")); [eauto|].
      destruct (pop_token_trimmed r1 Hr1) as (ftok & r2 & -> & Hr2).
      simpl.
      destruct (table_lookup ftok format_map) as [f|]; [|eauto].
      destruct (pop_token_trimmed r2 Hr2) as (vtok & r3 & -> & _).
      simpl.
      assert (Hlen : (List.length before < fuel)%nat)
        by (simpl in Hfuel; lia).
      destruct (header_loop_returns before l data Hnl Hl He fuel
                  (set_format f p) Hlen) as (ok & p' & Hloop).
      exists ok, p'. exact Hloop.
Qed.

(** Without its log calls [parse_metadata] returns on every header whose
    lines, the [end_header] line included, each end in a line feed. *)
Lemma parse_metadata_returns (fuel : nat) (p : SplatParserPly)
    (before : list string) (l data : string) (metadata : Metadata) :
  Forall no_newline before -> no_newline l ->
  first_token l = Some "end_header" ->
  (List.length before < fuel)%nat ->
  exists ok p' metadata',
    parse_metadata fuel p (terminated before ++ l ++ nl ++ data) metadata
    = Ok (ok, p', metadata').
Proof.
  intros Hnl Hl He Hfuel. unfold parse_metadata.
  destruct (parse_header_returns fuel
              (set_buffer (terminated before ++ l ++ nl ++ data) p)
              before l data Hnl Hl He Hfuel eq_refl) as (ok & p' & ->).
  simpl. destruct ok; simpl; [|eauto].
  destruct (negb _); eauto.
Qed.

End PlyHeaders.

(** ** Conversion of a record to a splat *)

Module ConversionFacts.
Import Ply Conversion.
Local Open Scope R_scope.

Lemma clamp_le (u v lo hi : R) :
  lo <= hi -> u <= v -> clamp u lo hi <= clamp v lo hi.
Proof.
  intros H Huv. unfold clamp.
  destruct (Rlt_dec u lo), (Rlt_dec v lo); try lra;
    destruct (Rlt_dec hi u), (Rlt_dec hi v); lra.
Qed.

Lemma to_uint8_le (x y : R) : x <= y -> (to_uint8 x <= to_uint8 y)%Z.
Proof.
  intros Hxy. unfold to_uint8.
  destruct (base_Int_part x) as [Hx _]. destruct (base_Int_part y) as [_ Hy].
  assert (H : (Int_part x < Int_part y + 1)%Z).
  { apply lt_IZR. rewrite plus_IZR. lra. }
  lia.
Qed.

(** X28. [to_alpha_linear] is monotone: a larger raw opacity never gives a
    smaller alpha. *)
Theorem alpha_monotone (rt : runtime) (a b : PropertyType) :
  to_float rt a <= to_float rt b ->
  (to_alpha_linear rt a <= to_alpha_linear rt b)%Z.
Proof.
  intros Hab. unfold to_alpha_linear. apply to_uint8_le, clamp_le; [lra|].
  pose proof (exp_pos (- to_float rt a)) as Ha.
  pose proof (exp_pos (- to_float rt b)) as Hb.
  assert (He : exp (- to_float rt b) <= exp (- to_float rt a)).
  { destruct Hab as [Hlt | Heq]; [left; apply exp_increasing; lra|].
    rewrite Heq. lra. }
  apply Rmult_le_compat_r; [lra|].
  unfold Rdiv. rewrite !Rmult_1_l.
  apply Rinv_le_contravar; lra.
Qed.

Lemma alpha_monotone_witness :
  to_float example_runtime (Int32 0) <= to_float example_runtime (Int32 1)
  /\ (to_alpha_linear example_runtime (Int32 0)
      <= to_alpha_linear example_runtime (Int32 1))%Z.
Proof.
  assert (H : to_float example_runtime (Int32 0)
              <= to_float example_runtime (Int32 1)) by (simpl; lra).
  split; [exact H|].
  exact (alpha_monotone example_runtime (Int32 0) (Int32 1) H).
Defined.

(** A scale is positive and grows with its logarithm. *)
Lemma scale_positive (rt : runtime) (a b : PropertyType) :
  0 < to_scale_linear rt a
  /\ (to_float rt a < to_float rt b ->
      to_scale_linear rt a < to_scale_linear rt b).
Proof.
  split; [apply exp_pos | apply exp_increasing].
Qed.

Lemma remap_axes_isometry (u v : R * R * R) :
  let dot a b :=
    let '(a1, a2, a3) := a in let '(b1, b2, b3) := b in
    a1 * b1 + a2 * b2 + a3 * b3 in
  dot (remap_axes u) (remap_axes v) = dot u v.
Proof. destruct u as [[u1 u2] u3], v as [[v1 v2] v3]. simpl. ring. Qed.


Lemma bind_inv {A B : Type} (m : outcome A) (f : A -> outcome B) (b : B) :
  m ≫= f = Ok b -> exists a, m = Ok a /\ f a = Ok b.
Proof. destruct m as [a|]; simpl; [eauto | discriminate]. Qed.

Lemma store_inv {A : Type} (span span' : list A) (index : nat) (value : A) :
  store span index value = Ok span' ->
  (index < length span)%nat /\ span' = <[index := value]> span.
Proof.
  unfold store. destruct (index <? length span)%nat eqn:Hlt; [|discriminate].
  intros [= <-]. apply Nat.ltb_lt in Hlt. auto.
Qed.

Lemma convert_splat_inv {F3 F4 RGBA : Type} (rt : runtime)
    (mkF3 : R -> R -> R -> F3) (mkF4 : R -> R -> R -> R -> F4)
    (mkRGBA : Z -> Z -> Z -> Z -> RGBA) (index : nat) (get : GetPropertyFn)
    (positions positions' : list F3) (rotations rotations' : list F4)
    (scales scales' : list F3) (colors colors' : list RGBA) :
  convert_splat rt mkF3 mkF4 mkRGBA index get positions rotations scales colors
    = Ok (positions', rotations', scales', colors') ->
  exists pz px py rz rx ry rw sz sx sy cr cg cb op r g b,
    get Property.Z = Ok pz /\ get Property.X = Ok px
    /\ get Property.Y = Ok py
    /\ get Property.RotationZ = Ok rz /\ get Property.RotationX = Ok rx
    /\ get Property.RotationY = Ok ry /\ get Property.RotationW = Ok rw
    /\ get Property.ScaleZ = Ok sz /\ get Property.ScaleX = Ok sx
    /\ get Property.ScaleY = Ok sy
    /\ get Property.DCRed = Ok cr /\ get Property.DCGreen = Ok cg
    /\ get Property.DCBlue = Ok cb /\ get Property.Opacity = Ok op
    /\ to_color_linear rt cr = Ok r /\ to_color_linear rt cg = Ok g
    /\ to_color_linear rt cb = Ok b
    /\ (index < length positions)%nat /\ (index < length rotations)%nat
    /\ (index < length scales)%nat /\ (index < length colors)%nat
    /\ positions' = <[index := mkF3 (to_float rt pz) (to_float rt px)
                                    (- to_float rt py)]> positions
    /\ rotations' =
         (let x := - to_float rt rz in
          let y := - to_float rt rx in
          let z := to_float rt ry in
          let w := to_float rt rw in
          let len := sqrt (x * x + y * y + z * z + w * w) in
          <[index := mkF4 (x / len) (y / len) (z / len) (w / len)]> rotations)
    /\ scales' = <[index := mkF3 (to_scale_linear rt sz)
                                 (to_scale_linear rt sx)
                                 (to_scale_linear rt sy)]> scales
    /\ colors' = <[index := mkRGBA r g b (to_alpha_linear rt op)]> colors.
Proof.
  unfold convert_splat. intros H.
  apply bind_inv in H as (pz & Hpz & H). apply bind_inv in H as (px & Hpx & H).
  apply bind_inv in H as (py & Hpy & H). apply bind_inv in H as (ps & Hps & H).
  apply bind_inv in H as (rz & Hrz & H). apply bind_inv in H as (rx & Hrx & H).
  apply bind_inv in H as (ry & Hry & H). apply bind_inv in H as (rw & Hrw & H).
  cbv zeta in H.
  apply bind_inv in H as (rs & Hrs & H).
  apply bind_inv in H as (sz & Hsz & H). apply bind_inv in H as (sx & Hsx & H).
  apply bind_inv in H as (sy & Hsy & H). apply bind_inv in H as (ss & Hss & H).
  apply bind_inv in H as (cr & Hcr & H). apply bind_inv in H as (r & Hr & H).
  apply bind_inv in H as (cg & Hcg & H). apply bind_inv in H as (g & Hg & H).
  apply bind_inv in H as (cb & Hcb & H). apply bind_inv in H as (b & Hb & H).
  apply bind_inv in H as (op & Hop & H). apply bind_inv in H as (cs & Hcs & H).
  injection H as <- <- <- <-.
  apply store_inv in Hps as [? ->]. apply store_inv in Hrs as [? ->].
  apply store_inv in Hss as [? ->]. apply store_inv in Hcs as [? ->].
  exists pz, px, py, rz, rx, ry, rw, sz, sx, sy, cr, cg, cb, op, r, g, b.
  repeat split; assumption || reflexivity.
Qed.




(** A property that [get] cannot deliver makes the conversion fail. *)
Lemma convert_splat_needs_every_property {F3 F4 RGBA : Type} (rt : runtime)
    (mkF3 : R -> R -> R -> F3) (mkF4 : R -> R -> R -> R -> F4)
    (mkRGBA : Z -> Z -> Z -> Z -> RGBA) (index : nat) (get : GetPropertyFn)
    (positions : list F3) (rotations : list F4)
    (scales : list F3) (colors : list RGBA) (k : Property.t) (why : abnormal) :
  k <> Property.Ignore ->
  get k = Abort why ->
  forall r, convert_splat rt mkF3 mkF4 mkRGBA index get positions rotations
              scales colors <> Ok r.
Proof.
  intros Hk Hget [[[ps rs] ss] cs] H.
  apply convert_splat_inv in H
    as (pz & px & py & rz & rx & ry & rw & sz & sx & sy & cr & cg & cb & op
        & r & g & b & ? & ? & ? & ? & ? & ? & ? & ? & ? & ? & ? & ? & ? & ?
        & _).
  destruct k; congruence.
Qed.



End ConversionFacts.

(** ** The eigenvalue computation in binary32 *)

Module Float32Facts.
Import SpecFloat ShadersFloat32.
Local Open Scope R_scope.

Lemma F2R_pow2_15 : F2R (pow2 15) = 32768.
Proof. unfold F2R, pow2. simpl. lra. Qed.

Lemma F2R_pow2_m14 : F2R (pow2 (-14)) = / 16384.
Proof. unfold F2R, pow2. simpl. lra. Qed.

(** C4, at an input on which the code departs from it.  For the projected
    covariance with [sig_p_00 = 2^15], [sig_p_01_10 = 0] and
    [sig_p_11 = 2^-14], whose discriminant is positive, the kernel's
    binary32 arithmetic rounds the trace to [2^15] and the discriminant to
    [2^30], so [two_lmb] is [(2^16, 0)]: the eigenvalues it computes are
    [2^15] and [0].  Their product is 0 where the determinant is 2, and
    their sum is [2^15] where the trace is [2^15 + 2^-14]. *)
Theorem two_lmb_loses_small_eigenvalue :
  let s00 := pow2 15 in
  let s01 := zero in
  let s11 := pow2 (-14) in
  let l0 := fdiv (fst (two_lmb s00 s01 s11)) (pow2 1) in
  let l1 := fdiv (snd (two_lmb s00 s01 s11)) (pow2 1) in
  (F2R s00 = 32768 /\ F2R s01 = 0 /\ F2R s11 = / 16384)
  /\ 0 < (F2R s00 + F2R s11) * (F2R s00 + F2R s11)
         - 4 * (F2R s00 * F2R s11 - F2R s01 * F2R s01)
  /\ (det s00 s01 s11 = pow2 1 /\ trace s00 s11 = pow2 15
      /\ sqrt_disc s00 s01 s11 = pow2 15)
  /\ two_lmb s00 s01 s11 = (pow2 16, zero)
  /\ (l0 = pow2 15 /\ l1 = zero)
  /\ F2R l0 * F2R l1 = 0
  /\ F2R s00 * F2R s11 - F2R s01 * F2R s01 = 2
  /\ F2R l0 + F2R l1 = 32768
  /\ F2R s00 + F2R s11 = 32768 + / 16384.
Proof.
  cbv zeta.
  assert (Hd : det (pow2 15) zero (pow2 (-14)) = pow2 1)
    by (vm_compute; reflexivity).
  assert (Htr : trace (pow2 15) (pow2 (-14)) = pow2 15)
    by (vm_compute; reflexivity).
  assert (Hs : sqrt_disc (pow2 15) zero (pow2 (-14)) = pow2 15)
    by (vm_compute; reflexivity).
  assert (Ht : two_lmb (pow2 15) zero (pow2 (-14)) = (pow2 16, zero))
    by (vm_compute; reflexivity).
  rewrite Ht. cbn [fst snd].
  assert (H0 : fdiv (pow2 16) (pow2 1) = pow2 15) by (vm_compute; reflexivity).
  assert (H1 : fdiv zero (pow2 1) = zero) by (vm_compute; reflexivity).
  rewrite H0, H1, F2R_pow2_15, F2R_pow2_m14.
  change (F2R zero) with 0.
  repeat split; try assumption; try reflexivity; lra.
Qed.
End Float32Facts.

(** ** The two stages against each other, without assumptions on the host *)

Module StageFacts.
Import Unpacking Shaders StageExamples ShaderFacts.
Local Open Scope R_scope.









End StageFacts.

(** ** The importer with its log calls *)

Module PlyLoggingFacts.
Import Ply Logging PlyNotions PlyFacts PlyImporter PlyHeaders.
Local Open Scope string_scope.
#[local] Arguments table_lookup : simpl never.
#[local] Arguments from_chars : simpl never.
#[local] Arguments add_property : simpl never.
#[local] Arguments pop_token : simpl never.
#[local] Arguments pop_line : simpl never.

Lemma element_line_no_receiver (p : SplatParserPly) (line text : string) :
  PlyLogging.element_line None p line text = element_line p line text.
Proof. reflexivity. Qed.

Lemma property_line_no_receiver (p : SplatParserPly) (line text : string) :
  PlyLogging.property_line None p line text = property_line p line text.
Proof. reflexivity. Qed.

Lemma header_step_no_receiver (p : SplatParserPly) (text : string) :
  PlyLogging.header_step None p text = header_step p text.
Proof. reflexivity. Qed.

Lemma header_loop_no_receiver (fuel : nat) (p : SplatParserPly)
    (text : string) :
  PlyLogging.header_loop None fuel p text = header_loop fuel p text.
Proof.
  revert p text. induction fuel as [|fuel IH]; intros p text; [reflexivity|].
  cbn [PlyLogging.header_loop header_loop].
  rewrite header_step_no_receiver.
  destruct (header_step p text) as [[p1 t1 | ok p1] | why]; cbn;
    [apply IH | reflexivity | reflexivity].
Qed.

Ltac by_cases :=
  unfold mbind, outcome_bind; cbn -[String.eqb];
  repeat match goal with
         | |- context [match ?x with _ => _ end] =>
             destruct x eqn:?; cbn -[String.eqb]; try reflexivity
         | |- context [if ?x then _ else _] =>
             destruct x eqn:?; cbn -[String.eqb]; try reflexivity
         end.

Lemma element_line_receiver (r : receiver) (p : SplatParserPly)
    (line text : string) :
  PlyLogging.element_line (Some r) p line text
  = PlyLogging.logged_step (element_line p line text).
Proof.
  unfold PlyLogging.element_line, element_line, PlyLogging.logged_step. by_cases.
Qed.

Lemma property_line_receiver (r : receiver) (p : SplatParserPly)
    (line text : string) :
  PlyLogging.property_line (Some r) p line text
  = PlyLogging.logged_step (property_line p line text).
Proof.
  unfold PlyLogging.property_line, property_line, PlyLogging.logged_step. by_cases.
Qed.

Lemma header_step_receiver (r : receiver) (p : SplatParserPly)
    (text : string) :
  PlyLogging.header_step (Some r) p text = PlyLogging.logged_step (header_step p text).
Proof.
  unfold PlyLogging.header_step, header_step.
  destruct (pop_line text) as [[line|] t]; [|reflexivity].
  destruct (pop_token line) as [[[tok|] rest]|why]; cbn -[String.eqb];
    try reflexivity.
  destruct (String.eqb tok "comment"); [reflexivity|].
  destruct (String.eqb tok "element"); [apply element_line_receiver|].
  destruct (String.eqb tok "property"); [apply property_line_receiver|].
  destruct (String.eqb tok "end_header"); reflexivity.
Qed.

Lemma header_loop_receiver (r : receiver) (fuel : nat) (p : SplatParserPly)
    (text : string) :
  PlyLogging.header_loop (Some r) fuel p text
  = PlyLogging.logged_result (header_loop fuel p text).
Proof.
  revert p text. induction fuel as [|fuel IH]; intros p text; [reflexivity|].
  cbn [PlyLogging.header_loop header_loop].
  rewrite header_step_receiver.
  destruct (header_step p text) as [[p1 t1 | [|] p1] | why]; cbn;
    [apply IH | reflexivity | reflexivity | reflexivity].
Qed.

Lemma parse_header_no_receiver (fuel : nat) (p : SplatParserPly) :
  PlyLogging.parse_header None fuel p = parse_header fuel p.
Proof.
  unfold PlyLogging.parse_header, parse_header.
  destruct (pop_line (buffer p)) as [[l0|] t0]; [|reflexivity].
  destruct (negb (String.eqb l0 "ply")); [reflexivity|].
  destruct (pop_line t0) as [[l1|] t1]; [|reflexivity].
  destruct (pop_token l1) as [[[tok|] r1]|why]; cbn -[String.eqb];
    try reflexivity.
  destruct (negb (String.eqb tok "format")); [reflexivity|].
  destruct (pop_token r1) as [[[ftok|] r2]|why]; cbn -[String.eqb];
    try reflexivity.
  destruct (table_lookup ftok format_map) as [f|]; [|reflexivity].
  destruct (pop_token r2) as [[[vtok|] r3]|why]; cbn -[String.eqb];
    try reflexivity.
  destruct (negb (String.eqb vtok "1.0")); cbn;
    apply header_loop_no_receiver.
Qed.

Lemma parse_header_receiver (r : receiver) (fuel : nat) (p : SplatParserPly) :
  PlyLogging.parse_header (Some r) fuel p
  = PlyLogging.logged_result (parse_header fuel p)
  \/ PlyLogging.parse_header (Some r) fuel p = Abort UndefinedBehaviour.
Proof.
  unfold PlyLogging.parse_header, parse_header.
  destruct (pop_line (buffer p)) as [[l0|] t0]; [|left; reflexivity].
  destruct (negb (String.eqb l0 "ply")); [left; reflexivity|].
  destruct (pop_line t0) as [[l1|] t1]; [|left; reflexivity].
  destruct (pop_token l1) as [[[tok|] r1]|why]; cbn -[String.eqb];
    try (left; reflexivity).
  destruct (negb (String.eqb tok "format")); [left; reflexivity|].
  destruct (pop_token r1) as [[[ftok|] r2]|why]; cbn -[String.eqb];
    try (left; reflexivity).
  destruct (table_lookup ftok format_map) as [f|]; [|left; reflexivity].
  destruct (pop_token r2) as [[[vtok|] r3]|why]; cbn -[String.eqb];
    try (left; reflexivity).
  destruct (negb (String.eqb vtok "1.0")); cbn.
  - right. reflexivity.
  - left. apply header_loop_receiver.
Qed.

Lemma parse_metadata_no_receiver (fuel : nat) (p : SplatParserPly)
    (ply_buffer : string) (metadata : Metadata) :
  PlyLogging.parse_metadata None fuel p ply_buffer metadata
  = parse_metadata fuel p ply_buffer metadata.
Proof.
  unfold PlyLogging.parse_metadata, parse_metadata.
  rewrite parse_header_no_receiver.
  destruct (parse_header fuel (set_buffer ply_buffer p)) as [[[|] p1]|why];
    cbn; reflexivity.
Qed.

Lemma parse_metadata_receiver (r : receiver) (fuel : nat)
    (p : SplatParserPly) (ply_buffer : string) (metadata : Metadata) :
  PlyLogging.parse_metadata (Some r) fuel p ply_buffer metadata
  = PlyLogging.logged_metadata (parse_metadata fuel p ply_buffer metadata)
  \/ PlyLogging.parse_metadata (Some r) fuel p ply_buffer metadata
     = Abort UndefinedBehaviour.
Proof.
  unfold PlyLogging.parse_metadata, parse_metadata.
  destruct (parse_header_receiver r fuel (set_buffer ply_buffer p))
    as [-> | ->]; [|right; reflexivity].
  destruct (parse_header fuel (set_buffer ply_buffer p)) as [[[|] p1]|why];
    cbn; try (left; reflexivity).
  destruct (negb _); left; reflexivity.
Qed.

(** Whatever the state of [send_log], a result of the importer with its log
    calls is the result without them, or the undefined behaviour of a log
    call made with a receiver installed. *)
Lemma parse_metadata_logging (send_log : option receiver) (fuel : nat)
    (p : SplatParserPly) (ply_buffer : string) (metadata : Metadata) :
  match PlyLogging.parse_metadata send_log fuel p ply_buffer metadata with
  | Ok (ok, p', metadata') =>
      parse_metadata fuel p ply_buffer metadata = Ok (ok, p', metadata')
      /\ (ok = false -> send_log = None)
  | Abort why =>
      parse_metadata fuel p ply_buffer metadata = Abort why
      \/ (why = UndefinedBehaviour /\ is_Some send_log)
  end.
Proof.
  destruct send_log as [r|].
  - destruct (parse_metadata_receiver r fuel p ply_buffer metadata)
      as [-> | ->]; [|right; eauto].
    destruct (parse_metadata fuel p ply_buffer metadata)
      as [[[[|] p'] metadata']|why]; cbn.
    + split; [reflexivity | discriminate].
    + right. eauto.
    + left. reflexivity.
  - rewrite parse_metadata_no_receiver.
    destruct (parse_metadata fuel p ply_buffer metadata)
      as [[[ok p'] metadata']|why]; [split; reflexivity | left; reflexivity].
Qed.

Lemma parse_metadata_false (fuel : nat) (p p' : SplatParserPly)
    (ply_buffer : string) (metadata metadata' : Metadata) :
  parse_metadata fuel p ply_buffer metadata = Ok (false, p', metadata') ->
  metadata' = metadata.
Proof.
  unfold parse_metadata.
  destruct (parse_header fuel (set_buffer ply_buffer p))
    as [[[|] p1] | why]; simpl; [| |discriminate].
  - destruct (negb _); simpl; intros [= _ <-]; reflexivity.
  - intros [= _ <-]. reflexivity.
Qed.

(** C9, with the input on which the code departs from it.  Whatever the
    state of [send_log], when [parse_metadata] returns [false] the caller's
    metadata is as it was, and when it returns [true] and the product of
    [num_splats] and the record size fits a [size_t], the size remaining
    equals that product.  But the check compares with the product reduced to
    a [size_t]: on the file that declares 2^62 records of four bytes and
    holds no data, the metadata is written with 0 bytes remaining against a
    product of 2^64. *)
Theorem metadata_written_on_wrapped_size :
  (forall send_log fuel p ply_buffer metadata p' metadata',
     PlyLogging.parse_metadata send_log fuel p ply_buffer metadata
     = Ok (false, p', metadata') ->
     metadata' = metadata)
  /\ (forall send_log fuel p ply_buffer metadata p' metadata',
        PlyLogging.parse_metadata send_log fuel p ply_buffer metadata
        = Ok (true, p', metadata') ->
        (0 <= num_splats p' * splat_size p' < 2 ^ 64)%Z ->
        Z.of_nat (String.length (buffer p'))
        = (num_splats p' * splat_size p')%Z)
  /\ (forall send_log,
        exists p' metadata',
          PlyLogging.parse_metadata send_log 8 new_parser overflowing_file
                                    empty_metadata
          = Ok (true, p', metadata')
          /\ metadata' <> empty_metadata
          /\ md_num_splats metadata' = 4611686018427387904%Z
          /\ Z.of_nat (String.length (buffer p')) = 0%Z
          /\ (num_splats p' * splat_size p')%Z = (2 ^ 64)%Z).
Proof.
  split; [|split].
  - intros send_log fuel p ply_buffer metadata p' metadata' H.
    pose proof (parse_metadata_logging send_log fuel p ply_buffer metadata)
      as Hl.
    rewrite H in Hl. destruct Hl as [Hplain _].
    exact (parse_metadata_false _ _ _ _ _ _ Hplain).
  - intros send_log fuel p ply_buffer metadata p' metadata' H Hfit.
    pose proof (parse_metadata_logging send_log fuel p ply_buffer metadata)
      as Hl.
    rewrite H in Hl. destruct Hl as [Hplain _].
    rewrite (parse_metadata_size _ _ _ _ _ _ Hplain).
    unfold size_t. apply Z.mod_small. exact Hfit.
  - intros send_log.
    assert (H : exists p' metadata',
              PlyLogging.parse_metadata send_log 8 new_parser overflowing_file
                                        empty_metadata
              = Ok (true, p', metadata')
              /\ md_num_splats metadata' = 4611686018427387904%Z
              /\ Z.of_nat (String.length (buffer p')) = 0%Z
              /\ (num_splats p' * splat_size p')%Z = (2 ^ 64)%Z).
    { destruct send_log as [r|]; vm_compute;
        (eexists; eexists; split; [reflexivity|]); repeat split. }
    destruct H as (p' & metadata' & H & Hn & Hlen & Hprod).
    exists p', metadata'. split; [exact H|]. split; [|auto].
    intros Heq. rewrite Heq in Hn. discriminate Hn.
Qed.

(** C10, in both states of [send_log].  For every file whose header
    contains a property line of a type other than [float] and [float32],
    also when the property's name is one the importer would ignore:
    without a log receiver [parse_metadata] returns [false] and leaves the
    metadata as it was; with a receiver installed the rejection runs into
    the undefined behaviour of [log], called by [log_error] on that path. *)
Theorem other_type_rejected_unless_logging (send_log : option receiver)
    (fuel : nat) (p : SplatParserPly) (before : list string)
    (l after : string) (metadata : Metadata) :
  Forall no_newline before ->
  no_newline l ->
  Forall (fun x => first_token x <> Some "end_header") (drop 2 before) ->
  property_line_of_other_type l = true ->
  (List.length before <= fuel)%nat ->
  match send_log with
  | None =>
      exists p',
        PlyLogging.parse_metadata send_log fuel p
          (terminated before ++ l ++ nl ++ after) metadata
        = Ok (false, p', metadata)
  | Some _ =>
      PlyLogging.parse_metadata send_log fuel p
        (terminated before ++ l ++ nl ++ after) metadata
      = Abort UndefinedBehaviour
  end.
Proof.
  intros Hnl Hl Hend Hbad Hfuel.
  assert (Hplain : exists p',
            parse_metadata fuel p (terminated before ++ l ++ nl ++ after)
                           metadata
            = Ok (false, p', metadata)).
  { unfold parse_metadata.
    destruct (parse_header_other_type fuel
                (set_buffer (terminated before ++ l ++ nl ++ after) p)
                before l after Hnl Hl Hend Hbad Hfuel eq_refl) as [p' ->].
    simpl. eauto. }
  destruct Hplain as [p' Hplain].
  destruct send_log as [r|].
  - destruct (parse_metadata_receiver r fuel p
                (terminated before ++ l ++ nl ++ after) metadata)
      as [-> | ->]; [|reflexivity].
    rewrite Hplain. reflexivity.
  - exists p'. rewrite parse_metadata_no_receiver. exact Hplain.
Qed.

Lemma other_type_rejected_unless_logging_witness :
  Forall no_newline example_header_lines
  /\ no_newline "property uchar red"
  /\ Forall (fun x => first_token x <> Some "end_header")
            (drop 2 example_header_lines)
  /\ property_line_of_other_type "property uchar red" = true
  /\ (List.length example_header_lines <= 4)%nat
  /\ PlyLogging.parse_metadata (Some PlyLogging.example_receiver) 4
       new_parser PlyLogging.uchar_file empty_metadata
     = Abort UndefinedBehaviour
  /\ exists p',
       PlyLogging.parse_metadata None 4 new_parser PlyLogging.uchar_file
                                 empty_metadata
       = Ok (false, p', empty_metadata).
Proof.
  assert (H1 : Forall no_newline example_header_lines)
    by (repeat constructor).
  assert (H2 : no_newline "property uchar red") by reflexivity.
  assert (H3 : Forall (fun x => first_token x <> Some "end_header")
                      (drop 2 example_header_lines))
    by (repeat constructor; vm_compute; discriminate).
  assert (H4 : property_line_of_other_type "property uchar red" = true)
    by reflexivity.
  assert (H5 : (List.length example_header_lines <= 4)%nat)
    by (simpl; lia).
  split; [exact H1|]. split; [exact H2|]. split; [exact H3|].
  split; [exact H4|]. split; [exact H5|]. split.
  - exact (other_type_rejected_unless_logging
             (Some PlyLogging.example_receiver) 4 new_parser
             example_header_lines "property uchar red"
             (terminated ["end_header"]) empty_metadata H1 H2 H3 H4 H5).
  - exact (other_type_rejected_unless_logging None 4 new_parser
             example_header_lines "property uchar red"
             (terminated ["end_header"]) empty_metadata H1 H2 H3 H4 H5).
Defined.

(** X19. [parse_metadata] comes to an end on every header whose lines, the
    [end_header] line included, each end in a line feed, whatever the lines
    hold and whatever follows as data: the loop needs one turn a line and
    [pop_token] never reaches its undefined [remove_prefix].  With no log
    receiver installed it returns [true] or [false]; with one, the only
    other outcome is the undefined behaviour of a log call. *)
Theorem terminated_header_returns (send_log : option receiver)
    (fuel : nat) (p : SplatParserPly)
    (before : list string) (l data : string) (metadata : Metadata) :
  Forall no_newline before -> no_newline l ->
  first_token l = Some "end_header" ->
  (List.length before < fuel)%nat ->
  (send_log = None ->
   exists ok p' metadata',
     PlyLogging.parse_metadata send_log fuel p
       (terminated before ++ l ++ nl ++ data) metadata
     = Ok (ok, p', metadata'))
  /\ (forall why,
        PlyLogging.parse_metadata send_log fuel p
          (terminated before ++ l ++ nl ++ data) metadata
        = Abort why ->
        why = UndefinedBehaviour /\ is_Some send_log).
Proof.
  intros Hnl Hl He Hfuel.
  destruct (parse_metadata_returns fuel p before l data metadata
              Hnl Hl He Hfuel) as (ok & p' & metadata' & Hplain).
  split.
  - intros ->. exists ok, p', metadata'.
    rewrite parse_metadata_no_receiver. exact Hplain.
  - intros why Hab.
    pose proof (parse_metadata_logging send_log fuel p
                  (terminated before ++ l ++ nl ++ data) metadata) as Hl'.
    rewrite Hab in Hl'.
    destruct Hl' as [Habs | Hub]; [congruence | exact Hub].
Qed.

Lemma terminated_header_returns_witness :
  Forall no_newline example_header_lines /\ no_newline "end_header"
  /\ first_token "end_header" = Some "end_header"
  /\ (List.length example_header_lines < 8)%nat
  /\ ((None : option receiver) = None ->
      exists ok p' metadata',
        PlyLogging.parse_metadata None 8 new_parser
          (terminated example_header_lines ++ "end_header" ++ nl ++ "abcd")
          empty_metadata
        = Ok (ok, p', metadata'))
  /\ (forall why,
        PlyLogging.parse_metadata None 8 new_parser
          (terminated example_header_lines ++ "end_header" ++ nl ++ "abcd")
          empty_metadata
        = Abort why ->
        why = UndefinedBehaviour /\ is_Some (None : option receiver)).
Proof.
  assert (H1 : Forall no_newline example_header_lines)
    by (repeat constructor).
  assert (H2 : no_newline "end_header") by reflexivity.
  assert (H3 : first_token "end_header" = Some "end_header") by reflexivity.
  assert (H4 : (List.length example_header_lines < 8)%nat)
    by (vm_compute; lia).
  split; [exact H1|]. split; [exact H2|]. split; [exact H3|].
  split; [exact H4|].
  exact (terminated_header_returns None 8 new_parser example_header_lines
           "end_header" "abcd" empty_metadata H1 H2 H3 H4).
Defined.

End PlyLoggingFacts.
